(** * poke-llm: the turn-decision pipeline of [src/agent/llm_player.py]

    A shallow embedding of the decision pipeline of the LLM player (row
    encoding, heuristic score, JSON extraction, decision validation,
    fallback chain and order emission) together with the properties the
    specification states about it.

    Conventions of the embedding.
    - A Python [int] is a [Z]; a Python [float] is an IEEE-754 binary64
      value, a [spec_float] used at precision 53 and maximal exponent 1024,
      with round-to-nearest-even arithmetic.
    - A Python [str] is a [string] holding its UTF-8 encoding; a lone
      surrogate, which [json.loads] decodes from an unpaired escape, is held
      in the three bytes of its code point.
    - The console and the trace file encode UTF-8: a text with a surrogate
      is refused with [UnicodeEncodeError].
    - An operation that can raise returns a [result]: [Ok v] or [Raise e].
    - Code that writes to the console or to the trace file is a computation
      over a [World]; the battle object lives in that world. *)

From Stdlib Require Import ZArith List String Ascii Bool Lia.
From Stdlib Require Import Floats.SpecFloat.
Import ListNotations.

Local Open Scope string_scope.
Local Open Scope list_scope.
Local Open Scope Z_scope.

(** ** Python runtime: exceptions *)

Module Py.

(** The exception classes the pipeline meets, each with its message. *)
Inductive exn : Type :=
| ValueError (msg : string)
| RuntimeError (msg : string)
| OverflowError (msg : string)
| TypeError (msg : string)
| ZeroDivisionError (msg : string)
| IndexError (msg : string)
| KeyError (msg : string)
| ClientError (msg : string)
| UnicodeEncodeError (msg : string).

(** [str(e)] *)
Definition exn_str (e : exn) : string :=
  match e with
  | ValueError m | RuntimeError m | OverflowError m | TypeError m
  | ZeroDivisionError m | IndexError m | ClientError m
  | UnicodeEncodeError m => m
  | KeyError m => ("'" ++ m ++ "'")%string
  end.

Inductive result (A : Type) : Type :=
| Ok (v : A)
| Raise (e : exn).

Arguments Ok {A} v.
Arguments Raise {A} e.

Definition bind {A B} (m : result A) (k : A -> result B) : result B :=
  match m with
  | Ok v => k v
  | Raise e => Raise e
  end.

(** [try: m except Exception: d] *)
Definition try_except {A} (m : result A) (d : A) : A :=
  match m with
  | Ok v => v
  | Raise _ => d
  end.

End Py.

Import Py.

Declare Scope py_scope.
Delimit Scope py_scope with py.
Notation "x <- m ;; k" := (Py.bind m (fun x => k))
  (at level 61, m at next level, right associativity) : py_scope.
Local Open Scope py_scope.

(** ** Python runtime: binary64 floats *)

Module PyFloat.

Definition prec : Z := 53.
Definition emax : Z := 1024.

Definition float : Type := spec_float.

Definition mul : float -> float -> float := SFmul prec emax.
Definition div : float -> float -> float := SFdiv prec emax.
Definition ltb : float -> float -> bool := SFltb.
Definition leb : float -> float -> bool := SFleb.
Definition eqb : float -> float -> bool := SFeqb.

(** The nearest binary64 value of an integer, ties to even. *)
Definition of_Z (n : Z) : float := binary_normalize prec emax n 0 false.

Definition zero : float := S754_zero false.
Definition one : float := Eval vm_compute in of_Z 1.
Definition one_and_half : float := Eval vm_compute in div (of_Z 3) (of_Z 2).
Definition hundred : float := Eval vm_compute in of_Z 100.

Definition is_nan (f : float) : bool :=
  match f with
  | S754_nan => true
  | _ => false
  end.

(** [float(n)] for an [int] [n], as the interpreter converts the left
    operand of [n * x] and [n / x]: integers beyond the binary64 range
    raise [OverflowError]. *)
Definition of_int (n : Z) : result float :=
  match of_Z n with
  | S754_infinity _ => Raise (OverflowError "int too large to convert to float")
  | f => Ok f
  end.

(** [bool(x)]: a float is falsy exactly when it equals zero. *)
Definition truthy (f : float) : bool := negb (eqb f zero).

(** [x or d] *)
Definition or_else (x d : float) : float := if truthy x then x else d.

(** The builtin [min(a, b)] and [max(a, b)]: the first argument is kept
    unless the second is strictly smaller (resp. larger). *)
Definition min2 (a b : float) : float := if ltb b a then b else a.
Definition max2 (a b : float) : float := if ltb a b then b else a.

(** [a / b] on two [int]s: the correctly rounded quotient. *)
Definition int_true_div (a b : Z) : result float :=
  if b =? 0 then Raise (ZeroDivisionError "division by zero")
  else
    let sa := a <? 0 in
    let sb := b <? 0 in
    if a =? 0 then Ok (S754_zero (xorb sa sb))
    else
      match div (S754_finite sa (Z.to_pos (Z.abs a)) 0)
                (S754_finite sb (Z.to_pos (Z.abs b)) 0) with
      | S754_infinity _ =>
          Raise (OverflowError "integer division result too large for a float")
      | f => Ok f
      end.

(** [round(x)]: the nearest integer, ties to even. *)
Definition round_half_even (f : float) : result Z :=
  match f with
  | S754_nan => Raise (ValueError "cannot convert float NaN to integer")
  | S754_infinity _ =>
      Raise (OverflowError "cannot convert float infinity to integer")
  | S754_zero _ => Ok 0
  | S754_finite s m e =>
      let v :=
        if 0 <=? e then Zpos m * 2 ^ e
        else
          let d := 2 ^ (- e) in
          let q := Zpos m / d in
          let r := Zpos m mod d in
          match 2 * r ?= d with
          | Lt => q
          | Gt => q + 1
          | Eq => if Z.even q then q else q + 1
          end in
      Ok (if s then - v else v)
  end.

End PyFloat.

(** ** Python runtime: integers, sequences *)

Module PyInt.

(** [x or d] on integers. *)
Definition or_else (x d : Z) : Z := if x =? 0 then d else x.

Definition min2 (a b : Z) : Z := if b <? a then b else a.
Definition max2 (a b : Z) : Z := if a <? b then b else a.

End PyInt.

Module PyList.

(** [l[i]]: a negative index counts from the end, an index out of range
    raises [IndexError]. *)
Definition index {A} (l : list A) (i : Z) : result A :=
  let n := Z.of_nat (List.length l) in
  let j := if i <? 0 then i + n else i in
  if (j <? 0) || (n <=? j) then Raise (IndexError "list index out of range")
  else match nth_error l (Z.to_nat j) with
       | Some v => Ok v
       | None => Raise (IndexError "list index out of range")
       end.

(** [enumerate(l)] *)
Fixpoint enumerate_from {A} (i : Z) (l : list A) : list (Z * A) :=
  match l with
  | [] => []
  | x :: l' => (i, x) :: enumerate_from (i + 1) l'
  end.

Definition enumerate {A} (l : list A) : list (Z * A) := enumerate_from 0 l.

(** [range(n)] *)
Definition range (n : Z) : list Z := map Z.of_nat (seq 0 (Z.to_nat n)).

(** The loop of the builtin [max(iterable, key=key)] after the first item:
    an item replaces the current best only when its key is strictly
    greater. *)
Fixpoint max_loop {A} (key : A -> result PyFloat.float) (best : A)
  (bestv : PyFloat.float) (l : list A) : result A :=
  match l with
  | [] => Ok best
  | x :: l' =>
      v <- key x ;;
      if PyFloat.ltb bestv v then max_loop key x v l' else max_loop key best bestv l'
  end.

Definition max_key {A} (key : A -> result PyFloat.float) (l : list A) : result A :=
  match l with
  | [] => Raise (ValueError "max() arg is an empty sequence")
  | x :: l' => v <- key x ;; max_loop key x v l'
  end.

End PyList.

Module PyStr.

(** [s.lower()] on the ASCII letters; the bytes of a non-ASCII character are
    kept as they are. *)
Definition lower_ascii (c : ascii) : ascii :=
  let n := N_of_ascii c in
  if ((65 <=? n) && (n <=? 90))%N then ascii_of_N (n + 32) else c.

Fixpoint lower (s : string) : string :=
  match s with
  | EmptyString => EmptyString
  | String c s' => String (lower_ascii c) (lower s')
  end.

(** [x or d] on strings: the empty string is falsy. *)
Definition or_else (x d : string) : string :=
  match x with
  | EmptyString => d
  | _ => x
  end.

Fixpoint digits_of_pos_fuel (fuel : nat) (n : Z) (acc : string) : string :=
  match fuel with
  | O => acc
  | S fuel' =>
      let acc' := String (ascii_of_N (Z.to_N (48 + n mod 10))) acc in
      if n <? 10 then acc' else digits_of_pos_fuel fuel' (n / 10) acc'
  end.

(** [str(n)] for an [int]. *)
Definition of_int (n : Z) : string :=
  let d := digits_of_pos_fuel (S (Z.to_nat (Z.log2 (Z.abs n)))) (Z.abs n) "" in
  if n <? 0 then String "-" d else d.

(** [s.encode("utf-8")] does not raise: the text holds no surrogate code
    point.  In the UTF-8 form the embedding keeps, a surrogate (U+D800 to
    U+DFFF, as [json.loads] decodes it from an unpaired escape such as
    [\ud83d]) is the byte ED followed by a byte from A0 to BF; no other
    code point is written so. *)
Fixpoint encodable (s : string) : bool :=
  match s with
  | String a (String b _ as r) =>
      if ((N_of_ascii a =? 237) && (160 <=? N_of_ascii b)
          && (N_of_ascii b <=? 191))%N
      then false
      else encodable r
  | _ => true
  end.

(** What the codec raises otherwise.  Its message, which also names the
    character and its position, is kept to its last part. *)
Definition encode_error : exn := UnicodeEncodeError "surrogates not allowed".

End PyStr.

(** ** The consumed interface of the battle client (poke-env)

    The fields the pipeline reads from the battle client's objects, typed as
    poke-env declares them.  An attribute read through
    [getattr(obj, name, default)] is an [attr]: it may be missing, hold
    [None], or hold a value. *)

Module Upstream.

Inductive attr (A : Type) : Type :=
| Missing
| IsNone
| Has (v : A).

Arguments Missing {A}.
Arguments IsNone {A}.
Arguments Has {A} v.

(** [getattr(obj, name, default)], [None] read as [None]. *)
Definition getattr {A} (a : attr A) (default : option A) : option A :=
  match a with
  | Missing => default
  | IsNone => None
  | Has v => Some v
  end.

(** The values an accuracy entry of the move data can hold. *)
Inductive pyval : Type :=
| PNone
| PBool (b : bool)
| PInt (n : Z)
| PFloat (f : PyFloat.float)
| PStr (s : string).

Module Move.
Record t : Type := mk {
  id : string;
  name : attr string;
  type : option string;          (* the enum member's name *)
  base_power : option Z;
  accuracy : pyval;
  priority : option Z;
  damage_class : option string;  (* the enum member's name *)
  current_pp : attr Z;
  max_pp : attr Z
}.
End Move.

Module Pokemon.
Record t : Type := mk {
  species : attr string;
  name : attr string;
  types : option (list (option string));  (* enum names; a slot may be None *)
  current_hp : option Z;
  max_hp : option Z;
  status : option string                  (* the enum member's name *)
}.
End Pokemon.

Module Battle.
Record t : Type := mk {
  active_pokemon : option Pokemon.t;
  opponent_active_pokemon : option Pokemon.t;
  available_moves : list Move.t;
  available_switches : list Pokemon.t;
  weather : option string;       (* the name of the weather object, if any *)
  terrain : option string;
  turn : option Z;
  force_switch : bool
}.
End Battle.

(** What the player hands back to the battle client: an order built by
    [create_order] from a move or from a team member, or whatever the
    client's own [choose_random_move] returns. *)
Inductive order : Type :=
| OrderMove (m : Move.t)
| OrderSwitch (p : Pokemon.t)
| RandomOrder.

End Upstream.

Import Upstream.

(** ** Data formats *)

Module RowMove.
Record t : Type := mk {
  kind : string;
  index : Z;
  id : string;
  name : string;
  type : string;
  base_power : Z;
  accuracy : PyFloat.float;
  priority : Z;
  category : string;
  pp : Z;
  is_stab : bool
}.
End RowMove.

Module RowSwitch.
Record t : Type := mk {
  kind : string;
  index : Z;
  species : string;
  types : list string;
  hp_pct : Z;
  status : option string
}.
End RowSwitch.

(** A row of the candidate table handed to the oracle, [asdict(r)]. *)
Inductive Row : Type :=
| MoveRow (r : RowMove.t)
| SwitchRow (r : RowSwitch.t).

(** [r["kind"]] *)
Definition Row_kind (r : Row) : string :=
  match r with
  | MoveRow m => RowMove.kind m
  | SwitchRow s => RowSwitch.kind s
  end.

(** Every text of the row can be encoded. *)
Definition Row_encodable (r : Row) : bool :=
  match r with
  | MoveRow m =>
      PyStr.encodable (RowMove.kind m) && PyStr.encodable (RowMove.id m)
      && PyStr.encodable (RowMove.name m) && PyStr.encodable (RowMove.type m)
      && PyStr.encodable (RowMove.category m)
  | SwitchRow s =>
      PyStr.encodable (RowSwitch.kind s)
      && PyStr.encodable (RowSwitch.species s)
      && forallb PyStr.encodable (RowSwitch.types s)
      && match RowSwitch.status s with
         | Some x => PyStr.encodable x
         | None => true
         end
  end.

(** ** Row encoder *)

(** [x or d] where [x] may be [None]. *)
Definition str_or (x : option string) (d : string) : string :=
  match x with
  | None => d
  | Some s => PyStr.or_else s d
  end.

Definition int_or (x : option Z) (d : Z) : Z :=
  match x with
  | None => d
  | Some n => PyInt.or_else n d
  end.

Definition _safe_types (types : option (list (option string))) : list string :=
  let l := match types with
           | None | Some [] => []
           | Some l => l
           end in
  flat_map (fun t => match t with Some n => [n] | None => [] end) l.

Definition _hp_pct (p : Pokemon.t) : Z :=
  try_except
    (match Pokemon.current_hp p, Pokemon.max_hp p with
     | None, _ | _, None => Ok 100
     | Some cur, Some mx =>
         if mx =? 0 then Ok 100
         else
           q <- PyFloat.int_true_div (100 * cur) mx ;;
           n <- PyFloat.round_half_even q ;;
           Ok (PyInt.max2 0 (PyInt.min2 100 n))
     end)
    100.

Definition _status (p : Pokemon.t) : option string := Pokemon.status p.

(** [acc in (None, 0)] *)
Definition acc_is_none_or_zero (acc : pyval) : bool :=
  match acc with
  | PNone => true
  | PBool b => negb b
  | PInt n => n =? 0
  | PFloat f => PyFloat.eqb f PyFloat.zero
  | PStr _ => false
  end.

(** [acc <= 1] *)
Definition acc_le_one (acc : pyval) : result bool :=
  match acc with
  | PBool _ => Ok true
  | PInt n => Ok (n <=? 1)
  | PFloat f => Ok (PyFloat.leb f PyFloat.one)
  | PNone | PStr _ =>
      Raise (TypeError "'<=' not supported between instances")
  end.

(** [acc / 100.0] *)
Definition acc_div_hundred (acc : pyval) : result pyval :=
  match acc with
  | PBool b =>
      Ok (PFloat (PyFloat.div (if b then PyFloat.one else PyFloat.zero)
                    PyFloat.hundred))
  | PInt n => f <- PyFloat.of_int n ;; Ok (PFloat (PyFloat.div f PyFloat.hundred))
  | PFloat f => Ok (PFloat (PyFloat.div f PyFloat.hundred))
  | PNone | PStr _ => Raise (TypeError "unsupported operand type(s) for /")
  end.

(** [float(x)]; a [str] never reaches it, [acc <= 1] raised before. *)
Definition float_of (x : pyval) : result PyFloat.float :=
  match x with
  | PBool b => Ok (if b then PyFloat.one else PyFloat.zero)
  | PInt n => PyFloat.of_int n
  | PFloat f => Ok f
  | PNone => Raise (TypeError "float() argument must be a string or a real number")
  | PStr _ => Raise (ValueError "could not convert string to float")
  end.

Definition _move_accuracy (m : Move.t) : PyFloat.float :=
  try_except
    (let acc := Move.accuracy m in
     if acc_is_none_or_zero acc then Ok PyFloat.one
     else
       le <- acc_le_one acc ;;
       v <- (if le : bool then Ok acc else acc_div_hundred acc) ;;
       float_of v)
    PyFloat.one.

Definition _move_base_power (m : Move.t) : Z :=
  let bp := int_or (Move.base_power m) 0 in
  PyInt.max2 0 bp.

Definition _is_stab (move : Move.t) (me_active : option Pokemon.t) : bool :=
  match me_active, Move.type move with
  | None, _ | _, None => false
  | Some me, Some ty =>
      let my_types := _safe_types (Pokemon.types me) in
      existsb (String.eqb ty) my_types
  end.

Definition _category (m : Move.t) : string :=
  match Move.damage_class m with
  | Some n => n
  | None => "STATUS"
  end.

Definition _priority (m : Move.t) : Z := int_or (Move.priority m) 0.

Definition _move_row (i : Z) (m : Move.t) (me_active : option Pokemon.t)
  : RowMove.t :=
  let movei := ("move" ++ PyStr.of_int i)%string in
  {| RowMove.kind := "move";
     RowMove.index := i;
     RowMove.id := PyStr.lower (Move.id m);
     RowMove.name :=
       PyStr.lower (str_or (getattr (Move.name m) (Some (Move.id m))) movei);
     RowMove.type := match Move.type m with
                     | Some n => n
                     | None => "UNKNOWN"
                     end;
     RowMove.base_power := _move_base_power m;
     RowMove.accuracy := _move_accuracy m;
     RowMove.priority := _priority m;
     RowMove.category := _category m;
     RowMove.pp :=
       int_or (getattr (Move.current_pp m) (getattr (Move.max_pp m) (Some 0))) 0;
     RowMove.is_stab := _is_stab m me_active |}.

Definition _switch_row (i : Z) (p : Pokemon.t) : RowSwitch.t :=
  let pi := ("p" ++ PyStr.of_int i)%string in
  {| RowSwitch.kind := "switch";
     RowSwitch.index := i;
     RowSwitch.species :=
       PyStr.lower
         (str_or (getattr (Pokemon.species p) (getattr (Pokemon.name p) (Some pi)))
                 pi);
     RowSwitch.types := _safe_types (Pokemon.types p);
     RowSwitch.hp_pct := _hp_pct p;
     RowSwitch.status := _status p |}.

(** ** Scoring heuristic *)

Definition _score_move_row (r : RowMove.t) : result PyFloat.float :=
  let acc :=
    PyFloat.max2 PyFloat.zero
      (PyFloat.min2 PyFloat.one
         (PyFloat.or_else (RowMove.accuracy r) PyFloat.zero)) in
  bp <- PyFloat.of_int (PyInt.or_else (RowMove.base_power r) 0) ;;
  Ok (PyFloat.mul (PyFloat.mul bp acc)
        (if RowMove.is_stab r then PyFloat.one_and_half else PyFloat.one)).

(** ** JSON values *)

Module Json.

Set Warnings "-register-all".

(** What [json.loads] can return.  A [dict] is an association list in
    insertion order with distinct keys. *)
Inductive t : Type :=
| JNull
| JBool (b : bool)
| JInt (n : Z)
| JFloat (f : PyFloat.float)
| JStr (s : string)
| JArr (l : list t)
| JObj (kvs : list (string * t)).

Definition dict : Type := list (string * t).

(** [d.get(k)], with [None] for a missing key. *)
Fixpoint get (d : dict) (k : string) : t :=
  match d with
  | [] => JNull
  | (k', v) :: d' => if String.eqb k' k then v else get d' k
  end.

(** [d.get(k, default)] *)
Fixpoint get_default (d : dict) (k : string) (default : t) : t :=
  match d with
  | [] => default
  | (k', v) :: d' => if String.eqb k' k then v else get_default d' k default
  end.

(** [d[k]] *)
Fixpoint item (d : dict) (k : string) : result t :=
  match d with
  | [] => Raise (KeyError k)
  | (k', v) :: d' => if String.eqb k' k then Ok v else item d' k
  end.

(** [d[k] = v] *)
Fixpoint set (d : dict) (k : string) (v : t) : dict :=
  match d with
  | [] => [(k, v)]
  | (k', v') :: d' =>
      if String.eqb k' k then (k', v) :: d' else (k', v') :: set d' k v
  end.

(** [isinstance(v, int)]: a [bool] is an [int]. *)
Definition is_int (v : t) : bool :=
  match v with
  | JInt _ | JBool _ => true
  | _ => false
  end.

(** The integer an [int] (or [bool]) value stands for in comparisons and
    as a list index; any other value raises here. *)
Definition as_int (v : t) : result Z :=
  match v with
  | JInt n => Ok n
  | JBool b => Ok (if b then 1 else 0)
  | _ => Raise (TypeError "index is not an int")
  end.

(** [v == s] for a string literal [s]. *)
Definition eq_str (v : t) (s : string) : bool :=
  match v with
  | JStr s' => String.eqb s' s
  | _ => false
  end.

(** The text of [v] inside an f-string, [format(v, "")], can be encoded: a
    [str] is shown as it is; a list or a dict is shown by [repr], which
    escapes what cannot be printed; numbers, booleans and [None] are
    ASCII. *)
Definition shown_encodable (v : t) : bool :=
  match v with
  | JStr s => PyStr.encodable s
  | _ => true
  end.

(** [json.dumps(v, ensure_ascii=False)] can be encoded: every string of
    [v], keys included, is written as it is. *)
Fixpoint encodable (v : t) : bool :=
  match v with
  | JStr s => PyStr.encodable s
  | JArr l => forallb encodable l
  | JObj kvs => forallb (fun '(k, x) => PyStr.encodable k && encodable x) kvs
  | _ => true
  end.

End Json.

(** ** A model of [json.loads]

    Modelled from the Python standard library: the decoder is not part of
    this repository.  It is what the examples run on; the theorems about
    the pipeline hold for any decoder. *)

Module JsonDecoder.

Import Json.

Definition quote : ascii := "034".
Definition backslash : ascii := "092".

(** [dq s] is [s] with every apostrophe replaced by a double quote: a way
    to write JSON texts. *)
Fixpoint dq (s : string) : string :=
  match s with
  | EmptyString => EmptyString
  | String c s' => String (if Ascii.eqb c "'" then quote else c) (dq s')
  end.

Definition is_ws (c : ascii) : bool :=
  match N_of_ascii c with
  | 32%N | 9%N | 10%N | 13%N => true
  | _ => false
  end.

Fixpoint skip_ws (cs : list ascii) : list ascii :=
  match cs with
  | c :: cs' => if is_ws c then skip_ws cs' else cs
  | [] => []
  end.

Definition digit_val (c : ascii) : option Z :=
  let n := Z.of_N (N_of_ascii c) in
  if (48 <=? n) && (n <=? 57) then Some (n - 48) else None.

Definition hex_val (c : ascii) : option Z :=
  let n := Z.of_N (N_of_ascii c) in
  if (48 <=? n) && (n <=? 57) then Some (n - 48)
  else if (65 <=? n) && (n <=? 70) then Some (n - 55)
  else if (97 <=? n) && (n <=? 102) then Some (n - 87)
  else None.

(** The longest run of decimal digits at the head: its value, its length
    and what follows. *)
Fixpoint take_digits (acc : Z) (len : Z) (cs : list ascii)
  : Z * Z * list ascii :=
  match cs with
  | c :: cs' =>
      match digit_val c with
      | Some d => take_digits (10 * acc + d) (len + 1) cs'
      | None => (acc, len, cs)
      end
  | [] => (acc, len, cs)
  end.

(** [float(text)] of a decimal numeral [(-1)^neg * digits * 10^exp10],
    correctly rounded; too large a value is an infinity. *)
Definition float_of_decimal (neg : bool) (digits : Z) (exp10 : Z)
  : PyFloat.float :=
  match digits with
  | Zpos d =>
      if 0 <=? exp10 then
        binary_normalize PyFloat.prec PyFloat.emax
          ((if neg then -1 else 1) * (digits * 10 ^ exp10)) 0 false
      else
        PyFloat.div (S754_finite neg d 0)
          (S754_finite false (Z.to_pos (10 ^ (- exp10))) 0)
  | _ => S754_zero neg
  end.

(** A number at the head of [cs], by the decoder's pattern: an optional
    minus sign; a zero or a run of digits that does not start with a zero;
    optionally a dot and one digit or more; optionally [e] or [E], an
    optional sign and one digit or more. *)
Definition parse_number (cs : list ascii) : option (Json.t * list ascii) :=
  let '(neg, cs1) := match cs with
                     | "-"%char :: r => (true, r)
                     | _ => (false, cs)
                     end in
  let int_part :=
    match cs1 with
    | "0"%char :: r => Some (0, r)
    | c :: _ => match digit_val c with
                | Some _ => let '(v, _, r) := take_digits 0 0 cs1 in Some (v, r)
                | None => None
                end
    | [] => None
    end in
  match int_part with
  | None => None
  | Some (iv, r1) =>
      let '(frac, r2) :=
        match r1 with
        | "."%char :: r =>
            let '(v, len, r') := take_digits 0 0 r in
            if len =? 0 then (None, r1) else (Some (v, len), r')
        | _ => (None, r1)
        end in
      let '(expo, r3) :=
        match r2 with
        | c :: r =>
            if (Ascii.eqb c "e" || Ascii.eqb c "E")%bool then
              let '(eneg, r') := match r with
                                 | "-"%char :: r' => (true, r')
                                 | "+"%char :: r' => (false, r')
                                 | _ => (false, r)
                                 end in
              let '(v, len, r'') := take_digits 0 0 r' in
              if len =? 0 then (None, r2)
              else (Some (if eneg : bool then - v else v), r'')
            else (None, r2)
        | [] => (None, r2)
        end in
      match frac, expo with
      | None, None => Some (JInt (if neg then - iv else iv), r3)
      | _, _ =>
          let '(fv, flen) := match frac with
                             | Some p => p
                             | None => (0, 0)
                             end in
          let e := match expo with
                   | Some e => e
                   | None => 0
                   end in
          Some (JFloat (float_of_decimal neg (iv * 10 ^ flen + fv) (e - flen)),
                r3)
      end
  end.

(** The UTF-8 encoding of a code point. *)
Definition utf8 (cp : Z) : list ascii :=
  let b (n : Z) := ascii_of_N (Z.to_N n) in
  if cp <? 128 then [b cp]
  else if cp <? 2048 then [b (192 + cp / 64); b (128 + cp mod 64)]
  else if cp <? 65536 then
    [b (224 + cp / 4096); b (128 + (cp / 64) mod 64); b (128 + cp mod 64)]
  else
    [b (240 + cp / 262144); b (128 + (cp / 4096) mod 64);
     b (128 + (cp / 64) mod 64); b (128 + cp mod 64)].

Definition hex4 (cs : list ascii) : option (Z * list ascii) :=
  match cs with
  | a :: b :: c :: d :: r =>
      match hex_val a, hex_val b, hex_val c, hex_val d with
      | Some x, Some y, Some z, Some w =>
          Some (((x * 16 + y) * 16 + z) * 16 + w, r)
      | _, _, _, _ => None
      end
  | _ => None
  end.

(** The body of a string literal, after its opening quote. *)
Fixpoint parse_string (fuel : nat) (acc : list ascii) (cs : list ascii)
  : option (string * list ascii) :=
  match fuel with
  | O => None
  | S fuel' =>
      match cs with
      | [] => None
      | c :: r =>
          if Ascii.eqb c quote then Some (string_of_list_ascii (rev acc), r)
          else if Ascii.eqb c backslash then
            match r with
            | [] => None
            | e :: r' =>
                let simple (x : Z) :=
                  parse_string fuel' (ascii_of_N (Z.to_N x) :: acc) r' in
                if Ascii.eqb e quote then simple 34
                else if Ascii.eqb e backslash then simple 92
                else if Ascii.eqb e "/" then simple 47
                else if Ascii.eqb e "b" then simple 8
                else if Ascii.eqb e "f" then simple 12
                else if Ascii.eqb e "n" then simple 10
                else if Ascii.eqb e "r" then simple 13
                else if Ascii.eqb e "t" then simple 9
                else if Ascii.eqb e "u" then
                  match hex4 r' with
                  | None => None
                  | Some (hi, r'') =>
                      let single :=
                        parse_string fuel' (rev (utf8 hi) ++ acc) r'' in
                      if (55296 <=? hi) && (hi <=? 56319) then
                        match r'' with
                        | b1 :: b2 :: r3 =>
                            if Ascii.eqb b1 backslash && Ascii.eqb b2 "u" then
                              match hex4 r3 with
                              | Some (lo, r4) =>
                                  if (56320 <=? lo) && (lo <=? 57343) then
                                    parse_string fuel'
                                      (rev (utf8 (65536 + (hi - 55296) * 1024
                                                  + (lo - 56320))) ++ acc) r4
                                  else single
                              | None => single
                              end
                            else single
                        | _ => single
                        end
                      else single
                  end
                else None
            end
          else if (N_of_ascii c <? 32)%N then None
          else parse_string fuel' (c :: acc) r
      end
  end.

Definition starts_with (p : string) (cs : list ascii) : option (list ascii) :=
  let n := String.length p in
  if String.eqb (string_of_list_ascii (firstn n cs)) p then Some (skipn n cs)
  else None.

Definition parse_literal (cs : list ascii) : option (Json.t * list ascii) :=
  match starts_with "null" cs with
  | Some r => Some (JNull, r)
  | None =>
  match starts_with "true" cs with
  | Some r => Some (JBool true, r)
  | None =>
  match starts_with "false" cs with
  | Some r => Some (JBool false, r)
  | None =>
  match parse_number cs with
  | Some res => Some res
  | None =>
  match starts_with "NaN" cs with
  | Some r => Some (JFloat S754_nan, r)
  | None =>
  match starts_with "Infinity" cs with
  | Some r => Some (JFloat (S754_infinity false), r)
  | None =>
  match starts_with "-Infinity" cs with
  | Some r => Some (JFloat (S754_infinity true), r)
  | None => None
  end end end end end end end.

(** One value at the head of [cs]. *)
Fixpoint parse_value (fuel : nat) (cs : list ascii) {struct fuel}
  : option (Json.t * list ascii) :=
  match fuel with
  | O => None
  | S fuel' =>
      match cs with
      | [] => None
      | c :: r =>
          if Ascii.eqb c quote then
            match parse_string (S (List.length r)) [] r with
            | Some (s, r') => Some (JStr s, r')
            | None => None
            end
          else if Ascii.eqb c "{" then
            match skip_ws r with
            | "}"%char :: r' => Some (JObj [], r')
            | r' => parse_members fuel' [] r'
            end
          else if Ascii.eqb c "[" then
            match skip_ws r with
            | "]"%char :: r' => Some (JArr [], r')
            | r' => parse_elements fuel' [] r'
            end
          else parse_literal cs
      end
  end
with parse_members (fuel : nat) (acc : Json.dict) (cs : list ascii)
  {struct fuel} : option (Json.t * list ascii) :=
  match fuel with
  | O => None
  | S fuel' =>
      match cs with
      | c :: r =>
          if Ascii.eqb c quote then
            match parse_string (S (List.length r)) [] r with
            | None => None
            | Some (k, r1) =>
                match skip_ws r1 with
                | ":"%char :: r2 =>
                    match parse_value fuel' (skip_ws r2) with
                    | None => None
                    | Some (v, r3) =>
                        match skip_ws r3 with
                        | "}"%char :: r4 => Some (JObj (Json.set acc k v), r4)
                        | ","%char :: r4 =>
                            parse_members fuel' (Json.set acc k v) (skip_ws r4)
                        | _ => None
                        end
                    end
                | _ => None
                end
            end
          else None
      | [] => None
      end
  end
with parse_elements (fuel : nat) (acc : list Json.t) (cs : list ascii)
  {struct fuel} : option (Json.t * list ascii) :=
  match fuel with
  | O => None
  | S fuel' =>
      match parse_value fuel' cs with
      | None => None
      | Some (v, r) =>
          match skip_ws r with
          | "]"%char :: r' => Some (JArr (rev (v :: acc)), r')
          | ","%char :: r' => parse_elements fuel' (v :: acc) (skip_ws r')
          | _ => None
          end
      end
  end.

(** [json.loads(text)]: one value, with only white space around it. *)
Definition loads (text : string) : result Json.t :=
  let cs := list_ascii_of_string text in
  match parse_value (S (List.length cs)) (skip_ws cs) with
  | Some (v, r) =>
      match skip_ws r with
      | [] => Ok v
      | _ => Raise (ValueError "Extra data")
      end
  | None => Raise (ValueError "Expecting value")
  end.

End JsonDecoder.

(** ** [str.strip()] on UTF-8 text *)

Module Strip.

Definition in_range (lo hi n : N) : bool := ((lo <=? n) && (n <=? hi))%N.

(** The length in bytes of the white-space character at the head of the
    text, 0 when it does not start with white space.  White space is what
    [str.isspace] accepts: U+0009..000D, U+001C..0020, U+0085, U+00A0,
    U+1680, U+2000..200A, U+2028, U+2029, U+202F, U+205F, U+3000. *)
Definition ws_head (cs : list ascii) : nat :=
  match map N_of_ascii (firstn 3 cs) with
  | a :: rest =>
      if in_range 9 13 a || in_range 28 32 a then 1%nat
      else
        match a, rest with
        | 194%N, b :: _ => if (b =? 133)%N || (b =? 160)%N then 2%nat else 0%nat
        | 225%N, [154%N; 128%N] => 3%nat
        | 226%N, [128%N; c] =>
            if in_range 128 138 c || in_range 168 169 c || (c =? 175)%N
            then 3%nat else 0%nat
        | 226%N, [129%N; 159%N] => 3%nat
        | 227%N, [128%N; 128%N] => 3%nat
        | _, _ => 0%nat
        end
  | [] => 0%nat
  end.

(** The same at the end of the text, read on the reversed text. *)
Definition ws_last (rcs : list ascii) : nat :=
  match map N_of_ascii (firstn 3 rcs) with
  | a :: rest =>
      if in_range 9 13 a || in_range 28 32 a then 1%nat
      else
        match rest with
        | 194%N :: _ => if (a =? 133)%N || (a =? 160)%N then 2%nat else 0%nat
        | [154%N; 225%N] => if (a =? 128)%N then 3%nat else 0%nat
        | [128%N; 226%N] =>
            if in_range 128 138 a || in_range 168 169 a || (a =? 175)%N
            then 3%nat else 0%nat
        | [129%N; 226%N] => if (a =? 159)%N then 3%nat else 0%nat
        | [128%N; 227%N] => if (a =? 128)%N then 3%nat else 0%nat
        | _ => 0%nat
        end
  | [] => 0%nat
  end.

Fixpoint drop_while (head : list ascii -> nat) (fuel : nat) (cs : list ascii)
  : list ascii :=
  match fuel with
  | O => cs
  | S fuel' =>
      match head cs with
      | O => cs
      | n => drop_while head fuel' (skipn n cs)
      end
  end.

Definition strip_list (cs : list ascii) : list ascii :=
  let l := drop_while ws_head (List.length cs) cs in
  rev (drop_while ws_last (List.length l) (rev l)).

Definition strip (s : string) : string :=
  string_of_list_ascii (strip_list (list_ascii_of_string s)).

End Strip.

(** ** Decision oracle: JSON extraction, validation *)

Module StateSummary.
Record mon : Type := mk_mon {
  species : string;
  types : list string;
  hp_pct : option Z;
  status : option string
}.
Record t : Type := mk {
  turn : Z;
  force_switch : bool;
  my_active : mon;
  opp_active : mon;
  weather : string;
  terrain : string
}.

Definition mon_encodable (m : mon) : bool :=
  PyStr.encodable (species m) && forallb PyStr.encodable (types m)
  && match status m with
     | Some x => PyStr.encodable x
     | None => true
     end.

(** Every text of the summary can be encoded. *)
Definition encodable (st : t) : bool :=
  mon_encodable (my_active st) && mon_encodable (opp_active st)
  && PyStr.encodable (weather st) && PyStr.encodable (terrain st).

End StateSummary.

Definition is_open (c : ascii) : bool := Ascii.eqb c "{".
Definition is_close (c : ascii) : bool := Ascii.eqb c "}".

(** The inner loop of [_extract_json]: from [depth], the characters up to
    and including the closing brace that brings the depth back to 0. *)
Fixpoint balanced_chunk (depth : Z) (cs : list ascii) : option (list ascii) :=
  match cs with
  | [] => None
  | ch :: r =>
      if is_open ch then option_map (cons ch) (balanced_chunk (depth + 1) r)
      else if is_close ch then
        if depth - 1 =? 0 then Some [ch]
        else option_map (cons ch) (balanced_chunk (depth - 1) r)
      else option_map (cons ch) (balanced_chunk depth r)
  end.

Section Oracle.

(** The two services of the Python library the pipeline calls:
    [json.loads], and the builtin [str] on a decoded value. *)
Variable json_loads : string -> result Json.t.
Variable str_of : Json.t -> string.

(** The outer loop of [_extract_json], over the opening positions. *)
Fixpoint scan_json (cs : list ascii) : result Json.dict :=
  match cs with
  | [] => Raise (ValueError "no_json_object_found")
  | c :: r =>
      if negb (is_open c) then scan_json r
      else
        match balanced_chunk 0 cs with
        | Some chunk =>
            match json_loads (string_of_list_ascii chunk) with
            | Ok (Json.JObj obj) => Ok obj
            | _ => scan_json r
            end
        | None => scan_json r
        end
  end.

Definition _extract_json (text : string) : result Json.dict :=
  let text := Strip.strip (PyStr.or_else text "") in
  match json_loads text with
  | Ok (Json.JObj obj) => Ok obj
  | _ => scan_json (list_ascii_of_string text)
  end.

(** [sum(1 for r in rows if r["kind"] == kind)] *)
Definition count_kind (kind : string) (rows : list Row) : Z :=
  Z.of_nat (List.length (filter (fun r => String.eqb (Row_kind r) kind) rows)).

(** The value of an index that passed [isinstance(idx, int)]. *)
Definition int_value (v : Json.t) : Z :=
  match v with
  | Json.JInt n => n
  | Json.JBool true => 1
  | _ => 0
  end.

Definition _validate_decision (dec : Json.t) (rows : list Row)
  (state : StateSummary.t) : bool * string :=
  match dec with
  | Json.JObj d =>
      let act := Json.get d "action" in
      let idx := Json.get d "index" in
      if negb (Json.eq_str act "move" || Json.eq_str act "switch"
               || Json.eq_str act "force_switch")
      then (false, ("bad_action:" ++ str_of act)%string)
      else if negb (Json.is_int idx) then (false, "index_not_int")
      else
        let i := int_value idx in
        let n_moves := count_kind "move" rows in
        let n_switches := count_kind "switch" rows in
        if StateSummary.force_switch state && Json.eq_str act "move"
        then (false, "must_switch")
        else if (Json.eq_str act "move" || Json.eq_str act "force_switch")
                && ((i <? 0) || (n_moves <=? i))
        then (false, "index_out_of_range_move")
        else if Json.eq_str act "switch" && ((i <? 0) || (n_switches <=? i))
        then (false, "index_out_of_range_switch")
        else (true, "")
  | _ => (false, "not_dict")
  end.

End Oracle.

(** ** Configuration, console, trace file *)

(** The module-level settings read from the environment. *)
Module Config.
Record t : Type := mk {
  LOG_MODE : string;                     (* none | compact | full *)
  TRACE_FILE : option string;
  LLM_FORCE_BAD_OUTPUT : option string;
  rich_installed : bool       (* whether the table block runs to its end *)
}.
End Config.

(** One JSON line of the trace file: the event and its payload. *)
Module Trace.
Record t : Type := mk {
  event : string;
  turn : Z;
  error : option string;
  raw : option string;
  parsed : option Json.dict;
  dec : option Json.dict;
  state : option StateSummary.t;
  rows : option (list Row)
}.

Definition opt {A} (f : A -> bool) (x : option A) : bool :=
  match x with
  | Some v => f v
  | None => true
  end.

(** The line [json.dumps(rec, ensure_ascii=False)] of the record can be
    written to the file, which is opened with [encoding="utf-8"]: no text
    of the record holds a surrogate. *)
Definition encodable (rec : t) : bool :=
  PyStr.encodable (event rec)
  && opt PyStr.encodable (error rec)
  && opt PyStr.encodable (raw rec)
  && opt (fun d => Json.encodable (Json.JObj d)) (parsed rec)
  && opt (fun d => Json.encodable (Json.JObj d)) (dec rec)
  && opt StateSummary.encodable (state rec)
  && opt (forallb Row_encodable) (rows rec).

End Trace.

(** What the player prints, by print statement. *)
Inductive console_line : Type :=
| PrintBlank
| PrintTurn (turn : Z)
| PrintState (state : StateSummary.t)
| PrintTable (move_rows : list RowMove.t) (switch_rows : list RowSwitch.t)
| PrintDecideMove (idx : Json.t) (name : string) (reason : Json.t)
| PrintDecideSwitch (idx : Json.t) (name : string) (reason : Json.t)
| PrintForcedRaw
| PrintPrompt (state : StateSummary.t) (rows : list Row)
| PrintRawOutput (raw : string).

(** Whether the console takes the line.  The console encodes UTF-8 and
    refuses a surrogate.  The state line shows the two summaries by [repr],
    which escapes what cannot be printed, and the weather and the terrain
    as they are; a [DECIDE] line shows the index, the name and the reason
    as they are.  The other lines are fixed ASCII text or an [int]; the
    prompt falls back on [repr] inside its own [try]; the table is printed
    inside a [try] that swallows every exception; the raw answer is the
    text the service sent, which is taken to be well-formed. *)
Definition printable (l : console_line) : bool :=
  match l with
  | PrintState st =>
      PyStr.encodable (StateSummary.weather st)
      && PyStr.encodable (StateSummary.terrain st)
  | PrintDecideMove idx name reason | PrintDecideSwitch idx name reason =>
      Json.shown_encodable idx && PyStr.encodable name
      && Json.shown_encodable reason
  | PrintBlank | PrintTurn _ | PrintTable _ _ | PrintForcedRaw
  | PrintPrompt _ _ | PrintRawOutput _ => true
  end.

(** The objects a turn can touch: the battle object handed in by the
    battle client, the console and the trace file. *)
Module World.
Record t : Type := mk {
  battle : Battle.t;
  console : list console_line;
  trace_file : list Trace.t;
  disk_ok : bool                 (* whether appending to the file succeeds *)
}.
End World.

(** A computation that may read and write the world and may raise. *)
Definition M (A : Type) : Type := World.t -> result A * World.t.

Definition ret {A} (v : A) : M A := fun w => (Ok v, w).
Definition raise {A} (e : exn) : M A := fun w => (Raise e, w).

Definition mbind {A B} (m : M A) (k : A -> M B) : M B :=
  fun w =>
    match m w with
    | (Ok v, w') => k v w'
    | (Raise e, w') => (Raise e, w')
    end.

(** [try: m except Exception as e: handler e] *)
Definition try_catch {A} (m : M A) (handler : exn -> M A) : M A :=
  fun w =>
    match m w with
    | (Ok v, w') => (Ok v, w')
    | (Raise e, w') => handler e w'
    end.

Definition lift {A} (r : result A) : M A := fun w => (r, w).

Notation "x <~ m ;; k" := (mbind m (fun x => k))
  (at level 61, m at next level, right associativity) : py_scope.
Notation "m ;;; k" := (mbind m (fun _ => k))
  (at level 61, right associativity) : py_scope.

(** The battle argument: the object the caller holds. *)
Definition read_battle : M Battle.t := fun w => (Ok (World.battle w), w).

(** [print(line)]: the line is encoded first, so a line the console
    refuses raises [UnicodeEncodeError] and prints nothing. *)
Definition print (l : console_line) : M unit :=
  fun w =>
    if printable l then
      (Ok tt, World.mk (World.battle w) (World.console w ++ [l])
                (World.trace_file w) (World.disk_ok w))
    else (Raise PyStr.encode_error, w).

Definition when (b : bool) (m : M unit) : M unit := if b then m else ret tt.

(** The reasoning service behind [self._client]: from the model name, the
    state and the candidate table to the content of the first choice (which
    may be [None]), or an exception.  The content is text as the service
    sent it, taken to be well-formed: what it spells with escapes is
    decoded later, by [json.loads]. *)
Definition client : Type :=
  string -> StateSummary.t -> list Row -> result (option string).

Module LLMPlayer.
Record t : Type := mk {
  model : string;
  debug : bool;
  _client : option client
}.
End LLMPlayer.

Section Player.

Variable cfg : Config.t.

Definition log_enabled : bool :=
  String.eqb (Config.LOG_MODE cfg) "compact" || String.eqb (Config.LOG_MODE cfg) "full".

Definition log_full : bool := String.eqb (Config.LOG_MODE cfg) "full".

Definition _print_compact (l : console_line) : M unit := when log_enabled (print l).

(** [_trace]: nothing without a trace file; a failing write is swallowed,
    be it that the file cannot be opened or that the line cannot be
    encoded. *)
Definition _trace (rec : Trace.t) : M unit :=
  match Config.TRACE_FILE cfg with
  | None | Some EmptyString => ret tt
  | Some _ =>
      fun w =>
        if World.disk_ok w && Trace.encodable rec then
          (Ok tt, World.mk (World.battle w) (World.console w)
                    (World.trace_file w ++ [rec]) (World.disk_ok w))
        else (Ok tt, w)
  end.

Variable json_loads : string -> result Json.t.
Variable str_of : Json.t -> string.

Definition nonempty {A} (l : list A) : bool :=
  match l with
  | [] => false
  | _ :: _ => true
  end.

Definition len {A} (l : list A) : Z := Z.of_nat (List.length l).

(** *** The oracle call and its validation *)

(** [os.getenv("LLM_FORCE_BAD_OUTPUT") == "1"] *)
Definition forced_bad_output : bool :=
  match Config.LLM_FORCE_BAD_OUTPUT cfg with
  | Some v => String.eqb v "1"
  | None => false
  end.

Definition _llm_decide (self : LLMPlayer.t) (state : StateSummary.t)
  (rows : list Row) : M Json.dict :=
  let turn := StateSummary.turn state in
  if forced_bad_output then
    when (LLMPlayer.debug self && log_full) (print PrintForcedRaw) ;;;
    _trace (Trace.mk "llm_forced_bad" turn None None None None None None) ;;;
    raise (ValueError "forced_bad_output")
  else
    match LLMPlayer._client self with
    | None => raise (RuntimeError "no_openai_client")
    | Some ask =>
        when (LLMPlayer.debug self && log_full) (print (PrintPrompt state rows)) ;;;
        content <~ lift (ask (LLMPlayer.model self) state rows) ;;
        let raw := str_or content "" in
        when (LLMPlayer.debug self && log_full) (print (PrintRawOutput raw)) ;;;
        dec <~ try_catch (lift (_extract_json json_loads raw))
                 (fun e =>
                    _trace (Trace.mk "llm_bad_json" turn (Some (exn_str e))
                              (Some raw) None None (Some state) None) ;;;
                    raise e) ;;
        let '(ok, err) := _validate_decision str_of (Json.JObj dec) rows state in
        if negb ok then
          _trace (Trace.mk "llm_bad_decision" turn (Some err) (Some raw)
                    (Some dec) None (Some state) (Some rows)) ;;;
          raise (ValueError err)
        else
          _trace (Trace.mk "llm_ok" turn None (Some raw) (Some dec) None
                    (Some state) (Some rows)) ;;;
          ret dec
    end.

(** *** The fallback of [choose_move], the body of its [except] clause *)

Definition decision (action : string) (index : Z) (reason : string) : Json.dict :=
  [("action", Json.JStr action); ("index", Json.JInt index);
   ("reason", Json.JStr reason)].

(** [max(range(len(move_rows)), key=lambda i: _score_move_row(move_rows[i]))] *)
Definition best_move_index (move_rows : list RowMove.t) : result Z :=
  PyList.max_key
    (fun i => r <- PyList.index move_rows i ;; _score_move_row r)
    (PyList.range (len move_rows)).

Definition fallback_decision (state : StateSummary.t)
  (move_rows : list RowMove.t) (switch_rows : list RowSwitch.t) (e : exn)
  : result Json.dict :=
  if StateSummary.force_switch state && nonempty switch_rows then
    Ok (decision "switch" 0
          ("fallback:force_switch (" ++ exn_str e ++ ")")%string)
  else if nonempty move_rows then
    best_i <- best_move_index move_rows ;;
    Ok (decision "move" best_i
          ("fallback:expected-damage (" ++ exn_str e ++ ")")%string)
  else
    Ok (decision "move" 0 ("fallback:default (" ++ exn_str e ++ ")")%string).

(** *** Building the order from the decision *)

Definition clamp_index {A} (i : Z) (l : list A) : Z :=
  PyInt.max2 0 (PyInt.min2 i (len l - 1)).

Definition emit_order (dec : Json.dict) (moves : list Move.t)
  (switches : list Pokemon.t) (move_rows : list RowMove.t)
  (switch_rows : list RowSwitch.t) : result order :=
  act <- Json.item dec "action" ;;
  if (Json.eq_str act "move" || Json.eq_str act "force_switch")
     && nonempty move_rows
  then
    idx <- Json.item dec "index" ;;
    i0 <- Json.as_int idx ;;
    m <- PyList.index moves (clamp_index i0 moves) ;;
    Ok (OrderMove m)
  else
    act <- Json.item dec "action" ;;
    if Json.eq_str act "switch" && nonempty switch_rows then
      idx <- Json.item dec "index" ;;
      i0 <- Json.as_int idx ;;
      p <- PyList.index switches (clamp_index i0 switches) ;;
      Ok (OrderSwitch p)
    else if nonempty moves then
      m <- PyList.index moves 0 ;;
      Ok (OrderMove m)
    else Ok RandomOrder.

(** *** The turn *)

Definition dump_mon (p : option Pokemon.t) : StateSummary.mon :=
  match p with
  | None => StateSummary.mk_mon "unknown" [] None None
  | Some p =>
      StateSummary.mk_mon
        (PyStr.lower
           (str_or (getattr (Pokemon.species p)
                      (getattr (Pokemon.name p) (Some "unknown")))
                   "unknown"))
        (_safe_types (Pokemon.types p))
        (Some (_hp_pct p))
        (_status p)
  end.

Definition encode_state (battle : Battle.t) : StateSummary.t :=
  StateSummary.mk
    (int_or (Battle.turn battle) 0)
    (Battle.force_switch battle)
    (dump_mon (Battle.active_pokemon battle))
    (dump_mon (Battle.opponent_active_pokemon battle))
    (str_or (Battle.weather battle) "none")
    (str_or (Battle.terrain battle) "none").

Definition encode_moves (battle : Battle.t) : list RowMove.t :=
  map (fun '(i, m) => _move_row i m (Battle.active_pokemon battle))
      (PyList.enumerate (Battle.available_moves battle)).

Definition encode_switches (battle : Battle.t) : list RowSwitch.t :=
  map (fun '(i, p) => _switch_row i p)
      (PyList.enumerate (Battle.available_switches battle)).

(** The [DECIDE] line of the console. *)
Definition decide_line (dec : Json.dict) (move_rows : list RowMove.t)
  (switch_rows : list RowSwitch.t) : result console_line :=
  act <- Json.item dec "action" ;;
  idx <- Json.item dec "index" ;;
  i <- Json.as_int idx ;;
  let reason := Json.get_default dec "reason" (Json.JStr "") in
  if Json.eq_str act "move" then
    name <- (if (0 <=? i) && (i <? len move_rows)
             then r <- PyList.index move_rows i ;; Ok (RowMove.name r)
             else Ok "?") ;;
    Ok (PrintDecideMove idx name reason)
  else
    name <- (if (0 <=? i) && (i <? len switch_rows)
             then r <- PyList.index switch_rows i ;; Ok (RowSwitch.species r)
             else Ok "?") ;;
    Ok (PrintDecideSwitch idx name reason).

(** The candidate table handed to the oracle: the move rows, then the
    switch rows. *)
Definition rows_for_llm (move_rows : list RowMove.t)
  (switch_rows : list RowSwitch.t) : list Row :=
  map MoveRow move_rows ++ map SwitchRow switch_rows.

(** The [try] / [except] of [choose_move]: the oracle's decision, or the
    fallback when the oracle stage raises. *)
Definition decide (self : LLMPlayer.t) (state : StateSummary.t)
  (move_rows : list RowMove.t) (switch_rows : list RowSwitch.t)
  : M Json.dict :=
  try_catch (_llm_decide self state (rows_for_llm move_rows switch_rows))
    (fun e =>
       dec <~ lift (fallback_decision state move_rows switch_rows e) ;;
       _trace (Trace.mk "fallback_exception" (StateSummary.turn state)
                 (Some (exn_str e)) None None (Some dec) (Some state) None) ;;;
       ret dec).

Definition choose_move (self : LLMPlayer.t) : M order :=
  battle <~ read_battle ;;
  let moves := Battle.available_moves battle in
  let switches := Battle.available_switches battle in
  let move_rows := encode_moves battle in
  let switch_rows := encode_switches battle in
  let state := encode_state battle in
  when log_enabled
    (when ((StateSummary.turn state <=? 1) || StateSummary.force_switch state)
       (print PrintBlank) ;;;
     _print_compact (PrintTurn (StateSummary.turn state)) ;;;
     _print_compact (PrintState state)) ;;;
  when (log_enabled && Config.rich_installed cfg)
    (print (PrintTable move_rows switch_rows)) ;;;
  dec <~ decide self state move_rows switch_rows ;;
  (if log_enabled then
     l <~ lift (decide_line dec move_rows switch_rows) ;;
     _print_compact l
   else ret tt) ;;;
  lift (emit_order dec moves switches move_rows switch_rows).

End Player.

(** ** The constructor of the player *)

(** The module-level settings of the oracle: [OPENAI_MODEL], [OPENAI_KEY],
    and the [OpenAI] class, [None] when the package cannot be imported.
    The class builds a client from the key, or raises. *)
Module Env.
Record t : Type := mk {
  OPENAI_MODEL : string;
  OPENAI_KEY : string;
  OpenAI : option (string -> result client)
}.
End Env.

(** [LLMPlayer.__init__]: the fields the class sets. *)
Definition __init__ (env : Env.t) (model : option string) (debug : bool)
  : LLMPlayer.t :=
  LLMPlayer.mk
    (str_or model (Env.OPENAI_MODEL env))
    debug
    (match Env.OPENAI_KEY env, Env.OpenAI env with
     | String _ _, Some new_client =>
         try_except (c <- new_client (Env.OPENAI_KEY env) ;; Ok (Some c)) None
     | _, _ => None
     end).

(** ** The spectator link of [src/agent/test_llm_vs_random.py] *)

Module Spectate.

(** What [getattr(me, name, None)] finds under one of the names the script
    tries: nothing, a value that is not a dict, or a dict, given by its keys
    (the room ids) in insertion order. *)
Inductive attr_value : Type :=
| Absent
| NotADict
| Dict (rooms : list string).

(** The player object, as far as the script looks at it. *)
Record player : Type := mk {
  current_battles : attr_value;
  _battles : attr_value;
  battles : attr_value
}.

(** [isinstance(d, dict) and d] *)
Definition filled (a : attr_value) : option (list string) :=
  match a with
  | Dict (r :: rs) => Some (r :: rs)
  | _ => None
  end.

Definition _battle_dict (me : player) : option (list string) :=
  match filled (current_battles me) with
  | Some d => Some d
  | None =>
      match filled (_battles me) with
      | Some d => Some d
      | None => filled (battles me)
      end
  end.

Definition base_url (host : string) (port : Z) : string :=
  if String.eqb host "localhost" || String.eqb host "127.0.0.1"
  then ("http://" ++ host ++ ":" ++ PyStr.of_int port)%string
  else "https://play.pokemonshowdown.com".

(** What the coroutine does, step by step: the [WATCH] line it prints, the
    page it opens, a sleep of a tenth of a second. *)
Inductive effect : Type :=
| PrintWatch (url : string)
| OpenBrowser (url : string)
| Sleep.

(** The loop of [_announce_room].  The coroutine yields at each sleep, so
    the player object is read anew at each round: [view k] is the player
    at round [k]. *)
Fixpoint poll (rounds : nat) (k : nat) (view : nat -> player)
  (base : string) (open_browser : bool) : list effect :=
  match rounds with
  | O => []
  | S rounds' =>
      match _battle_dict (view k) with
      | Some (roomid :: _) =>
          let url := (base ++ "/" ++ roomid)%string in
          PrintWatch url :: (if open_browser then [OpenBrowser url] else [])
      | _ => Sleep :: poll rounds' (S k) view base open_browser
      end
  end.

Definition _announce_room (view : nat -> player) (host : string) (port : Z)
  (open_browser : bool) : list effect :=
  poll 200 0 view (base_url host port) open_browser.

End Spectate.


(** * Specifications and notions of the proofs *)

(** A non-NaN float as a point of a lexicographic order: class and sign,
    then exponent, then mantissa. *)
Definition fkey (x : spec_float) : Z * Z * Z :=
  match x with
  | S754_nan => (0, 0, 0)
  | S754_zero _ => (0, 0, 0)
  | S754_infinity s => (if s then -2 else 2, 0, 0)
  | S754_finite s m e => if s then (-1, - e, - Zpos m) else (1, e, Zpos m)
  end.

(** Comparison of two such points, component by component. *)
Definition lex3 (a b : Z * Z * Z) : comparison :=
  let '(a1, a2, a3) := a in
  let '(b1, b2, b3) := b in
  match a1 ?= b1 with
  | Eq => match a2 ?= b2 with
          | Eq => a3 ?= b3
          | c => c
          end
  | c => c
  end.

(** The rounded value keeps the sign it was given and is a zero, a finite
    number or, on overflow, an infinity. *)
Definition signed_value (s : bool) (r : spec_float) : Prop :=
  r = S754_zero s \/ r = S754_infinity s \/ exists m e, r = S754_finite s m e.

(** Following the specification's words: [clamp(x, 0, 1)]. *)
Definition clamp01 (x : PyFloat.float) : PyFloat.float :=
  if PyFloat.ltb x PyFloat.zero then PyFloat.zero
  else if PyFloat.ltb PyFloat.one x then PyFloat.one
  else x.

(** Following the specification's words: base power times the clamped
    accuracy times 1.5 for a same-type move, 1.0 otherwise. *)
Definition spec_score (r : RowMove.t) : result PyFloat.float :=
  Py.bind (PyFloat.of_int (RowMove.base_power r)) (fun bp =>
  Ok (PyFloat.mul (PyFloat.mul bp (clamp01 (RowMove.accuracy r)))
        (if RowMove.is_stab r then PyFloat.one_and_half else PyFloat.one))).

(** Two scores agree: both are raised, or both are floats that compare
    equal (the two zeros compare equal). *)
Definition same_score (a b : result PyFloat.float) : Prop :=
  match a, b with
  | Ok x, Ok y => PyFloat.eqb x y = true
  | Raise _, Raise _ => True
  | _, _ => False
  end.

(** The clamp as the source writes it:
    [max(0.0, min(1.0, accuracy or 0.0))]. *)
Definition code_clamp (acc : PyFloat.float) : PyFloat.float :=
  PyFloat.max2 PyFloat.zero
    (PyFloat.min2 PyFloat.one (PyFloat.or_else acc PyFloat.zero)).

(** Every key is computed and is a number. *)
Definition keys_defined {A} (key : A -> result PyFloat.float) (l : list A)
  : Prop :=
  forall x, In x l -> exists v, key x = Ok v /\ PyFloat.is_nan v = false.

(** [b], with key [v], sits in [l] after [pre] and before [post]; every item
    before it has a strictly smaller key and no item after it has a greater
    one. *)
Definition first_max {A} (key : A -> result PyFloat.float) (l : list A)
  (b : A) (v : PyFloat.float) : Prop :=
  exists pre post,
    l = pre ++ b :: post /\ key b = Ok v /\
    (forall x vx, In x pre -> key x = Ok vx -> PyFloat.ltb vx v = true) /\
    (forall x vx, In x post -> key x = Ok vx -> PyFloat.ltb v vx = false).

(** The integer converts to a float: [float(n)] does not raise. *)
Definition representable (n : Z) : Prop := exists f, PyFloat.of_int n = Ok f.

(** The score of the row at index [j]. *)
Definition score_at (rows : list RowMove.t) (j : Z) : result PyFloat.float :=
  Py.bind (PyList.index rows j) _score_move_row.

(** [i] is the first index of [rows] with the greatest score. *)
Definition first_best (rows : list RowMove.t) (i : Z) : Prop :=
  0 <= i < len rows /\
  exists si, score_at rows i = Ok si /\
    forall j sj, 0 <= j < len rows -> score_at rows j = Ok sj ->
      PyFloat.ltb si sj = false /\ (j < i -> PyFloat.ltb sj si = true).

(** The action is one of the three the validator accepts. *)
Definition known_action (act : Json.t) : Prop :=
  act = Json.JStr "move" \/ act = Json.JStr "switch"
  \/ act = Json.JStr "force_switch".

(** The nesting depth reached after reading [l] from depth 0. *)
Fixpoint depth_after (l : list ascii) : Z :=
  match l with
  | [] => 0
  | c :: r =>
      (if is_open c then 1 else if is_close c then -1 else 0) + depth_after r
  end.

(** A chunk that opens with a brace and ends at the brace closing it: the
    depth is back to 0 at its end and at least 1 at every earlier cut. *)
Definition brace_balanced (chunk : list ascii) : Prop :=
  (exists r, chunk = "{"%char :: r) /\
  depth_after chunk = 0 /\
  forall p q, chunk = p ++ q -> p <> [] -> q <> [] -> 1 <= depth_after p.

(** [chunk] is the brace-balanced chunk of [t] that starts after [pre]. *)
Definition candidate_at (t pre chunk : list ascii) : Prop :=
  exists post, t = pre ++ chunk ++ post /\ brace_balanced chunk.

(** Following the specification's words: the first brace-balanced chunk
    of the text, scanning left to right. *)
Fixpoint first_balanced (cs : list ascii) : option (list ascii) :=
  match cs with
  | [] => None
  | c :: r =>
      if is_open c then
        match balanced_chunk 0 cs with
        | Some chunk => Some chunk
        | None => first_balanced r
        end
      else first_balanced r
  end.

(** [chunk] decodes to the JSON object [o]. *)
Definition decodes_to (json_loads : string -> result Json.t)
  (chunk : list ascii) (o : Json.dict) : Prop :=
  json_loads (string_of_list_ascii chunk) = Ok (Json.JObj o).

(** No brace-balanced chunk of [t] that starts before position [n]
    decodes to an object. *)
Definition none_before (json_loads : string -> result Json.t)
  (t : list ascii) (n : nat) : Prop :=
  forall pre chunk, candidate_at t pre chunk -> (List.length pre < n)%nat ->
    forall o, ~ decodes_to json_loads chunk o.

(** [o] is the decoding of the first brace-balanced chunk of [t], by
    opening position, that decodes to an object. *)
Definition first_decodable (json_loads : string -> result Json.t)
  (t : list ascii) (o : Json.dict) : Prop :=
  exists pre chunk,
    candidate_at t pre chunk /\ decodes_to json_loads chunk o /\
    none_before json_loads t (List.length pre).

(** No brace-balanced chunk of [t] decodes to an object. *)
Definition none_decodable (json_loads : string -> result Json.t)
  (t : list ascii) : Prop :=
  forall pre chunk, candidate_at t pre chunk -> forall o, ~ decodes_to json_loads chunk o.

(** *** Computations that leave the battle object alone *)

Definition preserves_battle {A} (m : M A) : Prop :=
  forall w, World.battle (snd (m w)) = World.battle w.

(** *** What a computation returns, whatever the world *)

Definition post {A} (m : M A) (Q : result A -> Prop) : Prop :=
  forall w, Q (fst (m w)).

(** What the oracle stage returns, its logging aside. *)
Definition oracle_result (cfg : Config.t)
  (json_loads : string -> result Json.t) (str_of : Json.t -> string)
  (self : LLMPlayer.t) (state : StateSummary.t) (rows : list Row)
  : result Json.dict :=
  if forced_bad_output cfg then Raise (ValueError "forced_bad_output")
  else
    match LLMPlayer._client self with
    | None => Raise (RuntimeError "no_openai_client")
    | Some ask =>
        content <- ask (LLMPlayer.model self) state rows ;;
        dec <- _extract_json json_loads (str_or content "") ;;
        let '(ok, err) := _validate_decision str_of (Json.JObj dec) rows state in
        if ok then Ok dec else Raise (ValueError err)
    end.

(** A decision the emission can read: a known action and an [int] index. *)
Definition wf_decision (dec : Json.dict) : Prop :=
  exists act idx i,
    Json.item dec "action" = Ok act /\ known_action act /\
    Json.item dec "index" = Ok idx /\ Json.as_int idx = Ok i.

(** The encoded accuracy lies between 0 and 1. *)
Definition in_unit (a : PyFloat.float) : Prop :=
  PyFloat.leb PyFloat.zero a = true /\ PyFloat.leb a PyFloat.one = true.

(** The same, as a test. *)
Definition in_unitb (a : PyFloat.float) : bool :=
  PyFloat.leb PyFloat.zero a && PyFloat.leb a PyFloat.one.

(** A move of the game data, with a given raw accuracy. *)
Definition move_with_accuracy (acc : pyval) : Move.t :=
  Move.mk "thunder" Missing (Some "ELECTRIC") (Some 110) acc None
    (Some "SPECIAL") (Has 10) Missing.

(** Following the specification's words: take the whole text if it is a
    JSON object; otherwise extract the first brace-balanced chunk and
    decode it, failing when there is none or when it does not decode to an
    object. *)
Definition spec_extract_json (json_loads : string -> result Json.t)
  (text : string) : result Json.dict :=
  let text := Strip.strip text in
  match json_loads text with
  | Ok (Json.JObj o) => Ok o
  | _ =>
      match first_balanced (list_ascii_of_string text) with
      | None => Raise (ValueError "no_json_object_found")
      | Some chunk =>
          match json_loads (string_of_list_ascii chunk) with
          | Ok (Json.JObj o) => Ok o
          | _ => Raise (ValueError "no_json_object_found")
          end
      end
  end.

(** The second half of [binary_round_aux]: the rounded mantissa is
    realigned, in case rounding carried into one more digit. *)
Definition round_tail (m1 e1 : Z) : spec_float :=
  let '(mrs, e) := shr_fexp PyFloat.prec PyFloat.emax m1 e1 loc_Exact in
  match shr_m mrs with
  | Z0 => S754_zero false
  | Zpos m =>
      if e <=? PyFloat.emax - PyFloat.prec then S754_finite false m e
      else S754_infinity false
  | Zneg _ => S754_nan
  end.

(** A finite positive float that is at most one, by its exponent and
    mantissa. *)
Definition at_most_one (r : spec_float) : Prop :=
  exists m e, r = S754_finite false m e /\
              (e < -52 \/ (e = -52 /\ Zpos m = 2 ^ 52)).

(** *** Notions of the further properties *)

(** The row [r] with another accuracy. *)
Definition with_accuracy (r : RowMove.t) (a : PyFloat.float) : RowMove.t :=
  RowMove.mk (RowMove.kind r) (RowMove.index r) (RowMove.id r)
    (RowMove.name r) (RowMove.type r) (RowMove.base_power r) a
    (RowMove.priority r) (RowMove.category r) (RowMove.pp r)
    (RowMove.is_stab r).

(** The integer nearest to [q + r / d], for a remainder [0 <= r < d]: a tie
    goes to the even one. *)
Definition round_qr (q r d : Z) : Z :=
  match 2 * r ?= d with
  | Lt => q
  | Gt => q + 1
  | Eq => if Z.even q then q else q + 1
  end.

(** The integer nearest to the fraction [n / d], ties to even. *)
Definition nearest_even (n d : Z) : Z := round_qr (n / d) (n mod d) d.

(** [bool(TRACE_FILE)]: a path is configured. *)
Definition trace_enabled (cfg : Config.t) : bool :=
  match Config.TRACE_FILE cfg with
  | None | Some EmptyString => false
  | Some _ => true
  end.

(** What a turn may do to the world [w], giving [w']: print more lines and
    append more records.  The battle and the disk are left alone; nothing is
    printed unless logging is on; nothing is appended unless a trace file is
    configured and can be written. *)
Definition logs_only (cfg : Config.t) (w w' : World.t) : Prop :=
  World.battle w' = World.battle w /\
  World.disk_ok w' = World.disk_ok w /\
  (exists cl, World.console w' = World.console w ++ cl /\
              (log_enabled cfg = false -> cl = [])) /\
  (exists tl, World.trace_file w' = World.trace_file w ++ tl /\
              (trace_enabled cfg = false \/ World.disk_ok w = false -> tl = [])).

(** A computation whose every run is related by [R] to the world it
    started from. *)
Definition keeps {A} (R : World.t -> World.t -> Prop) (m : M A) : Prop :=
  forall w, R w (snd (m w)).

(** The decision of a turn, its logging aside: the oracle's when the oracle
    stage returns one, the fallback's otherwise. *)
Definition turn_decision (cfg : Config.t)
  (json_loads : string -> result Json.t) (str_of : Json.t -> string)
  (self : LLMPlayer.t) (b : Battle.t) : result Json.dict :=
  let state := encode_state b in
  let move_rows := encode_moves b in
  let switch_rows := encode_switches b in
  match oracle_result cfg json_loads str_of self state
          (rows_for_llm move_rows switch_rows) with
  | Ok dec => Ok dec
  | Raise e => fallback_decision state move_rows switch_rows e
  end.

(** What printing the line returns. *)
Definition show (l : console_line) : result unit :=
  if printable l then Ok tt else Raise PyStr.encode_error.

(** What the turn returns, the content of the console and of the trace
    file aside: the state line is printed, the decision is taken, the
    [DECIDE] line is printed, the order is built. *)
Definition turn_order (cfg : Config.t)
  (json_loads : string -> result Json.t) (str_of : Json.t -> string)
  (self : LLMPlayer.t) (b : Battle.t) : result order :=
  Py.bind (if log_enabled cfg then show (PrintState (encode_state b))
           else Ok tt) (fun _ =>
  dec <- turn_decision cfg json_loads str_of self b ;;
  Py.bind (if log_enabled cfg
           then l <- decide_line dec (encode_moves b) (encode_switches b) ;;
                show l
           else Ok tt) (fun _ =>
  emit_order dec (Battle.available_moves b) (Battle.available_switches b)
    (encode_moves b) (encode_switches b))).

(** The console takes the lines of a turn on [b] that reaches the decision
    [dec]: logging is off, or the state line and the [DECIDE] line of the
    decision can be encoded. *)
Definition console_takes (cfg : Config.t) (b : Battle.t) (dec : Json.dict)
  : bool :=
  negb (log_enabled cfg)
  || (printable (PrintState (encode_state b))
      && match decide_line dec (encode_moves b) (encode_switches b) with
         | Ok l => printable l
         | Raise _ => true
         end).

(** The console takes the lines of the turn on [b], with the decision the
    turn reaches. *)
Definition turn_shown (cfg : Config.t)
  (json_loads : string -> result Json.t) (str_of : Json.t -> string)
  (self : LLMPlayer.t) (b : Battle.t) : Prop :=
  forall dec, turn_decision cfg json_loads str_of self b = Ok dec ->
              console_takes cfg b dec = true.

(** What [_trace] appends for the record, when it appends: the record, or
    nothing when its line cannot be encoded. *)
Definition written (rec : Trace.t) : list Trace.t :=
  if Trace.encodable rec then [rec] else [].

(** An order the battle client can execute on battle [b]: a legal move, a
    legal switch, or, with no legal move, its own random choice. *)
Definition legal_order (b : Battle.t) (o : order) : Prop :=
  match o with
  | OrderMove m => In m (Battle.available_moves b)
  | OrderSwitch p => In p (Battle.available_switches b)
  | RandomOrder => Battle.available_moves b = []
  end.

(** A record of one of the oracle stage's own failures, for turn [turn]. *)
Definition oracle_failure_record (turn : Z) (r : Trace.t) : Prop :=
  Trace.turn r = turn /\
  In (Trace.event r) ["llm_forced_bad"; "llm_bad_json"; "llm_bad_decision"].

(** The [WATCH] line among the steps of the spectator coroutine. *)
Definition is_watch (e : Spectate.effect) : bool :=
  match e with
  | Spectate.PrintWatch _ => true
  | _ => false
  end.

(** * Example data *)

Module Example.

Definition pikachu : Pokemon.t :=
  Pokemon.mk (Has "Pikachu") Missing (Some [Some "ELECTRIC"; None])
    (Some 10) (Some 20) None.

Definition eevee : Pokemon.t :=
  Pokemon.mk (Has "Eevee") Missing (Some [Some "NORMAL"; None])
    (Some 3) (Some 4) (Some "PAR").

Definition mew : Pokemon.t :=
  Pokemon.mk (Has "Mew") Missing (Some [Some "PSYCHIC"; None])
    (Some 1) (Some 1) None.

Definition tackle : Move.t :=
  Move.mk "tackle" Missing (Some "NORMAL") (Some 40) (PInt 100) None
    (Some "PHYSICAL") (Has 35) Missing.

Definition thunder : Move.t :=
  Move.mk "thunder" Missing (Some "ELECTRIC") (Some 110) (PInt 70) None
    (Some "SPECIAL") (Has 10) Missing.

Definition thunderbolt : Move.t :=
  Move.mk "thunderbolt" Missing (Some "ELECTRIC") (Some 90)
    (PFloat PyFloat.one) None (Some "SPECIAL") (Has 15) Missing.

(** A turn with three legal moves and two legal switches. *)
Definition battle : Battle.t :=
  Battle.mk (Some pikachu) None [tackle; thunder; thunderbolt] [eevee; mew]
    None None (Some 3) false.

(** A turn on which the active Pokemon fainted: a switch is forced. *)
Definition forced_battle : Battle.t :=
  Battle.mk (Some pikachu) None [] [eevee; mew] None None (Some 4) true.

Definition cfg : Config.t := Config.mk "compact" (Some "trace.jsonl") None false.

(** A player without credentials: the oracle is unavailable. *)
Definition offline : LLMPlayer.t := LLMPlayer.mk "gpt-4o-mini" false None.

(** A player whose oracle always answers [content]. *)
Definition scripted (content : string) : LLMPlayer.t :=
  LLMPlayer.mk "gpt-4o-mini" false (Some (fun _ _ _ => Ok (Some content))).

(** The builtin [str] on the decoded values the examples format. *)
Definition str_of (v : Json.t) : string :=
  match v with
  | Json.JNull => "None"
  | Json.JBool true => "True"
  | Json.JBool false => "False"
  | Json.JInt n => PyStr.of_int n
  | Json.JStr s => s
  | Json.JFloat _ => "<float>"
  | Json.JArr _ => "<list>"
  | Json.JObj _ => "<dict>"
  end.

Definition world : World.t := World.mk battle [] [] true.

(** An answer in two chunks, the first of which is not JSON. *)
Definition two_chunks : string := JsonDecoder.dq "{x} {'a':1}".

(** The answer of the specification's example. *)
Definition sure : string :=
  JsonDecoder.dq "Sure! {'action':'move','index':1,'reason':'ok'}".

Definition rows : list Row :=
  rows_for_llm (encode_moves battle) (encode_switches battle).

End Example.

(** More turns: one with status moves only, one whose health divides to a
    tie, an answer the console cannot encode, a base power no float can
    hold, a player whose battles show at the fourth look. *)
Module Sample.

Definition growl : Move.t :=
  Move.mk "growl" Missing (Some "NORMAL") (Some 0) (PInt 100) None
    (Some "STATUS") (Has 40) Missing.

Definition tailwhip : Move.t :=
  Move.mk "tailwhip" Missing (Some "NORMAL") None (PBool true) None
    None (Has 30) Missing.

(** A move whose accuracy the client reports as text. *)
Definition swift : Move.t :=
  Move.mk "swift" Missing (Some "NORMAL") (Some 60) (PStr "always") None
    (Some "SPECIAL") (Has 20) Missing.

Definition status_battle : Battle.t :=
  Battle.mk (Some Example.eevee) None [growl; tailwhip] [] None None
    (Some 7) false.

(** One hit point out of eight: 12.5 percent. *)
Definition scratched : Pokemon.t :=
  Pokemon.mk (Has "Snorlax") Missing (Some [Some "NORMAL"]) (Some 1) (Some 8)
    None.

Definition unknown_hp : Pokemon.t :=
  Pokemon.mk (Has "Ditto") Missing None None (Some 48) None.

Definition fainted : Pokemon.t :=
  Pokemon.mk (Has "Ditto") Missing None (Some 0) (Some 48) None.

(** A configuration that logs nothing. *)
Definition quiet : Config.t := Config.mk "none" None None true.

(** A world whose trace file cannot be written. *)
Definition readonly_world : World.t :=
  World.mk Example.battle [PrintBlank] [] false.

(** The decision the fallback takes on [Example.battle]. *)
Definition fallback_dec : Json.dict :=
  decision "move" 2 "fallback:expected-damage (no_openai_client)".

(** An answer whose reason is half of a surrogate pair. *)
Definition lone_surrogate : string :=
  JsonDecoder.dq "{'action':'move','index':1,'reason':'\ud83d'}".

(** The decision it decodes to: the surrogate, in three bytes. *)
Definition surrogate_dec : Json.dict :=
  [("action", Json.JStr "move"); ("index", Json.JInt 1);
   ("reason",
    Json.JStr (String (ascii_of_N 237)
                 (String (ascii_of_N 160) (String (ascii_of_N 189) ""))))].

(** A move whose base power no float can hold. *)
Definition huge : Move.t :=
  Move.mk "huge" Missing (Some "NORMAL") (Some (2 ^ 1024)) (PInt 100) None
    (Some "PHYSICAL") (Has 5) Missing.

Definition huge_battle : Battle.t :=
  Battle.mk (Some Example.pikachu) None [huge] [] None None (Some 5) false.

Definition no_key : Env.t := Env.mk "gpt-4o-mini" "" None.

Definition no_battles : Spectate.player :=
  Spectate.mk Spectate.Absent (Spectate.Dict []) Spectate.NotADict.

Definition in_battle : Spectate.player :=
  Spectate.mk Spectate.Absent (Spectate.Dict ["battle-gen9randombattle-1"])
    Spectate.NotADict.

Definition view (k : nat) : Spectate.player :=
  match k with
  | 0%nat | 1%nat | 2%nat => no_battles
  | _ => in_battle
  end.

End Sample.


(** * Properties *)

(** ** Binary64 floats

    Comparison is a strict order on the floats that are not NaN; rounding
    yields a zero, a finite number or an infinity, never a NaN. *)

Lemma SFcompare_key (x y : spec_float) :
  PyFloat.is_nan x = false -> PyFloat.is_nan y = false ->
  SFcompare x y = Some (lex3 (fkey x) (fkey y)).
Proof.
  destruct x as [sx|sx| |sx mx ex], y as [sy|sy| |sy my ey];
    simpl; try discriminate; intros _ _;
    try (destruct sx; reflexivity); try (destruct sy; reflexivity);
    try (destruct sx, sy; reflexivity).
  destruct sx, sy; simpl; try reflexivity.
  rewrite Z.compare_opp, (Z.compare_antisym ex ey).
  destruct (ex ?= ey); reflexivity.
Qed.

Lemma lex3_lt (a b : Z * Z * Z) :
  lex3 a b = Lt <->
  let '(a1, a2, a3) := a in
  let '(b1, b2, b3) := b in
  a1 < b1 \/ (a1 = b1 /\ (a2 < b2 \/ (a2 = b2 /\ a3 < b3))).
Proof.
  destruct a as [[a1 a2] a3], b as [[b1 b2] b3]. unfold lex3.
  destruct (Z.compare_spec a1 b1); destruct (Z.compare_spec a2 b2);
    destruct (Z.compare_spec a3 b3); split; intros; try discriminate;
    try reflexivity; lia.
Qed.

Lemma ltb_key (x y : spec_float) :
  PyFloat.is_nan x = false -> PyFloat.is_nan y = false ->
  (PyFloat.ltb x y = true <-> lex3 (fkey x) (fkey y) = Lt).
Proof.
  intros Hx Hy. unfold PyFloat.ltb, SFltb. rewrite (SFcompare_key x y Hx Hy).
  destruct (lex3 (fkey x) (fkey y)); split; congruence.
Qed.

Lemma ltb_trans (x y z : spec_float) :
  PyFloat.is_nan x = false -> PyFloat.is_nan y = false ->
  PyFloat.is_nan z = false ->
  PyFloat.ltb x y = true -> PyFloat.ltb y z = true -> PyFloat.ltb x z = true.
Proof.
  intros Hx Hy Hz. rewrite !ltb_key by assumption. rewrite !lex3_lt.
  destruct (fkey x) as [[a1 a2] a3], (fkey y) as [[b1 b2] b3],
    (fkey z) as [[c1 c2] c3]. lia.
Qed.

(** [x < y] and not [z < y] give [x < z]. *)
Lemma ltb_le_trans (x y z : spec_float) :
  PyFloat.is_nan x = false -> PyFloat.is_nan y = false ->
  PyFloat.is_nan z = false ->
  PyFloat.ltb x y = true -> PyFloat.ltb z y = false -> PyFloat.ltb x z = true.
Proof.
  intros Hx Hy Hz H1 H2.
  assert (H3 : ~ PyFloat.ltb z y = true) by congruence.
  revert H1 H3. rewrite !ltb_key by assumption. rewrite !lex3_lt.
  destruct (fkey x) as [[a1 a2] a3], (fkey y) as [[b1 b2] b3],
    (fkey z) as [[c1 c2] c3]. lia.
Qed.

Lemma ltb_asym (x y : spec_float) :
  PyFloat.ltb x y = true -> PyFloat.ltb y x = false.
Proof.
  intros H.
  assert (Hx : PyFloat.is_nan x = false).
  { destruct x; try reflexivity. discriminate H. }
  assert (Hy : PyFloat.is_nan y = false).
  { destruct y; try reflexivity. destruct x; discriminate H. }
  destruct (PyFloat.ltb y x) eqn:E; [|reflexivity].
  revert H E. rewrite !ltb_key by assumption. rewrite !lex3_lt.
  destruct (fkey x) as [[a1 a2] a3], (fkey y) as [[b1 b2] b3]. lia.
Qed.

(** *** Rounding *)

Lemma iter_pos_inv {A} (P : A -> Prop) (f : A -> A) :
  (forall x, P x -> P (f x)) -> forall p x, P x -> P (iter_pos f p x).
Proof.
  intros Hf. induction p as [p IH|p IH|]; simpl; intros x Hx; auto.
Qed.

Lemma shr_1_nonneg (mrs : shr_record) :
  0 <= shr_m mrs -> 0 <= shr_m (shr_1 mrs).
Proof.
  destruct mrs as [m r s]. simpl.
  destruct m as [|[p|p|]|[p|p|]]; simpl; lia.
Qed.

Lemma shr_nonneg (mrs : shr_record) (e n : Z) :
  0 <= shr_m mrs -> 0 <= shr_m (fst (shr mrs e n)).
Proof.
  intros H. destruct n as [|p|p]; simpl; auto.
  apply (iter_pos_inv (fun x => 0 <= shr_m x)); auto using shr_1_nonneg.
Qed.

Lemma shr_fexp_nonneg (prec emax m e : Z) (l : location) :
  0 <= m -> 0 <= shr_m (fst (shr_fexp prec emax m e l)).
Proof.
  intros H. unfold shr_fexp. apply shr_nonneg.
  destruct l as [|[]]; simpl; assumption.
Qed.

Lemma round_nearest_even_nonneg (m : Z) (l : location) :
  0 <= m -> 0 <= round_nearest_even m l.
Proof.
  intros H. destruct l as [|[]]; simpl; try lia.
  destruct (Z.even m); lia.
Qed.

Lemma binary_round_aux_signed (prec emax : Z) (sx : bool) (mx ex : Z)
  (lx : location) :
  0 <= mx -> signed_value sx (binary_round_aux prec emax sx mx ex lx).
Proof.
  intros H. unfold binary_round_aux.
  pose proof (shr_fexp_nonneg prec emax mx ex lx H) as H1.
  destruct (shr_fexp prec emax mx ex lx) as [mrs' e']. simpl in H1.
  pose proof (round_nearest_even_nonneg (shr_m mrs') (loc_of_shr_record mrs') H1)
    as H2.
  pose proof (shr_fexp_nonneg prec emax _ e' loc_Exact H2) as H3.
  destruct (shr_fexp prec emax _ e' loc_Exact) as [mrs'' e'']. simpl in H3.
  destruct (shr_m mrs'') as [|m|m].
  - left. reflexivity.
  - destruct (e'' <=? emax - prec).
    + right. right. eauto.
    + right. left. reflexivity.
  - lia.
Qed.

Lemma signed_value_not_nan (s : bool) (r : spec_float) :
  signed_value s r -> PyFloat.is_nan r = false.
Proof.
  intros [->|[->|(m & e & ->)]]; reflexivity.
Qed.

Lemma of_Z_signed (n : Z) : signed_value (n <? 0) (PyFloat.of_Z n).
Proof.
  unfold PyFloat.of_Z, binary_normalize.
  destruct n as [|p|p]; simpl.
  - left. reflexivity.
  - unfold binary_round. destruct (shl_align p 0 _) as [mz ez].
    apply binary_round_aux_signed. lia.
  - unfold binary_round. destruct (shl_align p 0 _) as [mz ez].
    apply binary_round_aux_signed. lia.
Qed.

Lemma of_int_ok (n : Z) (f : spec_float) :
  PyFloat.of_int n = Ok f ->
  f = S754_zero (n <? 0) \/ exists m e, f = S754_finite (n <? 0) m e.
Proof.
  unfold PyFloat.of_int. intros H.
  destruct (of_Z_signed n) as [E|[E|(m & e & E)]]; rewrite E in H.
  - left. congruence.
  - discriminate.
  - right. exists m, e. congruence.
Qed.

Lemma mul_finite_signed (sx sy : bool) (mx my : positive) (ex ey : Z) :
  signed_value (xorb sx sy)
    (PyFloat.mul (S754_finite sx mx ex) (S754_finite sy my ey)).
Proof.
  unfold PyFloat.mul. simpl. apply binary_round_aux_signed. lia.
Qed.

Lemma eqb_refl (x : spec_float) :
  PyFloat.is_nan x = false -> PyFloat.eqb x x = true.
Proof.
  intros H. unfold PyFloat.eqb, SFeqb. rewrite (SFcompare_key x x H H).
  destruct (fkey x) as [[a b] c]. simpl. rewrite !Z.compare_refl. reflexivity.
Qed.

(** ** Scoring heuristic *)

Lemma ltb_zero_finite (s : bool) (m : positive) (e : Z) :
  PyFloat.ltb PyFloat.zero (S754_finite s m e) = negb s.
Proof. destruct s; reflexivity. Qed.

Lemma code_clamp_shape (acc : PyFloat.float) :
  code_clamp acc = PyFloat.zero \/
  exists m e, code_clamp acc = S754_finite false m e.
Proof.
  unfold code_clamp.
  destruct acc as [s|s| |s m e].
  - left. reflexivity.
  - destruct s; [left; reflexivity|right]. vm_compute. eauto.
  - right. vm_compute. eauto.
  - unfold PyFloat.or_else, PyFloat.truthy.
    replace (PyFloat.eqb (S754_finite s m e) PyFloat.zero) with false
      by (destruct s; reflexivity).
    simpl negb. cbv iota. unfold PyFloat.min2.
    destruct (PyFloat.ltb (S754_finite s m e) PyFloat.one).
    + unfold PyFloat.max2. rewrite ltb_zero_finite.
      destruct s; simpl; [left; reflexivity|right; eauto].
    + right. vm_compute. eauto.
Qed.

Lemma finite_eq_one (m : positive) (e : Z) :
  PyFloat.ltb (S754_finite false m e) PyFloat.one = false ->
  PyFloat.ltb PyFloat.one (S754_finite false m e) = false ->
  S754_finite false m e = PyFloat.one.
Proof.
  intros H1 H2.
  assert (N1 : ~ PyFloat.ltb (S754_finite false m e) PyFloat.one = true)
    by congruence.
  assert (N2 : ~ PyFloat.ltb PyFloat.one (S754_finite false m e) = true)
    by congruence.
  rewrite ltb_key in N1, N2 by reflexivity. rewrite lex3_lt in N1, N2.
  unfold PyFloat.one in *. simpl in N1, N2.
  assert (e = -52 /\ Zpos m = 4503599627370496) as [-> E] by lia.
  injection E as ->. reflexivity.
Qed.

(** The clamp of the code against the clamp of the specification: the same
    value, except that the code turns a negative zero into a positive one. *)
Lemma code_clamp_spec (acc : PyFloat.float) :
  PyFloat.is_nan acc = false ->
  code_clamp acc = clamp01 acc \/
  (code_clamp acc = PyFloat.zero /\ exists s, clamp01 acc = S754_zero s).
Proof.
  intros Hn. destruct acc as [s|s| |s m e]; try discriminate.
  - right. split; [reflexivity|]. exists s. destruct s; reflexivity.
  - left. destruct s; reflexivity.
  - unfold code_clamp, clamp01, PyFloat.or_else, PyFloat.truthy.
    replace (PyFloat.eqb (S754_finite s m e) PyFloat.zero) with false
      by (destruct s; reflexivity).
    simpl negb. cbv iota. unfold PyFloat.min2, PyFloat.max2.
    destruct s.
    + left. reflexivity.
    + replace (PyFloat.ltb (S754_finite false m e) PyFloat.zero) with false
        by reflexivity.
      destruct (PyFloat.ltb (S754_finite false m e) PyFloat.one) eqn:E1.
      * rewrite ltb_zero_finite. simpl.
        rewrite (ltb_asym _ _ E1). left. reflexivity.
      * destruct (PyFloat.ltb PyFloat.one (S754_finite false m e)) eqn:E2.
        -- left. reflexivity.
        -- left. rewrite (finite_eq_one m e E1 E2). reflexivity.
Qed.

Lemma int_or_else_zero (n : Z) : PyInt.or_else n 0 = n.
Proof.
  unfold PyInt.or_else. destruct (Z.eqb_spec n 0); congruence.
Qed.

Lemma score_unfold (r : RowMove.t) :
  _score_move_row r =
  Py.bind (PyFloat.of_int (RowMove.base_power r)) (fun bp =>
  Ok (PyFloat.mul (PyFloat.mul bp (code_clamp (RowMove.accuracy r)))
        (if RowMove.is_stab r then PyFloat.one_and_half else PyFloat.one))).
Proof.
  unfold _score_move_row. rewrite int_or_else_zero. reflexivity.
Qed.

Lemma stab_factor_finite (b : bool) :
  exists m e, (if b then PyFloat.one_and_half else PyFloat.one)
              = S754_finite false m e.
Proof. destruct b; vm_compute; eauto. Qed.

(** The product [bp * clamp * factor] is a signed value, never a NaN. *)
Lemma product_signed (b c k : spec_float) (sb : bool) :
  (b = S754_zero sb \/ exists m e, b = S754_finite sb m e) ->
  (c = PyFloat.zero \/ exists m e, c = S754_finite false m e) ->
  (exists m e, k = S754_finite false m e) ->
  signed_value sb (PyFloat.mul (PyFloat.mul b c) k).
Proof.
  intros Hb Hc (mk & ek & ->).
  assert (H1 : signed_value sb (PyFloat.mul b c)).
  { destruct Hb as [->|(m & e & ->)], Hc as [->|(m' & e' & ->)].
    - left. destruct sb; reflexivity.
    - left. destruct sb; reflexivity.
    - left. destruct sb; reflexivity.
    - pose proof (mul_finite_signed sb false m m' e e') as H.
      rewrite xorb_false_r in H. exact H. }
  destruct H1 as [->|[->|(m & e & ->)]].
  - left. destruct sb; reflexivity.
  - right. left. destruct sb; reflexivity.
  - pose proof (mul_finite_signed sb false m mk e ek) as H.
    rewrite xorb_false_r in H. exact H.
Qed.

Lemma score_signed (r : RowMove.t) (s : PyFloat.float) :
  _score_move_row r = Ok s -> signed_value (RowMove.base_power r <? 0) s.
Proof.
  rewrite score_unfold. intros H.
  destruct (PyFloat.of_int (RowMove.base_power r)) as [b|e] eqn:E;
    simpl in H; [|discriminate].
  injection H as <-.
  apply product_signed.
  - apply of_int_ok. exact E.
  - apply code_clamp_shape.
  - apply stab_factor_finite.
Qed.

Lemma score_not_nan (r : RowMove.t) (s : PyFloat.float) :
  _score_move_row r = Ok s -> PyFloat.is_nan s = false.
Proof.
  intros H. eapply signed_value_not_nan, score_signed, H.
Qed.

Lemma score_matches_spec (r : RowMove.t) :
  PyFloat.is_nan (RowMove.accuracy r) = false ->
  same_score (_score_move_row r) (spec_score r).
Proof.
  intros Hn. rewrite score_unfold. unfold spec_score.
  destruct (PyFloat.of_int (RowMove.base_power r)) as [b|e] eqn:E; simpl;
    [|exact I].
  pose proof (of_int_ok _ _ E) as Hb.
  destruct (stab_factor_finite (RowMove.is_stab r)) as (mk & ek & Hk).
  destruct (code_clamp_spec _ Hn) as [Hc|[Hc [s Hs]]].
  - rewrite <- Hc. apply eqb_refl.
    eapply signed_value_not_nan, product_signed; eauto.
    apply code_clamp_shape.
  - rewrite Hc, Hs, Hk.
    destruct Hb as [->|(m & e & ->)]; destruct s;
      destruct (RowMove.base_power r <? 0); reflexivity.
Qed.

Lemma score_status (r : RowMove.t) :
  RowMove.base_power r = 0 -> _score_move_row r = Ok PyFloat.zero.
Proof.
  intros H. rewrite score_unfold, H. simpl.
  destruct (stab_factor_finite (RowMove.is_stab r)) as (mk & ek & ->).
  destruct (code_clamp_shape (RowMove.accuracy r)) as [->|(m & e & ->)];
    reflexivity.
Qed.

(** *** The builtin [max] with a key *)

Section MaxKey.

Context {A : Type}.
Variable key : A -> result PyFloat.float.

Lemma max_loop_spec (l : list A) :
  keys_defined key l ->
  forall best bestv,
    PyFloat.is_nan bestv = false ->
    (PyList.max_loop key best bestv l = Ok best /\
     forall x vx, In x l -> key x = Ok vx -> PyFloat.ltb bestv vx = false)
    \/
    (exists b v, PyList.max_loop key best bestv l = Ok b /\
                 first_max key l b v /\ PyFloat.ltb bestv v = true).
Proof.
  induction l as [|x l IH]; intros Hk best bestv Hb.
  - left. split; [reflexivity|]. intros x vx [].
  - destruct (Hk x (or_introl eq_refl)) as (vx & Ex & Nx).
    assert (Hk' : keys_defined key l) by (intros y Hy; apply Hk; right; exact Hy).
    simpl. rewrite Ex. simpl.
    destruct (PyFloat.ltb bestv vx) eqn:Elt.
    + right. destruct (IH Hk' x vx Nx) as [[E Hall]|(b & v & E & Hf & Hlt)].
      * exists x, vx. split; [exact E|]. split; [|exact Elt].
        exists [], l. repeat split; auto; try (intros ? ? []).
      * exists b, v. split; [exact E|].
        destruct Hf as (pre & post & -> & Eb & Hpre & Hpost).
        assert (Nv : PyFloat.is_nan v = false).
        { destruct (Hk' b (in_elt b pre post)) as (v' & Ev' & Nv'). congruence. }
        split; [|apply (ltb_trans bestv vx v); assumption].
        exists (x :: pre), post. repeat split; auto.
        intros y vy [<-|Hy] Ey; [|eauto]. congruence.
    + destruct (IH Hk' best bestv Hb) as [[E Hall]|(b & v & E & Hf & Hlt)].
      * left. split; [exact E|].
        intros y vy [<-|Hy] Ey; [congruence|eauto].
      * right. exists b, v. split; [exact E|]. split; [|exact Hlt].
        destruct Hf as (pre & post & -> & Eb & Hpre & Hpost).
        assert (Nv : PyFloat.is_nan v = false).
        { destruct (Hk' b (in_elt b pre post)) as (v' & Ev' & Nv'). congruence. }
        exists (x :: pre), post. repeat split; auto.
        intros y vy [<-|Hy] Ey; [|eauto].
        assert (vy = vx) as -> by congruence.
        (* bestv < v and not bestv < vx, hence vx < v *)
        destruct (PyFloat.ltb vx v) eqn:E'; [reflexivity|].
        assert (PyFloat.ltb bestv vx = true)
          by (eapply ltb_le_trans with (y := v); eauto).
        congruence.
Qed.

Lemma max_key_spec (l : list A) :
  keys_defined key l -> l <> [] ->
  exists b v, PyList.max_key key l = Ok b /\ first_max key l b v.
Proof.
  intros Hk Hne. destruct l as [|x l]; [congruence|].
  destruct (Hk x (or_introl eq_refl)) as (vx & Ex & Nx).
  assert (Hk' : keys_defined key l) by (intros y Hy; apply Hk; right; exact Hy).
  simpl. rewrite Ex. simpl.
  destruct (max_loop_spec l Hk' x vx Nx) as [[E Hall]|(b & v & E & Hf & Hlt)].
  - exists x, vx. split; [exact E|]. exists [], l. repeat split; auto; try (intros ? ? []).
  - exists b, v. split; [exact E|].
    destruct Hf as (pre & post & -> & Eb & Hpre & Hpost).
    exists (x :: pre), post. repeat split; auto.
    intros y vy [<-|Hy] Ey; [|eauto]. congruence.
Qed.

End MaxKey.

(** *** Indices *)

Lemma range_nth (n : nat) (j : nat) :
  (j < n)%nat -> nth j (PyList.range (Z.of_nat n)) 0 = Z.of_nat j.
Proof.
  intros H. unfold PyList.range. rewrite Nat2Z.id.
  change 0 with (Z.of_nat 0). rewrite map_nth, seq_nth by exact H. reflexivity.
Qed.

Lemma range_length (n : nat) : List.length (PyList.range (Z.of_nat n)) = n.
Proof.
  unfold PyList.range. rewrite Nat2Z.id, length_map, length_seq. reflexivity.
Qed.

Lemma range_split (n : nat) (pre post : list Z) (b : Z) :
  PyList.range (Z.of_nat n) = pre ++ b :: post ->
  b = Z.of_nat (List.length pre) /\ 0 <= b < Z.of_nat n /\
  (forall j, 0 <= j < b -> In j pre) /\
  (forall j, b < j < Z.of_nat n -> In j post).
Proof.
  intros E.
  assert (Hlen : n = (List.length pre + S (List.length post))%nat).
  { rewrite <- (range_length n), E, length_app. reflexivity. }
  assert (Hb : b = Z.of_nat (List.length pre)).
  { rewrite <- (range_nth n (List.length pre)) by lia.
    rewrite E, nth_middle. reflexivity. }
  split; [exact Hb|]. split; [lia|]. split.
  - intros j Hj.
    assert (Hj' : (Z.to_nat j < List.length pre)%nat) by lia.
    pose proof (range_nth n (Z.to_nat j) ltac:(lia)) as Hn.
    rewrite E, app_nth1 in Hn by exact Hj'.
    rewrite Z2Nat.id in Hn by lia. rewrite <- Hn. apply nth_In. exact Hj'.
  - intros j Hj.
    pose proof (range_nth n (Z.to_nat j) ltac:(lia)) as Hn.
    rewrite E, app_nth2 in Hn by lia.
    rewrite Z2Nat.id in Hn by lia.
    replace (Z.to_nat j - List.length pre)%nat
      with (S (Z.to_nat j - S (List.length pre))) in Hn by lia.
    simpl in Hn. rewrite <- Hn. apply nth_In. lia.
Qed.

Lemma range_In (n : nat) (j : Z) :
  In j (PyList.range (Z.of_nat n)) -> 0 <= j < Z.of_nat n.
Proof.
  unfold PyList.range. rewrite Nat2Z.id, in_map_iff.
  intros (k & <- & Hk). apply in_seq in Hk. lia.
Qed.

Lemma index_in_range {A} (l : list A) (j : Z) :
  0 <= j < len l ->
  exists x, PyList.index l j = Ok x /\ nth_error l (Z.to_nat j) = Some x.
Proof.
  unfold len. intros H. unfold PyList.index. cbv zeta.
  assert (E0 : (j <? 0) = false) by lia.
  assert (E1 : (Z.of_nat (List.length l) <=? j) = false) by lia.
  rewrite E0. cbv iota. rewrite E0, E1. simpl.
  destruct (nth_error l (Z.to_nat j)) as [x|] eqn:E.
  - exists x. split; reflexivity.
  - apply nth_error_None in E. lia.
Qed.

(** *** The ranking of the fallback *)

Lemma score_defined (r : RowMove.t) :
  representable (RowMove.base_power r) ->
  exists s, _score_move_row r = Ok s /\ PyFloat.is_nan s = false.
Proof.
  intros (f & Hf).
  destruct (_score_move_row r) as [s|e] eqn:E.
  - exists s. split; [reflexivity|]. eapply score_not_nan, E.
  - rewrite score_unfold, Hf in E. discriminate.
Qed.

Lemma best_move_index_spec (rows : list RowMove.t) :
  rows <> [] ->
  Forall (fun r => representable (RowMove.base_power r)) rows ->
  exists i, best_move_index rows = Ok i /\ first_best rows i.
Proof.
  intros Hne Hrep. unfold best_move_index.
  set (key := fun i : Z => Py.bind (PyList.index rows i) _score_move_row).
  assert (Hk : keys_defined key (PyList.range (len rows))).
  { intros j Hj. apply range_In in Hj.
    destruct (index_in_range rows j Hj) as (r & Er & En).
    destruct (score_defined r) as (s & Es & Ns).
    - rewrite Forall_forall in Hrep. apply Hrep.
      eapply nth_error_In, En.
    - exists s. unfold key. rewrite Er. simpl. split; assumption. }
  assert (Hr : PyList.range (len rows) <> []).
  { intros E. apply (f_equal (@List.length Z)) in E.
    unfold len in E. rewrite range_length in E.
    destruct rows; [congruence|discriminate]. }
  destruct (max_key_spec key _ Hk Hr) as (i & si & E & pre & post & Es & Ei & Hpre & Hpost).
  exists i. split; [exact E|].
  destruct (range_split _ _ _ _ Es) as (Hi & Hin & Hlo & Hhi).
  split; [exact Hin|].
  exists si. split; [exact Ei|].
  intros j sj Hj Ej. change (key j = Ok sj) in Ej.
  assert (Nsi : PyFloat.is_nan si = false).
  { destruct (Hk i) as (v & Ev & Nv); [rewrite Es; apply in_elt|].
    congruence. }
  destruct (Z.lt_trichotomy j i) as [Hlt|[->|Hgt]].
  - assert (PyFloat.ltb sj si = true) by (apply (Hpre j sj); auto; apply Hlo; lia).
    split; [apply ltb_asym; assumption|auto].
  - assert (sj = si) as -> by congruence.
    split; [|lia].
    destruct (PyFloat.ltb si si) eqn:E'; [|reflexivity].
    pose proof (ltb_asym _ _ E'). congruence.
  - split; [|lia]. apply (Hpost j sj); auto. apply Hhi. unfold len in *. lia.
Qed.

(** C5.  The score of a row is [base_power * clamp(accuracy, 0, 1) *
    (1.5 if STAB else 1.0)], computed in binary64, for every row whose
    accuracy is a number; it is a function of the row alone; a row of base
    power 0 scores 0.0; base power 100 with accuracy 1.0 scores 150.0 with
    STAB and 100.0 without, and 100.0 < 150.0; and the search for the best
    move returns the first index among those of greatest score. *)
Theorem score_move_row_spec :
  (forall r, PyFloat.is_nan (RowMove.accuracy r) = false ->
             same_score (_score_move_row r) (spec_score r)) /\
  (forall r, RowMove.base_power r = 0 -> _score_move_row r = Ok PyFloat.zero) /\
  (forall r, RowMove.base_power r = 100 ->
             RowMove.accuracy r = PyFloat.one ->
             _score_move_row r
             = Ok (if RowMove.is_stab r then PyFloat.of_Z 150
                   else PyFloat.of_Z 100)) /\
  PyFloat.ltb (PyFloat.of_Z 100) (PyFloat.of_Z 150) = true /\
  (forall rows, rows <> [] ->
     Forall (fun r => representable (RowMove.base_power r)) rows ->
     exists i, best_move_index rows = Ok i /\ first_best rows i).
Proof.
  split; [|split; [|split; [|split]]].
  - apply score_matches_spec.
  - apply score_status.
  - intros r Hb Ha. rewrite score_unfold, Hb, Ha.
    destruct (RowMove.is_stab r); vm_compute; reflexivity.
  - vm_compute. reflexivity.
  - apply best_move_index_spec.
Qed.

(** ** Row encoder: the accuracy

    Dividing a float between 1 and 100 by 100.0 gives a float between 0
    and 1: the quotient has 53 or 54 digits and rounds to at most one. *)

Lemma digits2_pos_size (p : positive) : digits2_pos p = Pos.size p.
Proof. induction p; simpl; congruence. Qed.

Lemma Zdigits2_bounds (p : positive) (d : Z) :
  2 ^ (d - 1) <= Zpos p < 2 ^ d -> 1 <= d -> Zdigits2 (Zpos p) = d.
Proof.
  intros [Hlo Hhi] Hd. simpl. rewrite digits2_pos_size.
  pose proof (Pos.size_gt p) as Hgt. pose proof (Pos.size_le p) as Hle.
  assert (Hgt' : Zpos p < 2 ^ Zpos (Pos.size p)).
  { rewrite <- Pos2Z.inj_pow. apply Pos2Z.pos_lt_pos. exact Hgt. }
  assert (Hle' : 2 ^ Zpos (Pos.size p) <= 2 * Zpos p).
  { rewrite <- Pos2Z.inj_pow. change (2 * Zpos p) with (Zpos (p~0)).
    apply Pos2Z.pos_le_pos. exact Hle. }
  assert (H1 : d - 1 < Zpos (Pos.size p)).
  { apply (Z.pow_lt_mono_r_iff 2); lia. }
  assert (H2 : Zpos (Pos.size p) < d + 1).
  { apply (Z.pow_lt_mono_r_iff 2); [lia|lia|].
    rewrite Z.pow_add_r by lia. lia. }
  lia.
Qed.

Lemma binary_round_aux_tail (mx ex : Z) (lx : location) :
  binary_round_aux PyFloat.prec PyFloat.emax false mx ex lx =
  let '(mrs, e) := shr_fexp PyFloat.prec PyFloat.emax mx ex lx in
  round_tail (round_nearest_even (shr_m mrs) (loc_of_shr_record mrs)) e.
Proof.
  unfold binary_round_aux, round_tail.
  destruct (shr_fexp PyFloat.prec PyFloat.emax mx ex lx) as [mrs e].
  reflexivity.
Qed.

Lemma fexp_normal (x : Z) :
  -1000 <= x -> fexp PyFloat.prec PyFloat.emax x = x - 53.
Proof.
  intros H.
  change (fexp PyFloat.prec PyFloat.emax x) with (Z.max (x - 53) (-1074)).
  lia.
Qed.

Lemma shr_fexp_unfold (m e : Z) (l : location) :
  shr_fexp PyFloat.prec PyFloat.emax m e l =
  shr (shr_record_of_loc m l) e
    (fexp PyFloat.prec PyFloat.emax (Zdigits2 m + e) - e).
Proof. reflexivity. Qed.

Lemma shr_zero (mrs : shr_record) (e : Z) : shr mrs e 0 = (mrs, e).
Proof. reflexivity. Qed.

Lemma shr_one (mrs : shr_record) (e : Z) : shr mrs e 1 = (shr_1 mrs, e + 1).
Proof. reflexivity. Qed.

Lemma round_tail_at_most_one (m1 e1 : Z) :
  2 ^ 52 <= m1 <= 2 ^ 53 -> e1 <= -53 -> -900 <= e1 ->
  at_most_one (round_tail m1 e1).
Proof.
  intros Hm He Hlo. unfold round_tail. rewrite shr_fexp_unfold.
  destruct m1 as [|p|p]; try lia.
  destruct (Z.eq_dec (Zpos p) (2 ^ 53)) as [E|N].
  - rewrite E. change (Zdigits2 (2 ^ 53)) with 54.
    rewrite fexp_normal by lia.
    replace (54 + e1 - 53 - e1) with 1 by lia. rewrite shr_one.
    change (shr_m (shr_1 (shr_record_of_loc (2 ^ 53) loc_Exact)))
      with (Zpos (2 ^ 52)%positive).
    replace (e1 + 1 <=? PyFloat.emax - PyFloat.prec) with true
      by (unfold PyFloat.emax, PyFloat.prec; lia).
    eexists _, _. split; [reflexivity|]. lia.
  - rewrite (Zdigits2_bounds p 53) by lia.
    rewrite fexp_normal by lia.
    replace (53 + e1 - 53 - e1) with 0 by lia. rewrite shr_zero.
    change (shr_m (shr_record_of_loc (Zpos p) loc_Exact)) with (Zpos p).
    replace (e1 <=? PyFloat.emax - PyFloat.prec) with true
      by (unfold PyFloat.emax, PyFloat.prec; lia).
    eexists _, _. split; [reflexivity|]. lia.
Qed.

Lemma loc_of_record (m : Z) (l : location) :
  loc_of_shr_record (shr_record_of_loc m l) = l /\
  shr_m (shr_record_of_loc m l) = m.
Proof. destruct l as [|[]]; split; reflexivity. Qed.

Lemma round_nearest_even_bounds (m : Z) (l : location) :
  m <= round_nearest_even m l <= m + 1.
Proof.
  destruct l as [|[]]; simpl; try lia. destruct (Z.even m); lia.
Qed.

Lemma shr_1_half (mrs : shr_record) :
  0 <= shr_m mrs -> shr_m (shr_1 mrs) = shr_m mrs / 2.
Proof.
  destruct mrs as [m r s]. simpl. intros H.
  destruct m as [|[p|p|]|p]; simpl; try reflexivity; try lia.
  - rewrite Pos2Z.inj_xI. apply Z.div_unique with 1; lia.
  - rewrite Pos2Z.inj_xO. apply Z.div_unique with 0; lia.
Qed.

(** A quotient of 53 or 54 digits whose value is below one rounds to a
    float that is at most one. *)
Lemma round_below_one (mx ex : Z) (lx : location) :
  2 ^ 52 <= mx < 2 ^ 54 -> Zdigits2 mx + ex <= 0 -> -900 <= ex ->
  at_most_one (binary_round_aux PyFloat.prec PyFloat.emax false mx ex lx).
Proof.
  intros Hm Hd Hlo. rewrite binary_round_aux_tail, shr_fexp_unfold.
  destruct mx as [|p|p]; try lia.
  destruct (Z_lt_le_dec (Zpos p) (2 ^ 53)) as [Hlt|Hge].
  - rewrite (Zdigits2_bounds p 53) in * by lia.
    rewrite fexp_normal by lia.
    replace (53 + ex - 53 - ex) with 0 by lia. rewrite shr_zero.
    destruct (loc_of_record (Zpos p) lx) as [-> ->].
    pose proof (round_nearest_even_bounds (Zpos p) lx).
    apply round_tail_at_most_one; lia.
  - rewrite (Zdigits2_bounds p 54) in * by lia.
    rewrite fexp_normal by lia.
    replace (54 + ex - 53 - ex) with 1 by lia. rewrite shr_one.
    assert (Hh : shr_m (shr_1 (shr_record_of_loc (Zpos p) lx)) = Zpos p / 2).
    { rewrite shr_1_half; destruct (loc_of_record (Zpos p) lx) as [_ ->];
        [reflexivity|lia]. }
    pose proof (round_nearest_even_bounds
                  (shr_m (shr_1 (shr_record_of_loc (Zpos p) lx)))
                  (loc_of_shr_record (shr_1 (shr_record_of_loc (Zpos p) lx)))) as Hb.
    assert (2 ^ 52 <= Zpos p / 2 < 2 ^ 53).
    { split; [apply Z.div_le_lower_bound; lia|apply Z.div_lt_upper_bound; lia]. }
    apply round_tail_at_most_one; lia.
Qed.

Lemma at_most_one_in_unit (r : spec_float) : at_most_one r -> in_unit r.
Proof.
  intros (m & e & -> & H). split; [reflexivity|].
  unfold PyFloat.leb, SFleb, PyFloat.one. cbn [SFcompare].
  destruct H as [H|[-> H]].
  - change (IntDef.Z.compare e (-52)) with (e ?= -52).
    rewrite (proj2 (Z.compare_lt_iff e (-52)) H). reflexivity.
  - injection H as ->. reflexivity.
Qed.

Lemma lex3_antisym (a b : Z * Z * Z) : lex3 b a = CompOpp (lex3 a b).
Proof.
  destruct a as [[a1 a2] a3], b as [[b1 b2] b3]. unfold lex3.
  rewrite (Z.compare_antisym a1 b1), (Z.compare_antisym a2 b2),
    (Z.compare_antisym a3 b3).
  destruct (a1 ?= b1), (a2 ?= b2), (a3 ?= b3); reflexivity.
Qed.

Lemma leb_not_ltb (x y : spec_float) :
  PyFloat.leb x y = true -> PyFloat.ltb y x = false.
Proof.
  intros H.
  assert (Hx : PyFloat.is_nan x = false).
  { destruct x; try reflexivity. discriminate H. }
  assert (Hy : PyFloat.is_nan y = false).
  { destruct y; try reflexivity. destruct x; discriminate H. }
  unfold PyFloat.leb, SFleb in H. unfold PyFloat.ltb, SFltb.
  rewrite (SFcompare_key x y Hx Hy) in H. rewrite (SFcompare_key y x Hy Hx).
  rewrite lex3_antisym. destruct (lex3 (fkey x) (fkey y)); try reflexivity.
  discriminate H.
Qed.

Lemma leb_false_ltb (x y : spec_float) :
  PyFloat.is_nan x = false -> PyFloat.is_nan y = false ->
  PyFloat.leb x y = false -> PyFloat.ltb y x = true.
Proof.
  intros Hx Hy H. unfold PyFloat.leb, SFleb in H. unfold PyFloat.ltb, SFltb.
  rewrite (SFcompare_key x y Hx Hy) in H. rewrite (SFcompare_key y x Hy Hx).
  rewrite lex3_antisym. destruct (lex3 (fkey x) (fkey y)); try discriminate H.
  reflexivity.
Qed.

Lemma digits_53 (m : positive) :
  Zpos (digits2_pos m) = 53 -> 2 ^ 52 <= Zpos m < 2 ^ 53.
Proof.
  rewrite digits2_pos_size. intros H.
  pose proof (Pos.size_gt m) as Hgt. pose proof (Pos.size_le m) as Hle.
  assert (Hgt' : Zpos m < 2 ^ Zpos (Pos.size m)).
  { rewrite <- Pos2Z.inj_pow. apply Pos2Z.pos_lt_pos. exact Hgt. }
  assert (Hle' : 2 ^ Zpos (Pos.size m) <= 2 * Zpos m).
  { rewrite <- Pos2Z.inj_pow. change (2 * Zpos m) with (Zpos (m~0)).
    apply Pos2Z.pos_le_pos. exact Hle. }
  rewrite H in *. lia.
Qed.

Lemma div_core_hundred (m : positive) (e : Z) :
  2 ^ 52 <= Zpos m < 2 ^ 53 -> -900 <= e ->
  SFdiv_core_binary PyFloat.prec PyFloat.emax (Zpos m) e
    7036874417766400 (-46)
  = (Zpos m * 2 ^ 53 / 7036874417766400, e - 7,
     new_location 7036874417766400 (Zpos m * 2 ^ 53 mod 7036874417766400)).
Proof.
  intros Hm He.
  change (SFdiv_core_binary PyFloat.prec PyFloat.emax (Zpos m) e
            7036874417766400 (-46))
    with (let d1 := Zdigits2 (Zpos m) in
          let e' := Z.min (fexp PyFloat.prec PyFloat.emax
                             (d1 + e - (53 + -46))) (e - -46) in
          let s := e - -46 - e' in
          let m' := match s with
                    | Zpos _ => Z.shiftl (Zpos m) s
                    | Z0 => Zpos m
                    | Zneg _ => 0
                    end in
          let '(q, r) := Z.div_eucl m' 7036874417766400 in
          (q, e', new_location 7036874417766400 r)).
  cbv zeta. rewrite (Zdigits2_bounds m 53) by lia.
  rewrite fexp_normal by lia.
  replace (Z.min (53 + e - (53 + -46) - 53) (e - -46)) with (e - 7) by lia.
  replace (e - -46 - (e - 7)) with 53 by lia.
  rewrite Z.shiftl_mul_pow2 by lia.
  unfold Z.div, Z.modulo.
  destruct (Z.div_eucl (Zpos m * 2 ^ 53) 7036874417766400) as [q r].
  reflexivity.
Qed.

(** A float above 1 and at most 100, divided by 100.0, lies in [0, 1]. *)
Lemma div_hundred_in_unit (f : PyFloat.float) :
  valid_binary PyFloat.prec PyFloat.emax f = true ->
  PyFloat.ltb PyFloat.one f = true ->
  PyFloat.leb f PyFloat.hundred = true ->
  in_unit (PyFloat.div f PyFloat.hundred).
Proof.
  intros Hv H1 H100.
  pose proof (leb_not_ltb _ _ H100) as H100'.
  assert (N100 : ~ PyFloat.ltb PyFloat.hundred f = true) by congruence.
  destruct f as [s|s| |s m e]; try discriminate H1.
  - destruct s; [discriminate H1|discriminate H100].
  - destruct s; [discriminate H1|]. clear H100 H100'.
    rewrite ltb_key in H1, N100 by reflexivity.
    rewrite lex3_lt in H1, N100. unfold PyFloat.one, PyFloat.hundred in *.
    cbn [fkey] in H1, N100.
    assert (He : -52 <= e <= -46) by lia.
    assert (Hm : 2 ^ 52 <= Zpos m < 2 ^ 53).
    { apply digits_53. simpl in Hv. apply andb_true_iff in Hv.
      destruct Hv as [Hc _]. unfold canonical_mantissa in Hc.
      apply Z.eqb_eq in Hc.
      change (fexp PyFloat.prec PyFloat.emax (Zpos (digits2_pos m) + e) = e)
        in Hc.
      change (fexp PyFloat.prec PyFloat.emax (Zpos (digits2_pos m) + e))
        with (Z.max (Zpos (digits2_pos m) + e - 53) (-1074)) in Hc.
      lia. }
    destruct (Z.eq_dec (Zpos m) 7036874417766400) as [Em|Nm].
    + destruct (Z.eq_dec e (-46)) as [->|Ne].
      * injection Em as ->. vm_compute. split; reflexivity.
      * apply at_most_one_in_unit.
        change (PyFloat.div (S754_finite false m e)
                  (S754_finite false 7036874417766400 (-46)))
          with (let '(mz, ez, lz) :=
                  SFdiv_core_binary PyFloat.prec PyFloat.emax (Zpos m) e
                    7036874417766400 (-46) in
                binary_round_aux PyFloat.prec PyFloat.emax false mz ez lz).
        rewrite div_core_hundred by lia.
        assert (Hq : 2 ^ 52 <= Zpos m * 2 ^ 53 / 7036874417766400 < 2 ^ 54).
        { split; [apply Z.div_le_lower_bound; lia
                 |apply Z.div_lt_upper_bound; lia]. }
        apply round_below_one; [exact Hq| |lia].
        destruct (Zpos m * 2 ^ 53 / 7036874417766400) as [|q|q] eqn:Eq; try lia.
        destruct (Z_lt_le_dec (Zpos q) (2 ^ 53)).
        -- rewrite (Zdigits2_bounds q 53) by lia. lia.
        -- rewrite (Zdigits2_bounds q 54) by lia. lia.
    + apply at_most_one_in_unit.
      change (PyFloat.div (S754_finite false m e)
                (S754_finite false 7036874417766400 (-46)))
        with (let '(mz, ez, lz) :=
                SFdiv_core_binary PyFloat.prec PyFloat.emax (Zpos m) e
                  7036874417766400 (-46) in
              binary_round_aux PyFloat.prec PyFloat.emax false mz ez lz).
      rewrite div_core_hundred by lia.
      assert (Hq : 2 ^ 52 <= Zpos m * 2 ^ 53 / 7036874417766400 < 2 ^ 54).
      { split; [apply Z.div_le_lower_bound; lia
               |apply Z.div_lt_upper_bound; lia]. }
      apply round_below_one; [exact Hq| |lia].
      destruct (Zpos m * 2 ^ 53 / 7036874417766400) as [|q|q] eqn:Eq; try lia.
      destruct (Z.eq_dec e (-46)) as [->|Ne].
      * assert (Zpos q < 2 ^ 53).
        { rewrite <- Eq. apply Z.div_lt_upper_bound; lia. }
        rewrite (Zdigits2_bounds q 53) by lia. lia.
      * destruct (Z_lt_le_dec (Zpos q) (2 ^ 53)).
        -- rewrite (Zdigits2_bounds q 53) by lia. lia.
        -- rewrite (Zdigits2_bounds q 54) by lia. lia.
Qed.

Lemma range_In_iff (n : nat) (j : Z) :
  0 <= j < Z.of_nat n -> In j (PyList.range (Z.of_nat n)).
Proof.
  intros H. unfold PyList.range. rewrite Nat2Z.id. apply in_map_iff.
  exists (Z.to_nat j). split; [lia|]. apply in_seq. lia.
Qed.

Lemma percent_accuracies_in_unit :
  forallb (fun n => in_unitb (_move_accuracy (move_with_accuracy (PInt n))))
    (PyList.range 101) = true.
Proof. vm_compute. reflexivity. Qed.

Lemma leb_of_ltb (x y : spec_float) :
  PyFloat.ltb x y = true -> PyFloat.leb y x = false.
Proof.
  intros H.
  assert (Hx : PyFloat.is_nan x = false).
  { destruct x; try reflexivity. discriminate H. }
  assert (Hy : PyFloat.is_nan y = false).
  { destruct y; try reflexivity. destruct x; discriminate H. }
  pose proof (ltb_asym _ _ H) as H'.
  unfold PyFloat.ltb, SFltb in H, H'. unfold PyFloat.leb, SFleb.
  rewrite (SFcompare_key x y Hx Hy) in H.
  rewrite (SFcompare_key y x Hy Hx) in *.
  destruct (lex3 (fkey x) (fkey y)) eqn:E1; try discriminate.
  apply lex3_lt in E1.
  destruct (lex3 (fkey y) (fkey x)) eqn:E2; try reflexivity.
  - exfalso. revert E1 E2. unfold lex3.
    destruct (fkey x) as [[a1 a2] a3], (fkey y) as [[b1 b2] b3].
    destruct (Z.compare_spec b1 a1); destruct (Z.compare_spec b2 a2);
      destruct (Z.compare_spec b3 a3); intros; try discriminate; lia.
  - discriminate.
Qed.

(** C6, as stated, fails: a raw accuracy of 250 is encoded as 2.5, above 1,
    and a raw accuracy of -5 is encoded as -5.0, below 0. *)
Lemma move_accuracy_out_of_unit :
  PyFloat.leb (_move_accuracy (move_with_accuracy (PInt 250))) PyFloat.one
  = false /\
  PyFloat.leb PyFloat.zero (_move_accuracy (move_with_accuracy (PInt (-5))))
  = false.
Proof. split; vm_compute; reflexivity. Qed.

(** C6, amended.  For every raw accuracy that is [None], a boolean, an
    integer from 0 to 100 or a binary64 number from 0.0 to 100.0, the
    encoded accuracy lies in [0, 1]; [None] and 0 (also [False] and the
    float zeros) map to exactly 1.0; a number greater than 1 is read on the
    0..100 scale and divided by 100.0, whatever its size. *)
Theorem move_accuracy_normalized (m : Move.t) :
  let acc := Move.accuracy m in
  let a := _move_accuracy m in
  (acc = PNone \/ acc = PInt 0 \/ acc = PBool false
   \/ (exists s, acc = PFloat (S754_zero s)) -> a = PyFloat.one) /\
  (acc = PBool true -> a = PyFloat.one) /\
  (forall n, acc = PInt n -> 0 <= n <= 100 -> in_unit a) /\
  (forall f, acc = PFloat f ->
             valid_binary PyFloat.prec PyFloat.emax f = true ->
             PyFloat.leb PyFloat.zero f = true ->
             PyFloat.leb f PyFloat.hundred = true -> in_unit a) /\
  (forall n f, acc = PInt n -> 1 < n -> PyFloat.of_int n = Ok f ->
               a = PyFloat.div f PyFloat.hundred) /\
  (forall f, acc = PFloat f -> PyFloat.ltb PyFloat.one f = true ->
             a = PyFloat.div f PyFloat.hundred).
Proof.
  intros acc a. subst a. unfold _move_accuracy. fold acc. clearbody acc.
  assert (Hpct : forall n, 0 <= n <= 100 ->
            in_unit (_move_accuracy (move_with_accuracy (PInt n)))).
  { intros n Hn. pose proof percent_accuracies_in_unit as H.
    rewrite forallb_forall in H. specialize (H n (range_In_iff 101 n ltac:(lia))).
    apply andb_true_iff in H. exact H. }
  assert (Hgt : forall f, PyFloat.ltb PyFloat.one f = true ->
            try_except
              (if acc_is_none_or_zero (PFloat f) then Ok PyFloat.one
               else
                 le <- acc_le_one (PFloat f) ;;
                 v <- (if le : bool then Ok (PFloat f)
                       else acc_div_hundred (PFloat f)) ;;
                 float_of v)
              PyFloat.one
            = PyFloat.div f PyFloat.hundred).
  { intros f H0. simpl.
    assert (E0 : PyFloat.eqb f PyFloat.zero = false).
    { destruct f as [[]|[]| |[] mf ef]; try reflexivity; discriminate H0. }
    rewrite E0, (leb_of_ltb _ _ H0). reflexivity. }
  split; [|split; [|split; [|split; [|split]]]].
  - intros [-> | [-> | [-> | [s ->]]]]; reflexivity.
  - intros ->. reflexivity.
  - intros n -> Hn. exact (Hpct n Hn).
  - intros f -> Hv H0 H100.
    assert (Nf : PyFloat.is_nan f = false).
    { destruct f; try reflexivity. discriminate H0. }
    destruct (PyFloat.leb f PyFloat.one) eqn:H1.
    + simpl. destruct (PyFloat.eqb f PyFloat.zero); [split; reflexivity|].
      rewrite H1. simpl. split; assumption.
    + apply leb_false_ltb in H1; [|exact Nf|reflexivity].
      rewrite (Hgt f H1). apply div_hundred_in_unit; assumption.
  - intros n f -> Hn Hf. simpl. replace (n =? 0) with false by lia.
    replace (n <=? 1) with false by lia. simpl. rewrite Hf. reflexivity.
  - intros f -> H0. exact (Hgt f H0).
Qed.

(** ** Decision validator *)

Lemma eq_str_true (v : Json.t) (s : string) :
  Json.eq_str v s = true <-> v = Json.JStr s.
Proof.
  destruct v; simpl; split; intros H; try discriminate.
  - apply String.eqb_eq in H. congruence.
  - injection H as ->. apply String.eqb_refl.
Qed.

Lemma known_action_eqb (act : Json.t) :
  known_action act <->
  (Json.eq_str act "move" || Json.eq_str act "switch"
   || Json.eq_str act "force_switch") = true.
Proof.
  unfold known_action. rewrite !orb_true_iff, !eq_str_true. tauto.
Qed.

Section Validator.

Variable str_of : Json.t -> string.
Variable d : Json.dict.
Variable rows : list Row.
Variable state : StateSummary.t.

Let act := Json.get d "action".
Let idx := Json.get d "index".
Let i := int_value idx.
Let n_moves := count_kind "move" rows.
Let n_switches := count_kind "switch" rows.
Let out := _validate_decision str_of (Json.JObj d) rows state.

(** C3.  For a decision with one of the three actions and an [int] index,
    and with the forced-switch flag unset, the validator fails with
    [index_out_of_range_move] exactly when the action is [move] or
    [force_switch] and the index is outside [0, n_moves); it fails with
    [index_out_of_range_switch] exactly when the action is [switch] and the
    index is outside [0, n_switches); it passes for every action and index
    in range.  An action outside the three fails with [bad_action] (followed
    by the offending value); otherwise an index that is not an [int] fails
    with [index_not_int].  For Python a JSON boolean is an [int]. *)
Theorem validate_index_range :
  (known_action act -> Json.is_int idx = true ->
   StateSummary.force_switch state = false ->
   (out = (false, "index_out_of_range_move") <->
    (act = Json.JStr "move" \/ act = Json.JStr "force_switch")
    /\ ~ 0 <= i < n_moves) /\
   (out = (false, "index_out_of_range_switch") <->
    act = Json.JStr "switch" /\ ~ 0 <= i < n_switches) /\
   (((act = Json.JStr "move" \/ act = Json.JStr "force_switch")
     /\ 0 <= i < n_moves)
    \/ (act = Json.JStr "switch" /\ 0 <= i < n_switches) ->
    out = (true, ""))) /\
  (~ known_action act -> out = (false, "bad_action:" ++ str_of act)%string) /\
  (known_action act -> Json.is_int idx = false -> out = (false, "index_not_int")).
Proof.
  subst out i n_moves n_switches. unfold _validate_decision. fold act idx.
  generalize (count_kind "move" rows) (count_kind "switch" rows).
  intros nm ns. clearbody act idx.
  split; [|split].
  - intros Hact Hint Hfs. pose proof Hact as Hact'.
    rewrite known_action_eqb in Hact'. rewrite Hact', Hint, Hfs.
    cbn [negb andb].
    destruct (Z.ltb_spec (int_value idx) 0);
      destruct (Z.leb_spec nm (int_value idx));
      destruct (Z.leb_spec ns (int_value idx));
      destruct Hact as [-> | [-> | ->]]; simpl;
      repeat split; intros;
      repeat match goal with
             | H : _ /\ _ |- _ => destruct H
             | H : _ \/ _ |- _ => destruct H
             end;
      try discriminate; try reflexivity; try lia; auto.
  - intros Hact. rewrite known_action_eqb in Hact.
    apply not_true_is_false in Hact. rewrite Hact. reflexivity.
  - intros Hact Hint. rewrite known_action_eqb in Hact.
    rewrite Hact, Hint. reflexivity.
Qed.

(** C4.  With the forced-switch flag set, a decision whose action is [move]
    fails with [must_switch] whatever its [int] index, in range or not: the
    check comes before the range checks.  It comes after the structural
    checks: when the index is not an [int] the failure is
    [index_not_int]. *)
Theorem validate_must_switch :
  act = Json.JStr "move" -> StateSummary.force_switch state = true ->
  (Json.is_int idx = true -> out = (false, "must_switch")) /\
  (Json.is_int idx = false -> out = (false, "index_not_int")).
Proof.
  subst out. unfold _validate_decision. fold act idx. clearbody act idx.
  intros -> Hfs. rewrite Hfs. simpl.
  split; intros ->; reflexivity.
Qed.

End Validator.

(** ** JSON extraction *)

Lemma depth_after_open (l : list ascii) :
  depth_after ("{"%char :: l) = 1 + depth_after l.
Proof. reflexivity. Qed.

Lemma is_open_eq (c : ascii) : is_open c = true <-> c = "{"%char.
Proof. unfold is_open. apply Ascii.eqb_eq. Qed.

Lemma balanced_chunk_sound (cs : list ascii) :
  forall d chunk, 1 <= d -> balanced_chunk d cs = Some chunk ->
  exists post, cs = chunk ++ post /\ d + depth_after chunk = 0 /\
    forall p q, chunk = p ++ q -> q <> [] -> 1 <= d + depth_after p.
Proof.
  induction cs as [|c r IH]; intros d chunk Hd H; simpl in H; [discriminate|].
  assert (Hrec : forall d', 1 <= d' ->
            d' = d + (if is_open c then 1 else if is_close c then -1 else 0) ->
            option_map (cons c) (balanced_chunk d' r) = Some chunk ->
            exists post, c :: r = chunk ++ post /\ d + depth_after chunk = 0 /\
              forall p q, chunk = p ++ q -> q <> [] -> 1 <= d + depth_after p).
  { intros d' Hd' Ed' H'.
    destruct (balanced_chunk d' r) as [ch|] eqn:E; [|discriminate].
    injection H' as <-.
    destruct (IH d' ch Hd' E) as (post & -> & Hdep & Hpre).
    exists post. split; [reflexivity|]. split; [simpl; lia|].
    intros p q Epq Hq. destruct p as [|c' p].
    - simpl. lia.
    - injection Epq as <- Epq. simpl. specialize (Hpre p q Epq Hq). lia. }
  destruct (is_open c) eqn:Eo.
  - apply (Hrec (d + 1)); [lia|lia|exact H].
  - destruct (is_close c) eqn:Ec.
    + destruct (Z.eqb_spec (d - 1) 0) as [E0|N0].
      * injection H as <-. exists r. split; [reflexivity|].
        split; [simpl; rewrite Eo, Ec; lia|].
        intros p q Epq Hq. destruct p as [|c' p]; [simpl; lia|].
        injection Epq as <- Epq. destruct p; [|discriminate].
        simpl in Epq. subst q. congruence.
      * apply (Hrec (d - 1)); [lia|lia|exact H].
    + apply (Hrec d); [lia|lia|exact H].
Qed.

Lemma balanced_chunk_complete (chunk : list ascii) :
  forall d post, 1 <= d -> d + depth_after chunk = 0 ->
  (forall p q, chunk = p ++ q -> q <> [] -> 1 <= d + depth_after p) ->
  balanced_chunk d (chunk ++ post) = Some chunk.
Proof.
  induction chunk as [|c ch IH]; intros d post Hd Hdep Hpre.
  - simpl in Hdep. lia.
  - simpl in Hdep. simpl.
    assert (Hrec : forall d', 1 <= d' ->
              d' = d + (if is_open c then 1 else if is_close c then -1 else 0) ->
              option_map (cons c) (balanced_chunk d' (ch ++ post))
              = Some (c :: ch)).
    { intros d' Hd' Ed'. rewrite (IH d' post Hd'); [reflexivity|lia|].
      intros p q Epq Hq. specialize (Hpre (c :: p) q).
      simpl in Hpre. rewrite Epq in Hpre. specialize (Hpre eq_refl Hq). lia. }
    destruct (is_open c) eqn:Eo.
    + apply Hrec; lia.
    + destruct (is_close c) eqn:Ec.
      * destruct (Z.eqb_spec (d - 1) 0) as [E0|N0].
        -- destruct ch as [|c' ch]; [reflexivity|].
           specialize (Hpre [c] (c' :: ch) eq_refl ltac:(discriminate)).
           simpl in Hpre. rewrite Eo, Ec in Hpre. lia.
        -- apply Hrec; lia.
      * apply Hrec; lia.
Qed.

(** At an opening brace, the inner loop finds exactly the brace-balanced
    chunk that starts there. *)
Lemma balanced_chunk_iff (cs chunk : list ascii) :
  balanced_chunk 0 cs = Some chunk /\ (exists r, cs = "{"%char :: r) <->
  candidate_at cs [] chunk.
Proof.
  split.
  - intros [H (r & ->)]. simpl in H.
    destruct (balanced_chunk 1 r) as [ch|] eqn:E; [|discriminate].
    injection H as <-.
    destruct (balanced_chunk_sound r 1 ch ltac:(lia) E) as (post & -> & Hd & Hp).
    exists post. split; [reflexivity|]. split; [eauto|].
    split; [rewrite depth_after_open; lia|].
    intros p q Epq Np Nq. destruct p as [|c p]; [congruence|].
    injection Epq as <- Epq. rewrite depth_after_open.
    specialize (Hp p q Epq Nq). lia.
  - intros (post & E & (r & ->) & Hd & Hp). simpl in E. subst cs.
    split; [|eauto]. rewrite depth_after_open in Hd.
    change (balanced_chunk 0 ("{"%char :: r ++ post))
      with (option_map (cons "{"%char) (balanced_chunk 1 (r ++ post))).
    rewrite (balanced_chunk_complete r 1 post); [reflexivity|lia|lia|].
    intros p q Epq Nq.
    specialize (Hp ("{"%char :: p) q). rewrite depth_after_open in Hp.
    simpl app in Hp. rewrite Epq in Hp.
    specialize (Hp eq_refl ltac:(discriminate) Nq). lia.
Qed.

Lemma candidate_unique (cs chunk1 chunk2 : list ascii) :
  candidate_at cs [] chunk1 -> candidate_at cs [] chunk2 -> chunk1 = chunk2.
Proof.
  intros H1 H2. apply balanced_chunk_iff in H1, H2.
  destruct H1 as [H1 _], H2 as [H2 _]. congruence.
Qed.

Lemma candidate_head (c : ascii) (r pre chunk : list ascii) :
  candidate_at (c :: r) pre chunk ->
  (pre = [] /\ is_open c = true) \/
  (exists pre0, pre = c :: pre0 /\ candidate_at r pre0 chunk).
Proof.
  intros (post & E & Hb). destruct pre as [|c' pre0].
  - left. split; [reflexivity|]. destruct Hb as ((r' & ->) & _).
    injection E as ->. reflexivity.
  - right. injection E as <- E. exists pre0. split; [reflexivity|].
    exists post. split; assumption.
Qed.

Lemma candidate_tail (c : ascii) (r pre chunk : list ascii) :
  candidate_at r pre chunk -> candidate_at (c :: r) (c :: pre) chunk.
Proof.
  intros (post & -> & Hb). exists post. split; [reflexivity|exact Hb].
Qed.

Section Extract.

Variable json_loads : string -> result Json.t.

Lemma loads_object_dec (s : string) :
  (exists o, json_loads s = Ok (Json.JObj o)) \/
  (forall o, json_loads s <> Ok (Json.JObj o)).
Proof.
  destruct (json_loads s) as [[]|]; try (right; intros o; discriminate).
  left. eauto.
Qed.

Lemma scan_json_cons (c : ascii) (r : list ascii) :
  scan_json json_loads (c :: r) =
  if negb (is_open c) then scan_json json_loads r
  else
    match balanced_chunk 0 (c :: r) with
    | Some chunk =>
        match json_loads (string_of_list_ascii chunk) with
        | Ok (Json.JObj obj) => Ok obj
        | _ => scan_json json_loads r
        end
    | None => scan_json json_loads r
    end.
Proof. reflexivity. Qed.

Lemma scan_json_skip (c : ascii) (r : list ascii) :
  (forall chunk, candidate_at (c :: r) [] chunk -> forall o, ~ decodes_to json_loads chunk o) ->
  scan_json json_loads (c :: r) = scan_json json_loads r.
Proof.
  intros H. rewrite scan_json_cons.
  destruct (is_open c) eqn:Eo; [|reflexivity]. cbn [negb].
  destruct (balanced_chunk 0 (c :: r)) as [chunk|] eqn:E; [|reflexivity].
  assert (Hc : candidate_at (c :: r) [] chunk).
  { apply balanced_chunk_iff. split; [exact E|].
    apply is_open_eq in Eo. subst c. eauto. }
  specialize (H chunk Hc). unfold decodes_to in H.
  destruct (json_loads (string_of_list_ascii chunk)) as [[]|]; try reflexivity.
  exfalso. eapply H. reflexivity.
Qed.

Lemma scan_json_spec (cs : list ascii) :
  match scan_json json_loads cs with
  | Ok o => first_decodable json_loads cs o
  | Raise e => e = ValueError "no_json_object_found" /\ none_decodable json_loads cs
  end.
Proof.
  induction cs as [|c r IH].
  - simpl. split; [reflexivity|].
    intros pre chunk (post & E & (r & ->) & _) o _.
    destruct pre; discriminate.
  - assert (Hhead :
      (exists chunk o, candidate_at (c :: r) [] chunk /\ decodes_to json_loads chunk o) \/
      (forall chunk, candidate_at (c :: r) [] chunk -> forall o, ~ decodes_to json_loads chunk o)).
    { destruct (is_open c) eqn:Eo.
      - destruct (balanced_chunk 0 (c :: r)) as [chunk|] eqn:E.
        + assert (Hc : candidate_at (c :: r) [] chunk).
          { apply balanced_chunk_iff. split; [exact E|].
            apply is_open_eq in Eo. subst c. eauto. }
          destruct (loads_object_dec (string_of_list_ascii chunk)) as [[o Ho]|Hn].
          * left. exists chunk, o. split; assumption.
          * right. intros chunk' Hc' o.
            rewrite (candidate_unique _ _ _ Hc' Hc). apply Hn.
        + right. intros chunk Hc o _. apply balanced_chunk_iff in Hc.
          destruct Hc as [Hc _]. congruence.
      - right. intros chunk Hc o _.
        destruct (candidate_head _ _ _ _ Hc) as [[_ Ho]|(pre0 & Hp & _)];
          congruence. }
    destruct Hhead as [(chunk & o & Hc & Ho)|Hnone].
    + assert (E : scan_json json_loads (c :: r) = Ok o).
      { pose proof Hc as Hc'. apply balanced_chunk_iff in Hc'.
        destruct Hc' as [Hb (r' & Er)]. injection Er as -> <-.
        rewrite scan_json_cons. change (is_open "{"%char) with true.
        cbn [negb]. rewrite Hb. unfold decodes_to in Ho. rewrite Ho.
        reflexivity. }
      rewrite E. exists [], chunk. split; [exact Hc|]. split; [exact Ho|].
      intros pre chunk' _ Hlt. simpl in Hlt. lia.
    + rewrite (scan_json_skip c r Hnone).
      destruct (scan_json json_loads r) as [o|e].
      * destruct IH as (pre & chunk & Hc & Ho & Hmin).
        exists (c :: pre), chunk. split; [apply candidate_tail; exact Hc|].
        split; [exact Ho|].
        intros pre' chunk' Hc' Hlt o'.
        destruct (candidate_head _ _ _ _ Hc') as [[-> _]|(pre0 & -> & Hc0)].
        -- apply Hnone. exact Hc'.
        -- apply (Hmin pre0 chunk' Hc0). simpl in Hlt. lia.
      * destruct IH as [-> Hno]. split; [reflexivity|].
        intros pre chunk Hc o.
        destruct (candidate_head _ _ _ _ Hc) as [[-> _]|(pre0 & -> & Hc0)].
        -- apply Hnone. exact Hc.
        -- apply (Hno pre0 chunk Hc0).
Qed.

Lemma candidate_same_start (t pre1 pre2 chunk1 chunk2 : list ascii) :
  candidate_at t pre1 chunk1 -> candidate_at t pre2 chunk2 ->
  List.length pre1 = List.length pre2 -> chunk1 = chunk2.
Proof.
  intros (post1 & E1 & B1) (post2 & E2 & B2) Hlen.
  assert (pre1 = pre2 /\ chunk1 ++ post1 = chunk2 ++ post2) as [-> E].
  { rewrite E1 in E2. clear E1. revert pre2 Hlen E2.
    induction pre1 as [|a p IH]; intros [|b q] Hlen E; try discriminate.
    - split; [reflexivity|exact E].
    - injection E as -> E. injection Hlen as Hlen.
      destruct (IH q Hlen E) as [-> E']. split; [reflexivity|exact E']. }
  apply (candidate_unique (chunk1 ++ post1)).
  - exists post1. split; [reflexivity|exact B1].
  - exists post2. split; [exact E|exact B2].
Qed.

Lemma first_decodable_unique (t : list ascii) (o1 o2 : Json.dict) :
  first_decodable json_loads t o1 -> first_decodable json_loads t o2 -> o1 = o2.
Proof.
  intros (pre1 & ch1 & C1 & D1 & M1) (pre2 & ch2 & C2 & D2 & M2).
  destruct (Nat.lt_trichotomy (List.length pre1) (List.length pre2)) as [H|[H|H]].
  - exfalso. exact (M2 pre1 ch1 C1 H o1 D1).
  - pose proof (candidate_same_start _ _ _ _ _ C1 C2 H) as E. subst ch2.
    unfold decodes_to in *. congruence.
  - exfalso. exact (M1 pre2 ch2 C2 H o2 D2).
Qed.

End Extract.

(** C2, as stated, fails: in [Example.two_chunks] the first brace-balanced
    chunk, [{x}], does not decode to a JSON object, so the extraction the
    claim describes fails; the code goes on to the next opening brace and
    returns the object of the second chunk. *)
Lemma extract_json_retries_after_bad_chunk :
  first_balanced (list_ascii_of_string (Strip.strip Example.two_chunks))
  = Some (list_ascii_of_string "{x}") /\
  JsonDecoder.loads "{x}" = Raise (ValueError "Expecting value") /\
  spec_extract_json JsonDecoder.loads Example.two_chunks
  = Raise (ValueError "no_json_object_found") /\
  _extract_json JsonDecoder.loads Example.two_chunks
  = Ok [("a", Json.JInt 1)].
Proof. vm_compute. repeat split; reflexivity. Qed.

Lemma str_or_else_empty (s : string) : PyStr.or_else s "" = s.
Proof. destruct s; reflexivity. Qed.

(** C2, amended.  When the whole stripped text decodes to a JSON object,
    that object is returned.  Otherwise the result is the decoding of the
    first brace-balanced chunk, by the position of its opening brace, that
    decodes to a JSON object: a balanced chunk that does not decode is
    skipped and the scan resumes at the next opening brace.  The extraction
    fails, with [no_json_object_found], exactly when no brace-balanced chunk
    decodes to an object.  The text [Sure! {...}] of the specification
    yields its object. *)
Theorem extract_json_first_decodable (json_loads : string -> result Json.t)
  (text : string) :
  let t := Strip.strip text in
  let out := _extract_json json_loads text in
  (forall o, json_loads t = Ok (Json.JObj o) -> out = Ok o) /\
  ((forall o, json_loads t <> Ok (Json.JObj o)) ->
   (forall o, out = Ok o <->
              first_decodable json_loads (list_ascii_of_string t) o) /\
   (out = Raise (ValueError "no_json_object_found") <->
    none_decodable json_loads (list_ascii_of_string t)) /\
   (forall e, out = Raise e -> e = ValueError "no_json_object_found")) /\
  _extract_json JsonDecoder.loads Example.sure
  = Ok [("action", Json.JStr "move"); ("index", Json.JInt 1);
        ("reason", Json.JStr "ok")].
Proof.
  intros t out. subst out. unfold _extract_json.
  rewrite str_or_else_empty. fold t. clearbody t.
  split; [|split].
  - intros o ->. reflexivity.
  - intros Hno.
    assert (E : match json_loads t with
                | Ok (Json.JObj obj) => Ok obj
                | _ => scan_json json_loads (list_ascii_of_string t)
                end = scan_json json_loads (list_ascii_of_string t)).
    { destruct (json_loads t) as [[]|]; try reflexivity.
      exfalso. eapply Hno. reflexivity. }
    rewrite E. clear E.
    pose proof (scan_json_spec json_loads (list_ascii_of_string t)) as H.
    destruct (scan_json json_loads (list_ascii_of_string t)) as [o|e].
    + split; [|split].
      * intros o'. split.
        -- intros E. injection E as <-. exact H.
        -- intros H'. f_equal.
           eapply first_decodable_unique; eassumption.
      * split; [discriminate|].
        intros Hn. exfalso. destruct H as (pre & chunk & Hc & Hd & _).
        exact (Hn pre chunk Hc o Hd).
      * discriminate.
    + destruct H as [-> Hn]. split; [|split].
      * intros o. split; [discriminate|].
        intros (pre & chunk & Hc & Hd & _). exfalso.
        exact (Hn pre chunk Hc o Hd).
      * split; [intros _; exact Hn|reflexivity].
      * intros e E. injection E as <-. reflexivity.
  - vm_compute. reflexivity.
Qed.

(** ** The turn *)

Lemma preserves_ret {A} (v : A) : preserves_battle (ret v).
Proof. intros w. reflexivity. Qed.

Lemma preserves_raise {A} (e : exn) : preserves_battle (@raise A e).
Proof. intros w. reflexivity. Qed.

Lemma preserves_lift {A} (r : result A) : preserves_battle (lift r).
Proof. intros w. reflexivity. Qed.

Lemma preserves_read : preserves_battle read_battle.
Proof. intros w. reflexivity. Qed.

Lemma preserves_print (l : console_line) : preserves_battle (print l).
Proof. intros w. unfold print. destruct (printable l); reflexivity. Qed.

Lemma preserves_when (b : bool) (m : M unit) :
  preserves_battle m -> preserves_battle (when b m).
Proof. intros H. destruct b; [exact H|apply preserves_ret]. Qed.

Lemma preserves_mbind {A B} (m : M A) (k : A -> M B) :
  preserves_battle m -> (forall v, preserves_battle (k v)) ->
  preserves_battle (mbind m k).
Proof.
  intros Hm Hk w. unfold mbind. specialize (Hm w).
  destruct (m w) as [[v|e] w']; simpl in *.
  - rewrite (Hk v w'). exact Hm.
  - exact Hm.
Qed.

Lemma preserves_try_catch {A} (m : M A) (h : exn -> M A) :
  preserves_battle m -> (forall e, preserves_battle (h e)) ->
  preserves_battle (try_catch m h).
Proof.
  intros Hm Hh w. unfold try_catch. specialize (Hm w).
  destruct (m w) as [[v|e] w']; simpl in *.
  - exact Hm.
  - rewrite (Hh e w'). exact Hm.
Qed.

Lemma preserves_trace (cfg : Config.t) (rec : Trace.t) :
  preserves_battle (_trace cfg rec).
Proof.
  intros w. unfold _trace.
  destruct (Config.TRACE_FILE cfg) as [[|c s]|]; try reflexivity.
  destruct (World.disk_ok w && Trace.encodable rec); reflexivity.
Qed.

Lemma preserves_print_compact (cfg : Config.t) (l : console_line) :
  preserves_battle (_print_compact cfg l).
Proof. apply preserves_when, preserves_print. Qed.

Create HintDb frame.

#[local] Hint Resolve preserves_ret preserves_raise preserves_lift
  preserves_read preserves_print preserves_when preserves_trace
  preserves_print_compact : frame.

Ltac frame :=
  repeat first
    [ apply preserves_mbind; [|intros ?]
    | apply preserves_try_catch; [|intros ?]
    | apply preserves_when
    | solve [auto with frame] ].

Section Frame.

Variable cfg : Config.t.
Variable json_loads : string -> result Json.t.
Variable str_of : Json.t -> string.

Lemma preserves_llm_decide (self : LLMPlayer.t) (state : StateSummary.t)
  (rows : list Row) :
  preserves_battle (_llm_decide cfg json_loads str_of self state rows).
Proof.
  unfold _llm_decide.
  destruct (forced_bad_output cfg).
  - frame.
  - destruct (LLMPlayer._client self) as [ask|]; [|frame].
    frame.
    destruct (_validate_decision str_of _ rows state) as [ok err].
    destruct (negb ok); frame.
Qed.

Lemma preserves_decide (self : LLMPlayer.t) (state : StateSummary.t)
  (move_rows : list RowMove.t) (switch_rows : list RowSwitch.t) :
  preserves_battle (decide cfg json_loads str_of self state move_rows switch_rows).
Proof.
  unfold decide. apply preserves_try_catch.
  - apply preserves_llm_decide.
  - intros e. frame.
Qed.

(** C9.  Whatever the configuration, the decoder, the oracle and the
    outcome of the turn, the battle object the world holds after
    [choose_move] is the one it held before: the pipeline writes to the
    console and to the trace file only. *)
Theorem choose_move_preserves_battle (self : LLMPlayer.t) (w : World.t) :
  World.battle (snd (choose_move cfg json_loads str_of self w)) = World.battle w.
Proof.
  revert w. change (preserves_battle (choose_move cfg json_loads str_of self)).
  unfold choose_move.
  apply preserves_mbind; [apply preserves_read|intros battle].
  apply preserves_mbind; [frame|intros _].
  apply preserves_mbind; [frame|intros _].
  apply preserves_mbind; [apply preserves_decide|intros dec].
  apply preserves_mbind; [|intros _; frame].
  destruct (log_enabled cfg); frame.
Qed.

End Frame.

Lemma post_ret {A} (v : A) (Q : result A -> Prop) : Q (Ok v) -> post (ret v) Q.
Proof. intros H w. exact H. Qed.

Lemma post_raise {A} (e : exn) (Q : result A -> Prop) :
  Q (Raise e) -> post (raise e) Q.
Proof. intros H w. exact H. Qed.

Lemma post_lift {A} (r : result A) (Q : result A -> Prop) : Q r -> post (lift r) Q.
Proof. intros H w. exact H. Qed.

Lemma post_print (l : console_line) (Q : result unit -> Prop) :
  printable l = true -> Q (Ok tt) -> post (print l) Q.
Proof. intros Hp H w. unfold print. rewrite Hp. exact H. Qed.

Lemma post_when (b : bool) (m : M unit) (Q : result unit -> Prop) :
  Q (Ok tt) -> post m Q -> post (when b m) Q.
Proof. intros H Hm. destruct b; [exact Hm|apply post_ret, H]. Qed.

Lemma post_trace (cfg : Config.t) (rec : Trace.t) (Q : result unit -> Prop) :
  Q (Ok tt) -> post (_trace cfg rec) Q.
Proof.
  intros H w. unfold _trace.
  destruct (Config.TRACE_FILE cfg) as [[|c s]|]; try exact H.
  destruct (World.disk_ok w && Trace.encodable rec); exact H.
Qed.

Lemma post_print_compact (cfg : Config.t) (l : console_line)
  (Q : result unit -> Prop) :
  printable l = true -> Q (Ok tt) -> post (_print_compact cfg l) Q.
Proof.
  intros Hp H. apply post_when; [exact H|apply post_print; assumption].
Qed.

Lemma post_mbind {A B} (m : M A) (k : A -> M B) (Q : result B -> Prop) :
  post m (fun r => match r with
                   | Ok v => post (k v) Q
                   | Raise e => Q (Raise e)
                   end) ->
  post (mbind m k) Q.
Proof.
  intros H w. unfold mbind. specialize (H w).
  destruct (m w) as [[v|e] w']; simpl in *; [apply H|exact H].
Qed.

Lemma post_try_catch {A} (m : M A) (h : exn -> M A) (Q : result A -> Prop) :
  post m (fun r => match r with
                   | Ok v => Q (Ok v)
                   | Raise e => post (h e) Q
                   end) ->
  post (try_catch m h) Q.
Proof.
  intros H w. unfold try_catch. specialize (H w).
  destruct (m w) as [[v|e] w']; simpl in *; [exact H|apply H].
Qed.

(** A step that only logs: it returns and the rest decides. *)
Lemma post_seq_unit {B} (m : M unit) (k : M B) (Q : result B -> Prop) :
  post m (fun r => r = Ok tt) -> post k Q -> post (mbind m (fun _ => k)) Q.
Proof.
  intros Hm Hk. apply post_mbind. intros w. rewrite (Hm w). exact Hk.
Qed.

Lemma logs_when (b : bool) (m : M unit) :
  post m (fun r => r = Ok tt) -> post (when b m) (fun r => r = Ok tt).
Proof. intros H. apply post_when; [reflexivity|exact H]. Qed.

Lemma logs_print (l : console_line) :
  printable l = true -> post (print l) (fun r => r = Ok tt).
Proof. intros Hp. apply post_print; [exact Hp|reflexivity]. Qed.

Lemma logs_trace (cfg : Config.t) (rec : Trace.t) :
  post (_trace cfg rec) (fun r => r = Ok tt).
Proof. apply post_trace. reflexivity. Qed.

Lemma logs_print_compact (cfg : Config.t) (l : console_line) :
  printable l = true -> post (_print_compact cfg l) (fun r => r = Ok tt).
Proof. intros Hp. apply post_print_compact; [exact Hp|reflexivity]. Qed.

(** *** Decisions *)

Lemma get_item (d : Json.dict) (k : string) (v : Json.t) :
  Json.get d k = v -> v <> Json.JNull -> Json.item d k = Ok v.
Proof.
  induction d as [|[k' v'] d IH]; simpl; intros H N.
  - congruence.
  - destruct (String.eqb k' k); [congruence|auto].
Qed.

Lemma is_int_as_int (v : Json.t) :
  Json.is_int v = true -> Json.as_int v = Ok (int_value v) /\ v <> Json.JNull.
Proof.
  destruct v as [|[]| | | | |]; simpl; intros H; try discriminate;
    split; try reflexivity; discriminate.
Qed.

Lemma known_action_not_null (act : Json.t) :
  known_action act -> act <> Json.JNull.
Proof. intros [-> | [-> | ->]]; discriminate. Qed.

Section Validated.

Variable str_of : Json.t -> string.

(** What a passing validation tells about the decision. *)
Lemma validated_inv (d : Json.dict) (rows : list Row) (state : StateSummary.t) :
  fst (_validate_decision str_of (Json.JObj d) rows state) = true ->
  let act := Json.get d "action" in
  let idx := Json.get d "index" in
  known_action act /\ Json.is_int idx = true /\
  ((act = Json.JStr "move" \/ act = Json.JStr "force_switch") ->
   0 <= int_value idx < count_kind "move" rows) /\
  (act = Json.JStr "switch" -> 0 <= int_value idx < count_kind "switch" rows).
Proof.
  intros H act idx. unfold _validate_decision in H. fold act idx in H.
  destruct (Json.eq_str act "move" || Json.eq_str act "switch"
            || Json.eq_str act "force_switch") eqn:Ea; [|discriminate H].
  cbn [negb] in H.
  destruct (Json.is_int idx) eqn:Ei; [|discriminate H].
  cbn [negb] in H.
  split; [apply known_action_eqb; exact Ea|]. split; [reflexivity|].
  destruct (StateSummary.force_switch state && Json.eq_str act "move");
    [discriminate H|].
  destruct ((Json.eq_str act "move" || Json.eq_str act "force_switch")
            && ((int_value idx <? 0) || (count_kind "move" rows <=? int_value idx)))
    eqn:Em; [discriminate H|].
  destruct (Json.eq_str act "switch"
            && ((int_value idx <? 0) || (count_kind "switch" rows <=? int_value idx)))
    eqn:Es; [discriminate H|].
  split.
  - intros Hact.
    assert (E : (Json.eq_str act "move" || Json.eq_str act "force_switch") = true).
    { rewrite orb_true_iff, !eq_str_true. exact Hact. }
    rewrite E in Em. simpl in Em. apply orb_false_iff in Em. lia.
  - intros Hact. apply eq_str_true in Hact. rewrite Hact in Es.
    simpl in Es. apply orb_false_iff in Es. lia.
Qed.

Lemma validated_wf (d : Json.dict) (rows : list Row) (state : StateSummary.t) :
  fst (_validate_decision str_of (Json.JObj d) rows state) = true ->
  wf_decision d.
Proof.
  intros H. destruct (validated_inv d rows state H) as (Ha & Hi & _).
  destruct (is_int_as_int _ Hi) as [Hv Hn].
  exists (Json.get d "action"), (Json.get d "index"), (int_value (Json.get d "index")).
  repeat split; auto.
  - apply get_item; [reflexivity|apply known_action_not_null, Ha].
  - apply get_item; [reflexivity|exact Hn].
Qed.

End Validated.

Section Turn.

Variable cfg : Config.t.
Variable json_loads : string -> result Json.t.
Variable str_of : Json.t -> string.

(** The oracle stage returns only decisions that passed the validator. *)
Lemma llm_decide_validated (self : LLMPlayer.t) (state : StateSummary.t)
  (rows : list Row) :
  post (_llm_decide cfg json_loads str_of self state rows)
    (fun r => match r with
              | Ok dec =>
                  fst (_validate_decision str_of (Json.JObj dec) rows state) = true
              | Raise _ => True
              end).
Proof.
  unfold _llm_decide.
  destruct (forced_bad_output cfg).
  - apply post_seq_unit; [apply logs_when, logs_print; reflexivity|].
    apply post_seq_unit; [apply logs_trace|].
    apply post_raise. exact I.
  - destruct (LLMPlayer._client self) as [ask|]; [|apply post_raise; exact I].
    apply post_seq_unit; [apply logs_when, logs_print; reflexivity|].
    apply post_mbind, post_lift.
    destruct (ask (LLMPlayer.model self) state rows) as [content|e]; [|exact I].
    apply post_seq_unit; [apply logs_when, logs_print; reflexivity|].
    apply post_mbind, post_try_catch, post_lift.
    destruct (_extract_json json_loads (str_or content "")) as [dec|e].
    + destruct (_validate_decision str_of (Json.JObj dec) rows state)
        as [ok err] eqn:Ev.
      destruct ok; cbn [negb].
      * apply post_seq_unit; [apply logs_trace|].
        apply post_ret. rewrite Ev. reflexivity.
      * apply post_seq_unit; [apply logs_trace|].
        apply post_raise. exact I.
    + apply post_seq_unit; [apply logs_trace|].
      apply post_raise. exact I.
Qed.

Lemma llm_decide_result (self : LLMPlayer.t) (state : StateSummary.t)
  (rows : list Row) :
  post (_llm_decide cfg json_loads str_of self state rows)
    (fun r => r = oracle_result cfg json_loads str_of self state rows).
Proof.
  unfold _llm_decide, oracle_result.
  destruct (forced_bad_output cfg).
  - apply post_seq_unit; [apply logs_when, logs_print; reflexivity|].
    apply post_seq_unit; [apply logs_trace|].
    apply post_raise. reflexivity.
  - destruct (LLMPlayer._client self) as [ask|];
      [|apply post_raise; reflexivity].
    apply post_seq_unit; [apply logs_when, logs_print; reflexivity|].
    apply post_mbind, post_lift.
    destruct (ask (LLMPlayer.model self) state rows) as [content|e];
      [|reflexivity].
    apply post_seq_unit; [apply logs_when, logs_print; reflexivity|].
    apply post_mbind, post_try_catch, post_lift. cbn [Py.bind].
    destruct (_extract_json json_loads (str_or content "")) as [dec|e].
    + cbn [Py.bind].
      destruct (_validate_decision str_of (Json.JObj dec) rows state)
        as [ok err].
      destruct ok; cbn [negb].
      * apply post_seq_unit; [apply logs_trace|].
        apply post_ret. reflexivity.
      * apply post_seq_unit; [apply logs_trace|].
        apply post_raise. reflexivity.
    + apply post_seq_unit; [apply logs_trace|].
      apply post_raise. reflexivity.
Qed.

(** The [except] clause returns what [fallback_decision] computes. *)
Lemma fallback_handler_fst (state : StateSummary.t)
  (move_rows : list RowMove.t) (switch_rows : list RowSwitch.t) (e : exn)
  (w : World.t) :
  fst ((dec <~ lift (fallback_decision state move_rows switch_rows e) ;;
        _trace cfg (Trace.mk "fallback_exception" (StateSummary.turn state)
                      (Some (exn_str e)) None None (Some dec) (Some state) None) ;;;
        ret dec) w)
  = fallback_decision state move_rows switch_rows e.
Proof.
  unfold mbind at 1. unfold lift at 1.
  destruct (fallback_decision state move_rows switch_rows e) as [dec|e'];
    [|reflexivity].
  unfold mbind.
  pose proof (logs_trace cfg
    (Trace.mk "fallback_exception" (StateSummary.turn state)
       (Some (exn_str e)) None None (Some dec) (Some state) None) w) as H.
  simpl in H.
  destruct (_trace cfg _ w) as [r w']. simpl in H. subst r. reflexivity.
Qed.

Lemma decide_on_failure (self : LLMPlayer.t) (state : StateSummary.t)
  (move_rows : list RowMove.t) (switch_rows : list RowSwitch.t)
  (w w1 : World.t) (e : exn) :
  _llm_decide cfg json_loads str_of self state
    (rows_for_llm move_rows switch_rows) w = (Raise e, w1) ->
  fst (decide cfg json_loads str_of self state move_rows switch_rows w)
  = fallback_decision state move_rows switch_rows e.
Proof.
  intros H. unfold decide, try_catch. rewrite H. apply fallback_handler_fst.
Qed.

Lemma decide_on_success (self : LLMPlayer.t) (state : StateSummary.t)
  (move_rows : list RowMove.t) (switch_rows : list RowSwitch.t)
  (w w1 : World.t) (dec : Json.dict) :
  _llm_decide cfg json_loads str_of self state
    (rows_for_llm move_rows switch_rows) w = (Ok dec, w1) ->
  decide cfg json_loads str_of self state move_rows switch_rows w = (Ok dec, w1).
Proof.
  intros H. unfold decide, try_catch. rewrite H. reflexivity.
Qed.

End Turn.

(** *** The fallback decision *)

Lemma nonempty_true {A} (l : list A) : nonempty l = true <-> l <> [].
Proof. destruct l; simpl; split; congruence. Qed.

Lemma decision_wf (action : string) (index : Z) (reason : string) :
  known_action (Json.JStr action) -> wf_decision (decision action index reason).
Proof.
  intros H. exists (Json.JStr action), (Json.JInt index), index.
  unfold decision. simpl. repeat split; auto.
Qed.

Lemma fallback_decision_cases (state : StateSummary.t)
  (move_rows : list RowMove.t) (switch_rows : list RowSwitch.t) (e : exn) :
  (StateSummary.force_switch state = true -> switch_rows <> [] ->
   exists reason,
     fallback_decision state move_rows switch_rows e
     = Ok (decision "switch" 0 reason)) /\
  (~ (StateSummary.force_switch state = true /\ switch_rows <> []) ->
   move_rows <> [] ->
   Forall (fun r => representable (RowMove.base_power r)) move_rows ->
   exists i reason,
     fallback_decision state move_rows switch_rows e
     = Ok (decision "move" i reason) /\ first_best move_rows i) /\
  (~ (StateSummary.force_switch state = true /\ switch_rows <> []) ->
   move_rows = [] ->
   exists reason,
     fallback_decision state move_rows switch_rows e
     = Ok (decision "move" 0 reason)).
Proof.
  unfold fallback_decision. split; [|split].
  - intros Hf Hs. apply nonempty_true in Hs. rewrite Hf, Hs. simpl. eauto.
  - intros Hn Hm Hrep.
    assert (E : StateSummary.force_switch state && nonempty switch_rows = false).
    { destruct (StateSummary.force_switch state) eqn:Ef; [|reflexivity].
      destruct (nonempty switch_rows) eqn:Es; [|reflexivity].
      exfalso. apply Hn. split; [reflexivity|]. apply nonempty_true, Es. }
    rewrite E. pose proof Hm as Hm'. apply nonempty_true in Hm'. rewrite Hm'.
    destruct (best_move_index_spec move_rows Hm Hrep) as (i & Ei & Hi).
    rewrite Ei. simpl. eauto.
  - intros Hn ->.
    assert (E : StateSummary.force_switch state && nonempty switch_rows = false).
    { destruct (StateSummary.force_switch state) eqn:Ef; [|reflexivity].
      destruct (nonempty switch_rows) eqn:Es; [|reflexivity].
      exfalso. apply Hn. split; [reflexivity|]. apply nonempty_true, Es. }
    rewrite E. simpl. eauto.
Qed.

Lemma fallback_decision_wf (state : StateSummary.t)
  (move_rows : list RowMove.t) (switch_rows : list RowSwitch.t) (e : exn) :
  Forall (fun r => representable (RowMove.base_power r)) move_rows ->
  exists dec, fallback_decision state move_rows switch_rows e = Ok dec /\
              wf_decision dec.
Proof.
  intros Hrep.
  destruct (fallback_decision_cases state move_rows switch_rows e)
    as (H1 & H2 & H3).
  assert (Km : known_action (Json.JStr "move")) by (left; reflexivity).
  assert (Ks : known_action (Json.JStr "switch")) by (right; left; reflexivity).
  destruct (StateSummary.force_switch state) eqn:Ef;
    destruct switch_rows as [|s srows];
    destruct move_rows as [|m mrows].
  all: try (destruct H3 as [reason ->];
            [intros [? ?]; congruence|reflexivity|eauto using decision_wf]).
  all: try (destruct H2 as (i & reason & -> & _);
            [intros [? ?]; congruence|discriminate|assumption|
             eauto using decision_wf]).
  all: destruct H1 as [reason ->]; [reflexivity|discriminate|eauto using decision_wf].
Qed.

(** *** Encoded rows *)

Lemma enumerate_from_length {A} (l : list A) (i : Z) :
  List.length (PyList.enumerate_from i l) = List.length l.
Proof.
  revert i. induction l as [|x l IH]; intros i; simpl; [reflexivity|].
  rewrite IH. reflexivity.
Qed.

Lemma encode_moves_length (b : Battle.t) :
  List.length (encode_moves b) = List.length (Battle.available_moves b).
Proof.
  unfold encode_moves, PyList.enumerate.
  rewrite length_map, enumerate_from_length. reflexivity.
Qed.

Lemma encode_switches_length (b : Battle.t) :
  List.length (encode_switches b) = List.length (Battle.available_switches b).
Proof.
  unfold encode_switches, PyList.enumerate.
  rewrite length_map, enumerate_from_length. reflexivity.
Qed.

Lemma nonempty_length {A B} (l : list A) (l' : list B) :
  List.length l = List.length l' -> nonempty l = nonempty l'.
Proof. destruct l, l'; simpl; intros H; congruence. Qed.

Lemma enumerate_from_In {A} (l : list A) (i j : Z) (x : A) :
  In (j, x) (PyList.enumerate_from i l) -> In x l.
Proof.
  revert i. induction l as [|y l IH]; intros i; simpl; [tauto|].
  intros [E|H]; [left; congruence|right; eauto].
Qed.

Lemma encode_moves_kind (b : Battle.t) :
  Forall (fun r => RowMove.kind r = "move") (encode_moves b).
Proof.
  unfold encode_moves. apply Forall_forall. intros r Hr.
  apply in_map_iff in Hr. destruct Hr as ([i m] & <- & _). reflexivity.
Qed.

Lemma encode_switches_kind (b : Battle.t) :
  Forall (fun r => RowSwitch.kind r = "switch") (encode_switches b).
Proof.
  unfold encode_switches. apply Forall_forall. intros r Hr.
  apply in_map_iff in Hr. destruct Hr as ([i p] & <- & _). reflexivity.
Qed.

Lemma encode_moves_base_power (b : Battle.t) :
  Forall (fun m => representable (_move_base_power m)) (Battle.available_moves b) ->
  Forall (fun r => representable (RowMove.base_power r)) (encode_moves b).
Proof.
  intros H. rewrite Forall_forall in H. apply Forall_forall. intros r Hr.
  unfold encode_moves in Hr. apply in_map_iff in Hr.
  destruct Hr as ([i m] & <- & Hin). simpl. apply H.
  eapply enumerate_from_In, Hin.
Qed.

Lemma count_kind_app (k : string) (l1 l2 : list Row) :
  count_kind k (l1 ++ l2) = count_kind k l1 + count_kind k l2.
Proof.
  unfold count_kind. rewrite filter_app, length_app. lia.
Qed.

Lemma count_kind_moves (k : string) (l : list RowMove.t) :
  Forall (fun r => RowMove.kind r = "move") l ->
  count_kind k (map MoveRow l) = if String.eqb "move" k then len l else 0.
Proof.
  unfold count_kind, len. induction 1 as [|r l Hr _ IH].
  - destruct (String.eqb "move" k); reflexivity.
  - cbn [map filter Row_kind]. rewrite Hr.
    destruct (String.eqb "move" k); cbn [List.length]; lia.
Qed.

Lemma count_kind_switches (k : string) (l : list RowSwitch.t) :
  Forall (fun r => RowSwitch.kind r = "switch") l ->
  count_kind k (map SwitchRow l) = if String.eqb "switch" k then len l else 0.
Proof.
  unfold count_kind, len. induction 1 as [|r l Hr _ IH].
  - destruct (String.eqb "switch" k); reflexivity.
  - cbn [map filter Row_kind]. rewrite Hr.
    destruct (String.eqb "switch" k); cbn [List.length]; lia.
Qed.

Lemma count_moves_encoded (b : Battle.t) :
  count_kind "move" (rows_for_llm (encode_moves b) (encode_switches b))
  = len (Battle.available_moves b).
Proof.
  unfold rows_for_llm. rewrite count_kind_app.
  rewrite count_kind_moves by apply encode_moves_kind.
  rewrite count_kind_switches by apply encode_switches_kind.
  simpl. unfold len. rewrite encode_moves_length. lia.
Qed.

(** *** Emission *)

Lemma clamp_index_eq {A} (i : Z) (l : list A) :
  clamp_index i l = Z.max 0 (Z.min i (len l - 1)).
Proof.
  unfold clamp_index, PyInt.max2, PyInt.min2.
  destruct (Z.ltb_spec (len l - 1) i);
    destruct (Z.ltb_spec 0 (len l - 1)); destruct (Z.ltb_spec 0 i); lia.
Qed.

Lemma clamp_index_range {A} (i : Z) (l : list A) :
  l <> [] -> 0 <= clamp_index i l < len l.
Proof.
  intros H. rewrite clamp_index_eq.
  assert (0 < len l) by (unfold len; destruct l; simpl; [congruence|lia]).
  lia.
Qed.

Lemma clamp_index_id {A} (i : Z) (l : list A) :
  0 <= i < len l -> clamp_index i l = i.
Proof. intros H. rewrite clamp_index_eq. lia. Qed.

Lemma emit_order_unfold (dec : Json.dict) (moves : list Move.t)
  (switches : list Pokemon.t) (move_rows : list RowMove.t)
  (switch_rows : list RowSwitch.t) (act idx : Json.t) (i : Z) :
  Json.item dec "action" = Ok act -> Json.item dec "index" = Ok idx ->
  Json.as_int idx = Ok i ->
  emit_order dec moves switches move_rows switch_rows =
  if (Json.eq_str act "move" || Json.eq_str act "force_switch")
     && nonempty move_rows
  then m <- PyList.index moves (clamp_index i moves) ;; Ok (OrderMove m)
  else if Json.eq_str act "switch" && nonempty switch_rows
  then p <- PyList.index switches (clamp_index i switches) ;; Ok (OrderSwitch p)
  else if nonempty moves then m <- PyList.index moves 0 ;; Ok (OrderMove m)
  else Ok RandomOrder.
Proof.
  intros Ha Hi Hv. unfold emit_order. rewrite Ha, Hi. cbn [Py.bind].
  rewrite Hv. cbn [Py.bind].
  destruct ((Json.eq_str act "move" || Json.eq_str act "force_switch")
            && nonempty move_rows); [reflexivity|].
  destruct (Json.eq_str act "switch" && nonempty switch_rows); reflexivity.
Qed.

Lemma index_head {A} (l : list A) :
  l <> [] -> exists x, PyList.index l 0 = Ok x.
Proof.
  intros H. destruct (index_in_range l 0) as (x & E & _).
  - unfold len. destruct l; simpl; [congruence|lia].
  - eauto.
Qed.

Lemma emit_order_total (b : Battle.t) (dec : Json.dict) :
  wf_decision dec ->
  exists o,
    emit_order dec (Battle.available_moves b) (Battle.available_switches b)
      (encode_moves b) (encode_switches b) = Ok o /\
    (Battle.available_moves b = [] -> Battle.available_switches b = [] ->
     o = RandomOrder).
Proof.
  intros (act & idx & i & Ha & _ & Hi & Hv).
  rewrite (emit_order_unfold _ _ _ _ _ _ _ _ Ha Hi Hv).
  rewrite (nonempty_length _ _ (encode_moves_length b)).
  rewrite (nonempty_length _ _ (encode_switches_length b)).
  destruct (Battle.available_moves b) as [|m ms] eqn:Em;
    destruct (Battle.available_switches b) as [|p ps] eqn:Es;
    cbn [nonempty]; rewrite ?andb_false_r, ?andb_true_r.
  - eexists. split; [reflexivity|auto].
  - destruct (Json.eq_str act "switch").
    + destruct (index_in_range (p :: ps) (clamp_index i (p :: ps)))
        as (x & -> & _); [apply clamp_index_range; discriminate|].
      eexists. split; [reflexivity|discriminate].
    + eexists. split; [reflexivity|discriminate].
  - destruct (Json.eq_str act "move" || Json.eq_str act "force_switch").
    + destruct (index_in_range (m :: ms) (clamp_index i (m :: ms)))
        as (x & -> & _); [apply clamp_index_range; discriminate|].
      eexists. split; [reflexivity|discriminate].
    + eexists. split; [reflexivity|discriminate].
  - destruct (Json.eq_str act "move" || Json.eq_str act "force_switch").
    + destruct (index_in_range (m :: ms) (clamp_index i (m :: ms)))
        as (x & -> & _); [apply clamp_index_range; discriminate|].
      eexists. split; [reflexivity|discriminate].
    + destruct (Json.eq_str act "switch").
      * destruct (index_in_range (p :: ps) (clamp_index i (p :: ps)))
          as (x & -> & _); [apply clamp_index_range; discriminate|].
        eexists. split; [reflexivity|discriminate].
      * eexists. split; [reflexivity|discriminate].
Qed.

Lemma decide_line_total (dec : Json.dict) (move_rows : list RowMove.t)
  (switch_rows : list RowSwitch.t) :
  wf_decision dec -> exists l, decide_line dec move_rows switch_rows = Ok l.
Proof.
  intros (act & idx & i & Ha & _ & Hi & Hv).
  unfold decide_line. rewrite Ha, Hi. simpl. rewrite Hv. simpl.
  destruct (Json.eq_str act "move").
  - destruct ((0 <=? i) && (i <? len move_rows)) eqn:E.
    + destruct (index_in_range move_rows i) as (x & -> & _); [lia|].
      simpl. eauto.
    + simpl. eauto.
  - destruct ((0 <=? i) && (i <? len switch_rows)) eqn:E.
    + destruct (index_in_range switch_rows i) as (x & -> & _); [lia|].
      simpl. eauto.
    + simpl. eauto.
Qed.

Section Claims.

Variable cfg : Config.t.
Variable json_loads : string -> result Json.t.
Variable str_of : Json.t -> string.

(** C1.  The oracle stage fails when the bad output is forced, when no
    client is configured, when the response holds no JSON object, and when
    the decision does not validate.  On every turn on which it fails, the
    decision is the fallback, by a fixed priority: [switch] with index 0
    when the forced-switch flag is set and there is a switch candidate;
    otherwise [move] with the first index of greatest score when there is a
    move candidate (the scores being computable); otherwise [move] with
    index 0. *)
Theorem fallback_priority (self : LLMPlayer.t) (state : StateSummary.t)
  (move_rows : list RowMove.t) (switch_rows : list RowSwitch.t)
  (w : World.t) :
  let rows := rows_for_llm move_rows switch_rows in
  let oracle := fst (_llm_decide cfg json_loads str_of self state rows w) in
  let out :=
    fst (decide cfg json_loads str_of self state move_rows switch_rows w) in
  (forced_bad_output cfg = true ->
   oracle = Raise (ValueError "forced_bad_output")) /\
  (forced_bad_output cfg = false -> LLMPlayer._client self = None ->
   oracle = Raise (RuntimeError "no_openai_client")) /\
  (forall ask content e,
     forced_bad_output cfg = false -> LLMPlayer._client self = Some ask ->
     ask (LLMPlayer.model self) state rows = Ok content ->
     _extract_json json_loads (str_or content "") = Raise e ->
     oracle = Raise e) /\
  (forall ask content dec err,
     forced_bad_output cfg = false -> LLMPlayer._client self = Some ask ->
     ask (LLMPlayer.model self) state rows = Ok content ->
     _extract_json json_loads (str_or content "") = Ok dec ->
     _validate_decision str_of (Json.JObj dec) rows state = (false, err) ->
     oracle = Raise (ValueError err)) /\
  (forall e, oracle = Raise e ->
     (StateSummary.force_switch state = true -> switch_rows <> [] ->
      exists dec, out = Ok dec /\ Json.get dec "action" = Json.JStr "switch"
                  /\ Json.get dec "index" = Json.JInt 0) /\
     (~ (StateSummary.force_switch state = true /\ switch_rows <> []) ->
      move_rows <> [] ->
      Forall (fun r => representable (RowMove.base_power r)) move_rows ->
      exists dec i, out = Ok dec /\ Json.get dec "action" = Json.JStr "move"
                    /\ Json.get dec "index" = Json.JInt i
                    /\ first_best move_rows i) /\
     (~ (StateSummary.force_switch state = true /\ switch_rows <> []) ->
      move_rows = [] ->
      exists dec, out = Ok dec /\ Json.get dec "action" = Json.JStr "move"
                  /\ Json.get dec "index" = Json.JInt 0)).
Proof.
  intros rows oracle out.
  assert (Ho : oracle = oracle_result cfg json_loads str_of self state rows)
    by apply llm_decide_result.
  split; [|split; [|split; [|split]]].
  - intros Hf. rewrite Ho. unfold oracle_result. rewrite Hf. reflexivity.
  - intros Hf Hc. rewrite Ho. unfold oracle_result. rewrite Hf, Hc.
    reflexivity.
  - intros ask content e Hf Hc Ha He. rewrite Ho. unfold oracle_result.
    rewrite Hf, Hc, Ha. cbn [Py.bind]. rewrite He. reflexivity.
  - intros ask content dec err Hf Hc Ha He Hv. rewrite Ho.
    unfold oracle_result. rewrite Hf, Hc, Ha. cbn [Py.bind]. rewrite He.
    cbn [Py.bind]. rewrite Hv. reflexivity.
  - intros e He. subst out oracle.
    assert (H : _llm_decide cfg json_loads str_of self state rows w
                = (Raise e, snd (_llm_decide cfg json_loads str_of self state rows w))).
    { rewrite <- He. apply surjective_pairing. }
    rewrite (decide_on_failure _ _ _ _ _ _ _ _ _ _ H).
    destruct (fallback_decision_cases state move_rows switch_rows e)
      as (H1 & H2 & H3).
    split; [|split].
    + intros Hf Hs. destruct (H1 Hf Hs) as [reason ->]. eexists.
      split; [reflexivity|]. split; reflexivity.
    + intros Hn Hm Hrep. destruct (H2 Hn Hm Hrep) as (i & reason & -> & Hi).
      eexists. exists i. split; [reflexivity|].
      split; [reflexivity|]. split; [reflexivity|exact Hi].
    + intros Hn Hm. destruct (H3 Hn Hm) as [reason ->]. eexists.
      split; [reflexivity|]. split; reflexivity.
Qed.

(** C7.  The claim fails on the code.  With the log mode [compact], an
    answer of the oracle whose reason is an unpaired surrogate escape is
    decoded and passes the validator; the [DECIDE] print, which no [try]
    guards, raises [UnicodeEncodeError], and so does [choose_move].  With
    the log mode [none] the same turn orders the move of the answer.  And
    whatever the log mode, a base power too large for a float raises
    [OverflowError] inside the [except] clause of a turn without oracle. *)
Theorem choose_move_raises :
  fst (choose_move Example.cfg JsonDecoder.loads Example.str_of
         (Example.scripted Sample.lone_surrogate) Example.world)
  = Raise (UnicodeEncodeError "surrogates not allowed") /\
  fst (choose_move Sample.quiet JsonDecoder.loads Example.str_of
         (Example.scripted Sample.lone_surrogate) Example.world)
  = Ok (OrderMove Example.thunder) /\
  fst (choose_move Sample.quiet JsonDecoder.loads Example.str_of
         Example.offline (World.mk Sample.huge_battle [] [] true))
  = Raise (OverflowError "int too large to convert to float").
Proof. vm_compute. repeat split; reflexivity. Qed.

End Claims.

(** C8.  For a decision whose action and [int] index can be read, as every
    final decision can: with action [move] or [force_switch] and a legal
    move, the order is built from the original legal-moves list at the
    index clamped into [0, len(moves)); with action [switch] and a legal
    switch, from the original legal-switches list at the index clamped into
    [0, len(switches)); and in every case the emission returns an order, so
    no list is indexed out of bounds. *)
Theorem emit_order_clamped (b : Battle.t) (dec : Json.dict)
  (act idx : Json.t) (i : Z) :
  let moves := Battle.available_moves b in
  let switches := Battle.available_switches b in
  let out := emit_order dec moves switches (encode_moves b) (encode_switches b) in
  Json.item dec "action" = Ok act -> Json.item dec "index" = Ok idx ->
  Json.as_int idx = Ok i ->
  ((act = Json.JStr "move" \/ act = Json.JStr "force_switch") ->
   moves <> [] ->
   0 <= clamp_index i moves < len moves /\
   clamp_index i moves = Z.max 0 (Z.min i (len moves - 1)) /\
   exists m, nth_error moves (Z.to_nat (clamp_index i moves)) = Some m /\
             out = Ok (OrderMove m)) /\
  (act = Json.JStr "switch" -> switches <> [] ->
   0 <= clamp_index i switches < len switches /\
   clamp_index i switches = Z.max 0 (Z.min i (len switches - 1)) /\
   exists p, nth_error switches (Z.to_nat (clamp_index i switches)) = Some p /\
             out = Ok (OrderSwitch p)) /\
  (exists o, out = Ok o).
Proof.
  intros moves switches out Ha Hi Hv. subst out.
  rewrite (emit_order_unfold _ _ _ _ _ _ _ _ Ha Hi Hv).
  rewrite (nonempty_length _ _ (encode_moves_length b)).
  rewrite (nonempty_length _ _ (encode_switches_length b)).
  fold moves switches.
  split; [|split].
  - intros Hact Hne.
    assert (E : (Json.eq_str act "move" || Json.eq_str act "force_switch") = true)
      by (rewrite orb_true_iff, !eq_str_true; exact Hact).
    rewrite E. apply nonempty_true in Hne. rewrite Hne. cbn [andb].
    apply nonempty_true in Hne.
    pose proof (clamp_index_range i moves Hne) as Hr.
    split; [exact Hr|]. split; [apply clamp_index_eq|].
    destruct (index_in_range moves _ Hr) as (m & -> & En). eauto.
  - intros -> Hne. simpl Json.eq_str. cbn [orb andb].
    apply nonempty_true in Hne. rewrite Hne. cbn [andb].
    apply nonempty_true in Hne.
    pose proof (clamp_index_range i switches Hne) as Hr.
    split; [exact Hr|]. split; [apply clamp_index_eq|].
    destruct (index_in_range switches _ Hr) as (p & -> & En). eauto.
  - destruct ((Json.eq_str act "move" || Json.eq_str act "force_switch")
              && nonempty moves) eqn:E1.
    + apply andb_true_iff in E1. destruct E1 as [_ Hne].
      apply nonempty_true in Hne.
      destruct (index_in_range moves _ (clamp_index_range i moves Hne))
        as (m & -> & _). simpl. eauto.
    + destruct (Json.eq_str act "switch" && nonempty switches) eqn:E2.
      * apply andb_true_iff in E2. destruct E2 as [_ Hne].
        apply nonempty_true in Hne.
        destruct (index_in_range switches _ (clamp_index_range i switches Hne))
          as (p & -> & _). simpl. eauto.
      * destruct (nonempty moves) eqn:E3; [|eauto].
        apply nonempty_true in E3.
        destruct (index_head moves E3) as (m & ->). simpl. eauto.
Qed.

Lemma item_set_same (d : Json.dict) (k : string) (v : Json.t) :
  Json.item (Json.set d k v) k = Ok v.
Proof.
  induction d as [|[k' v'] d IH]; simpl.
  - rewrite String.eqb_refl. reflexivity.
  - destruct (String.eqb k' k) eqn:E; simpl; rewrite E; [reflexivity|exact IH].
Qed.

Lemma item_set_other (d : Json.dict) (k k2 : string) (v : Json.t) :
  k <> k2 -> Json.item (Json.set d k v) k2 = Json.item d k2.
Proof.
  intros N. induction d as [|[k' v'] d IH]; simpl.
  - apply String.eqb_neq in N. rewrite N. reflexivity.
  - destruct (String.eqb k' k) eqn:E; simpl.
    + apply String.eqb_eq in E. subst k'.
      apply String.eqb_neq in N. rewrite N. reflexivity.
    + rewrite IH. reflexivity.
Qed.

(** C10.  A decision with action [force_switch] that passes the validator
    (its index was checked against the move candidates) is emitted as a
    move order, built from the legal-moves list at that index: exactly the
    order the same decision with action [move] yields. *)
Theorem force_switch_emits_move (str_of : Json.t -> string) (b : Battle.t)
  (state : StateSummary.t) (d : Json.dict) :
  let moves := Battle.available_moves b in
  let switches := Battle.available_switches b in
  let move_rows := encode_moves b in
  let switch_rows := encode_switches b in
  Json.get d "action" = Json.JStr "force_switch" ->
  _validate_decision str_of (Json.JObj d)
    (rows_for_llm move_rows switch_rows) state = (true, "") ->
  exists m,
    nth_error moves (Z.to_nat (int_value (Json.get d "index"))) = Some m /\
    emit_order d moves switches move_rows switch_rows = Ok (OrderMove m) /\
    emit_order (Json.set d "action" (Json.JStr "move")) moves switches
      move_rows switch_rows = Ok (OrderMove m).
Proof.
  intros moves switches move_rows switch_rows Hact Hv.
  assert (Hv' : fst (_validate_decision str_of (Json.JObj d)
                       (rows_for_llm move_rows switch_rows) state) = true)
    by (rewrite Hv; reflexivity).
  destruct (validated_inv str_of d _ state Hv') as (_ & Hint & Hr & _).
  specialize (Hr (or_intror Hact)).
  subst move_rows switch_rows. rewrite count_moves_encoded in Hr.
  fold moves in Hr.
  destruct (is_int_as_int _ Hint) as [Has Hnn].
  assert (Ha : Json.item d "action" = Ok (Json.JStr "force_switch"))
    by (apply get_item; [exact Hact|discriminate]).
  assert (Hi : Json.item d "index" = Ok (Json.get d "index"))
    by (apply get_item; [reflexivity|exact Hnn]).
  assert (Hne : nonempty moves = true).
  { apply nonempty_true. intros E. rewrite E in Hr. unfold len in Hr.
    simpl in Hr. lia. }
  destruct (index_in_range moves _ Hr) as (m & Em & En).
  exists m. split; [exact En|]. split.
  - rewrite (emit_order_unfold _ _ _ _ _ _ _ _ Ha Hi Has).
    rewrite (nonempty_length _ _ (encode_moves_length b)). fold moves.
    rewrite Hne. simpl Json.eq_str. cbn [orb andb].
    rewrite (clamp_index_id _ _ Hr), Em. reflexivity.
  - assert (Ha2 : Json.item (Json.set d "action" (Json.JStr "move")) "action"
                  = Ok (Json.JStr "move")) by apply item_set_same.
    assert (Hi2 : Json.item (Json.set d "action" (Json.JStr "move")) "index"
                  = Ok (Json.get d "index")).
    { rewrite item_set_other by discriminate. exact Hi. }
    rewrite (emit_order_unfold _ _ _ _ _ _ _ _ Ha2 Hi2 Has).
    rewrite (nonempty_length _ _ (encode_moves_length b)). fold moves.
    rewrite Hne. simpl Json.eq_str. cbn [orb andb].
    rewrite (clamp_index_id _ _ Hr), Em. reflexivity.
Qed.

(** * Further properties

    What the code shows beyond the statements of the specification: the
    rows the encoder builds, the exact value of the health percentage, the
    complete acceptance condition of the validator, the order a turn ends
    in, and what a turn does to the console and to the trace file. *)

(** ** Row encoder, continued *)

(** *** Positions *)

Lemma enumerate_from_nth {A} (l : list A) (i : Z) (k : nat) (x : A) :
  nth_error l k = Some x ->
  nth_error (PyList.enumerate_from i l) k = Some (i + Z.of_nat k, x).
Proof.
  revert i k. induction l as [|y l IH]; intros i k H.
  - destruct k; discriminate.
  - destruct k as [|k]; simpl in *.
    + injection H as ->. f_equal. f_equal. lia.
    + rewrite (IH (i + 1) k H). f_equal. f_equal. lia.
Qed.

Lemma index_nth {A} (l : list A) (i : Z) (x : A) :
  0 <= i -> nth_error l (Z.to_nat i) = Some x -> PyList.index l i = Ok x.
Proof.
  intros Hi H.
  assert (Hlt : (Z.to_nat i < List.length l)%nat)
    by (apply nth_error_Some; congruence).
  destruct (index_in_range l i) as (y & E & En); [unfold len; lia|].
  congruence.
Qed.

Lemma index_In {A} (l : list A) (i : Z) (x : A) :
  PyList.index l i = Ok x -> In x l.
Proof.
  unfold PyList.index. cbv zeta.
  destruct ((_ <? 0) || (_ <=? _)); [discriminate|].
  destruct (nth_error l _) as [y|] eqn:E; [|discriminate].
  intros H. injection H as <-. eapply nth_error_In, E.
Qed.

(** X1.  The candidate table follows the lists of the battle client: there
    are as many move rows as legal moves and as many switch rows as legal
    switches, and the row at position [i] is the encoding of the move (of
    the team member) at position [i], carries the index [i] and the kind of
    its table.  Indices are contiguous from 0 within each kind. *)
Theorem encoded_rows_positional (b : Battle.t) (i : Z) :
  let moves := Battle.available_moves b in
  let switches := Battle.available_switches b in
  len (encode_moves b) = len moves /\
  len (encode_switches b) = len switches /\
  (0 <= i < len moves ->
   exists m r, PyList.index moves i = Ok m /\
               PyList.index (encode_moves b) i = Ok r /\
               r = _move_row i m (Battle.active_pokemon b) /\
               RowMove.kind r = "move" /\ RowMove.index r = i) /\
  (0 <= i < len switches ->
   exists p r, PyList.index switches i = Ok p /\
               PyList.index (encode_switches b) i = Ok r /\
               r = _switch_row i p /\
               RowSwitch.kind r = "switch" /\ RowSwitch.index r = i).
Proof.
  intros moves switches.
  split; [unfold len; rewrite encode_moves_length; reflexivity|].
  split; [unfold len; rewrite encode_switches_length; reflexivity|].
  split.
  - intros Hi. destruct (index_in_range moves i Hi) as (m & Em & En).
    exists m, (_move_row i m (Battle.active_pokemon b)).
    split; [exact Em|]. split; [|repeat split].
    apply index_nth; [lia|]. unfold encode_moves, PyList.enumerate.
    rewrite nth_error_map. fold moves.
    rewrite (enumerate_from_nth moves 0 _ m En). simpl.
    rewrite Z2Nat.id by lia. reflexivity.
  - intros Hi. destruct (index_in_range switches i Hi) as (p & Ep & En).
    exists p, (_switch_row i p).
    split; [exact Ep|]. split; [|repeat split].
    apply index_nth; [lia|]. unfold encode_switches, PyList.enumerate.
    rewrite nth_error_map. fold switches.
    rewrite (enumerate_from_nth switches 0 _ p En). simpl.
    rewrite Z2Nat.id by lia. reflexivity.
Qed.

(** *** Health *)

Lemma clamp_percent (n : Z) : 0 <= PyInt.max2 0 (PyInt.min2 100 n) <= 100.
Proof.
  unfold PyInt.max2, PyInt.min2.
  destruct (Z.ltb_spec n 100).
  - destruct (Z.ltb_spec 0 n); lia.
  - simpl. lia.
Qed.

(** X2.  The health percentage lies between 0 and 100 whatever the hit
    points the battle client reports; it is 100 when the current or the
    maximal hit points are unknown or the maximum is 0, and 0 when the
    current hit points are 0. *)
Theorem hp_pct_range (p : Pokemon.t) :
  0 <= _hp_pct p <= 100 /\
  (Pokemon.current_hp p = None \/ Pokemon.max_hp p = None
   \/ Pokemon.max_hp p = Some 0 -> _hp_pct p = 100) /\
  (forall mx, Pokemon.current_hp p = Some 0 -> Pokemon.max_hp p = Some mx ->
              mx <> 0 -> _hp_pct p = 0).
Proof.
  unfold _hp_pct. split; [|split].
  - destruct (Pokemon.current_hp p) as [cur|]; [|simpl; lia].
    destruct (Pokemon.max_hp p) as [mx|]; [|simpl; lia].
    destruct (mx =? 0); [simpl; lia|].
    destruct (PyFloat.int_true_div (100 * cur) mx) as [q|e]; [|simpl; lia].
    cbn [Py.bind].
    destruct (PyFloat.round_half_even q) as [n|e]; [|simpl; lia].
    cbn [Py.bind try_except]. apply clamp_percent.
  - intros [H|[H|H]].
    + rewrite H. reflexivity.
    + rewrite H. destruct (Pokemon.current_hp p); reflexivity.
    + rewrite H. destruct (Pokemon.current_hp p); reflexivity.
  - intros mx Hc Hm Hne. rewrite Hc, Hm.
    replace (mx =? 0) with false by lia.
    unfold PyFloat.int_true_div. replace (mx =? 0) with false by lia.
    reflexivity.
Qed.

(** *** Rounding a fraction to the nearest integer *)

Lemma nearest_even_qr (q r d : Z) :
  0 <= r < d -> nearest_even (q * d + r) d = round_qr q r d.
Proof.
  intros H. unfold nearest_even.
  assert (Hq : (q * d + r) / d = q)
    by (symmetry; apply Z.div_unique with r; lia).
  assert (Hr : (q * d + r) mod d = r)
    by (symmetry; apply Z.mod_unique with q; lia).
  rewrite Hq, Hr. reflexivity.
Qed.

Lemma nearest_even_below (a b m : Z) :
  0 < b -> m * b <= a -> 2 * (a - m * b) < b -> nearest_even a b = m.
Proof.
  intros Hb H1 H2. replace a with (m * b + (a - m * b)) by lia.
  rewrite nearest_even_qr by lia. unfold round_qr.
  destruct (Z.compare_spec (2 * (a - m * b)) b); lia.
Qed.

Lemma nearest_even_above (a b m : Z) :
  0 < b -> a < (m + 1) * b -> b < 2 * (a - m * b) -> nearest_even a b = m + 1.
Proof.
  intros Hb H1 H2. replace a with (m * b + (a - m * b)) by lia.
  rewrite nearest_even_qr by lia. unfold round_qr.
  destruct (Z.compare_spec (2 * (a - m * b)) b); lia.
Qed.

Lemma nearest_even_tie (a b m : Z) :
  0 < b -> 2 * (a - m * b) = b ->
  nearest_even a b = if Z.even m then m else m + 1.
Proof.
  intros Hb H. replace a with (m * b + (a - m * b)) by lia.
  rewrite nearest_even_qr by lia. unfold round_qr.
  destruct (Z.compare_spec (2 * (a - m * b)) b); first [reflexivity|lia].
Qed.

Lemma nearest_even_exact (m b : Z) : 0 < b -> nearest_even (m * b) b = m.
Proof. intros Hb. apply nearest_even_below; lia. Qed.

Lemma nearest_even_bounds (a b : Z) :
  0 < b -> 2 * a - b <= 2 * (nearest_even a b * b) <= 2 * a + b.
Proof.
  intros Hb. unfold nearest_even, round_qr.
  pose proof (Z.div_mod a b ltac:(lia)) as E.
  pose proof (Z.mod_pos_bound a b Hb) as Hr.
  destruct (Z.compare_spec (2 * (a mod b)) b); [destruct (Z.even (a / b))| |];
    nia.
Qed.

Lemma nearest_even_scale (a b c : Z) :
  0 < b -> 0 < c -> nearest_even (a * c) (b * c) = nearest_even a b.
Proof.
  intros Hb Hc. unfold nearest_even.
  rewrite Z.div_mul_cancel_r by lia.
  rewrite Z.mul_mod_distr_r by lia.
  unfold round_qr.
  destruct (Z.compare_spec (2 * (a mod b)) b);
    destruct (Z.compare_spec (2 * (a mod b * c)) (b * c));
    try reflexivity; nia.
Qed.

(** Rounding to a multiple of [1 / T], then to an integer, is rounding to an
    integer, when the first rounding is finer than the denominator. *)
Lemma nearest_even_twice (n d T : Z) :
  0 <= n -> 0 < d -> d < T -> Z.even T = true ->
  nearest_even (nearest_even (n * T) d) T = nearest_even n d.
Proof.
  intros Hn Hd HT Hev.
  set (M := nearest_even (n * T) d).
  pose proof (nearest_even_bounds (n * T) d Hd) as HM. fold M in HM.
  pose proof (Z.div_mod n d ltac:(lia)) as E.
  pose proof (Z.mod_pos_bound n d Hd) as Hr.
  set (k := n / d) in *. set (r := n mod d) in *.
  assert (HT2 : T = 2 * (T / 2)).
  { apply Z.even_spec in Hev. destruct Hev as [h ->].
    rewrite Z.mul_comm, Z.div_mul by lia. lia. }
  set (h := T / 2) in *.
  unfold nearest_even at 2. fold k r. unfold round_qr.
  destruct (Z.compare_spec (2 * r) d) as [Heq|Hlt|Hgt].
  - (* a tie *)
    assert (EM : M = k * T + h).
    { subst M. replace (n * T) with ((k * T + h) * d) by nia.
      apply nearest_even_exact. exact Hd. }
    rewrite EM. rewrite (nearest_even_tie (k * T + h) T k) by lia.
    reflexivity.
  - apply nearest_even_below; [lia| |].
    + assert (k * T * d <= M * d + d) by nia.
      assert (k * T < M + 1) by nia. lia.
    + assert (2 * (M * d) < (2 * k + 1) * T * d) by nia.
      nia.
  - assert (Hup : M <= (k + 1) * T).
    { assert (2 * (M * d) < 2 * ((k + 1) * T + 1) * d) by nia. nia. }
    assert (Hlo : (2 * k + 1) * T < 2 * M).
    { assert ((2 * k + 1) * T * d < 2 * (M * d)) by nia. nia. }
    destruct (Z.eq_dec M ((k + 1) * T)) as [EM|NM].
    + rewrite EM. apply nearest_even_exact. lia.
    + apply nearest_even_above; lia.
Qed.

Lemma nearest_even_percent (n d : Z) :
  0 <= n -> 0 < d -> n <= 100 * d -> 0 <= nearest_even n d <= 100.
Proof.
  intros Hn Hd Hle. pose proof (nearest_even_bounds n d Hd) as Hb.
  destruct (Z.eq_dec n (100 * d)) as [->|N].
  - rewrite nearest_even_exact; lia.
  - split; nia.
Qed.

(** *** The quotient of two integers, as a float *)

Lemma new_location_zero (d : Z) : new_location d 0 = loc_Exact.
Proof. unfold new_location. destruct (Z.even d); reflexivity. Qed.

Lemma new_location_inexact (d r : Z) :
  0 < r < d ->
  new_location d r
  = loc_Inexact (match 2 * r ?= d with
                 | Lt => Lt
                 | Eq => Eq
                 | Gt => Gt
                 end).
Proof.
  intros H. unfold new_location.
  change (IntDef.Z.even d) with (Z.even d).
  destruct (Z.even d) eqn:Ev.
  - unfold new_location_even.
    change (IntDef.Z.eqb r 0) with (r =? 0).
    change (IntDef.Z.compare (IntDef.Z.mul 2 r) d) with (2 * r ?= d).
    replace (r =? 0) with false by lia.
    destruct (2 * r ?= d); reflexivity.
  - unfold new_location_odd.
    change (IntDef.Z.eqb r 0) with (r =? 0).
    change (IntDef.Z.compare (IntDef.Z.add (IntDef.Z.mul 2 r) 1) d)
      with (2 * r + 1 ?= d).
    replace (r =? 0) with false by lia.
    assert (Hodd : Z.odd d = true) by (rewrite <- Z.negb_even, Ev; reflexivity).
    apply Z.odd_spec in Hodd. destruct Hodd as [h Hh].
    destruct (Z.compare_spec (2 * r + 1) d);
      destruct (Z.compare_spec (2 * r) d); try reflexivity; lia.
Qed.

(** Rounding the quotient [q] by the position of its remainder [r]. *)
Lemma round_new_location (q d r : Z) :
  0 <= r < d ->
  round_nearest_even q (new_location d r) = round_qr q r d.
Proof.
  intros H. unfold round_qr. destruct (Z.eq_dec r 0) as [->|N].
  - rewrite new_location_zero. cbn [round_nearest_even]. change (2 * 0) with 0.
    destruct (Z.compare_spec 0 d); first [reflexivity|lia].
  - rewrite new_location_inexact by lia.
    destruct (2 * r ?= d); reflexivity.
Qed.

Lemma xI_div_mod (p : positive) :
  Zpos p~1 / 2 = Zpos p /\ Zpos p~1 mod 2 = 1.
Proof.
  rewrite Pos2Z.inj_xI. split.
  - symmetry. apply Z.div_unique with 1; lia.
  - symmetry. apply Z.mod_unique with (Zpos p); lia.
Qed.

Lemma xO_div_mod (p : positive) :
  Zpos p~0 / 2 = Zpos p /\ Zpos p~0 mod 2 = 0.
Proof.
  rewrite Pos2Z.inj_xO. split.
  - symmetry. apply Z.div_unique with 0; lia.
  - symmetry. apply Z.mod_unique with (Zpos p); lia.
Qed.

(** The same after one more digit is shifted out. *)
Lemma round_shifted_location (q : positive) (d r : Z) :
  0 <= r < d ->
  let mrs := shr_1 (shr_record_of_loc (Zpos q) (new_location d r)) in
  round_nearest_even (shr_m mrs) (loc_of_shr_record mrs)
  = round_qr (Zpos q / 2) (Zpos q mod 2 * d + r) (2 * d).
Proof.
  intros H mrs. subst mrs. unfold round_qr.
  destruct (Z.eq_dec r 0) as [->|N].
  - rewrite new_location_zero.
    destruct q as [p|p|]; cbn [shr_record_of_loc shr_1 orb shr_m loc_of_shr_record
                                 round_nearest_even].
    + destruct (xI_div_mod p) as [-> ->].
      replace (2 * (1 * d + 0)) with (2 * d) by lia.
      rewrite Z.compare_refl. reflexivity.
    + destruct (xO_div_mod p) as [-> ->].
      destruct (Z.compare_spec (2 * (0 * d + 0)) (2 * d));
        first [reflexivity|lia].
    + change (1 / 2) with 0. change (1 mod 2) with 1.
      replace (2 * (1 * d + 0)) with (2 * d) by lia.
      rewrite Z.compare_refl. reflexivity.
  - rewrite new_location_inexact by lia.
    assert (Hs : forall c m,
              shr_1 (shr_record_of_loc m (loc_Inexact c))
              = {| shr_m := shr_m (shr_1 (shr_record_of_loc m loc_Exact));
                   shr_r := shr_r (shr_1 (shr_record_of_loc m loc_Exact));
                   shr_s := true |}).
    { intros [] [|[]|[]]; reflexivity. }
    rewrite Hs.
    destruct q as [p|p|]; cbn [shr_record_of_loc shr_1 orb shr_m shr_r
                                 loc_of_shr_record round_nearest_even].
    + destruct (xI_div_mod p) as [-> ->].
      destruct (Z.compare_spec (2 * (1 * d + r)) (2 * d));
        first [reflexivity|lia].
    + destruct (xO_div_mod p) as [-> ->].
      destruct (Z.compare_spec (2 * (0 * d + r)) (2 * d));
        first [reflexivity|lia].
    + change (1 / 2) with 0. change (1 mod 2) with 1.
      destruct (Z.compare_spec (2 * (1 * d + r)) (2 * d));
        first [reflexivity|lia].
Qed.

Lemma round_tail_value (m1 e1 : Z) :
  2 ^ 52 <= m1 <= 2 ^ 53 -> -1000 <= e1 <= 900 ->
  exists mf ef,
    round_tail m1 e1 = S754_finite false mf ef /\
    ((Zpos mf = m1 /\ ef = e1) \/ (m1 = 2 * Zpos mf /\ ef = e1 + 1)).
Proof.
  intros Hm He. unfold round_tail. rewrite shr_fexp_unfold.
  destruct m1 as [|p|p]; try lia.
  destruct (Z.eq_dec (Zpos p) (2 ^ 53)) as [E|N].
  - rewrite E. change (Zdigits2 (2 ^ 53)) with 54.
    rewrite fexp_normal by lia.
    replace (54 + e1 - 53 - e1) with 1 by lia. rewrite shr_one.
    change (shr_m (shr_1 (shr_record_of_loc (2 ^ 53) loc_Exact)))
      with (Zpos (2 ^ 52)%positive).
    replace (e1 + 1 <=? PyFloat.emax - PyFloat.prec) with true
      by (unfold PyFloat.emax, PyFloat.prec; lia).
    eexists _, _. split; [reflexivity|]. right. split; reflexivity.
  - rewrite (Zdigits2_bounds p 53) by lia.
    rewrite fexp_normal by lia.
    replace (53 + e1 - 53 - e1) with 0 by lia. rewrite shr_zero.
    change (shr_m (shr_record_of_loc (Zpos p) loc_Exact)) with (Zpos p).
    replace (e1 <=? PyFloat.emax - PyFloat.prec) with true
      by (unfold PyFloat.emax, PyFloat.prec; lia).
    eexists _, _. split; [reflexivity|]. left. split; reflexivity.
Qed.

Lemma round_half_even_finite (mf : positive) (ef : Z) :
  ef < 0 ->
  PyFloat.round_half_even (S754_finite false mf ef)
  = Ok (nearest_even (Zpos mf) (2 ^ (- ef))).
Proof.
  intros H. unfold PyFloat.round_half_even, nearest_even, round_qr.
  replace (0 <=? ef) with false by lia.
  destruct (2 * (Zpos mf mod 2 ^ (- ef)) ?= 2 ^ (- ef)); reflexivity.
Qed.

(** [round] after the last step of the float rounding: the float stands
    for the integer [m1] at the exponent [e1]. *)
Lemma round_half_even_tail (m1 e1 : Z) :
  2 ^ 52 <= m1 <= 2 ^ 53 -> -1000 <= e1 <= -2 ->
  PyFloat.round_half_even (round_tail m1 e1)
  = Ok (nearest_even m1 (2 ^ (- e1))).
Proof.
  intros Hm He.
  destruct (round_tail_value m1 e1 Hm ltac:(lia))
    as (mf & ef & -> & [[E1 E2]|[E1 E2]]).
  - rewrite round_half_even_finite by lia. subst. reflexivity.
  - rewrite round_half_even_finite by lia. subst.
    replace (- e1) with (- (e1 + 1) + 1) by lia.
    rewrite Z.pow_add_r by lia. change (2 ^ 1) with 2.
    rewrite (Z.mul_comm 2 (Zpos mf)).
    rewrite nearest_even_scale; [reflexivity| |lia].
    apply Z.pow_pos_nonneg; lia.
Qed.

(** [round] of a rounded quotient: the quotient of [a] by [d] has 53 or 54
    digits and stands at the exponent [e]. *)
Lemma round_half_even_quotient (a d e : Z) :
  0 <= a -> 0 < d -> 2 ^ 52 <= a / d < 2 ^ 54 -> -1000 <= e <= -3 ->
  PyFloat.round_half_even
    (binary_round_aux PyFloat.prec PyFloat.emax false (a / d) e
       (new_location d (a mod d)))
  = Ok (if a / d <? 2 ^ 53
        then nearest_even (nearest_even a d) (2 ^ (- e))
        else nearest_even (nearest_even a (2 * d)) (2 ^ (- e - 1))).
Proof.
  intros Ha Hd Hq He.
  pose proof (Z.div_mod a d ltac:(lia)) as Ea.
  pose proof (Z.mod_pos_bound a d Hd) as Hr.
  rewrite binary_round_aux_tail, shr_fexp_unfold.
  destruct (a / d) as [|q|q] eqn:Eq; try lia.
  destruct (Z.ltb_spec (Zpos q) (2 ^ 53)) as [Hlt|Hge].
  - rewrite (Zdigits2_bounds q 53) by lia.
    rewrite fexp_normal by lia.
    replace (53 + e - 53 - e) with 0 by lia. rewrite shr_zero.
    destruct (loc_of_record (Zpos q) (new_location d (a mod d))) as [-> ->].
    rewrite round_new_location by exact Hr.
    rewrite <- nearest_even_qr by exact Hr.
    replace (Zpos q * d + a mod d) with a by lia.
    pose proof (nearest_even_bounds a d Hd) as Hb.
    apply round_half_even_tail; [|lia].
    assert (Zpos q * d <= nearest_even a d * d + d) by nia.
    assert (nearest_even a d * d <= (Zpos q + 1) * d + d) by nia.
    split; nia.
  - rewrite (Zdigits2_bounds q 54) by lia.
    rewrite fexp_normal by lia.
    replace (54 + e - 53 - e) with 1 by lia. rewrite shr_one.
    rewrite round_shifted_location by exact Hr.
    pose proof (Z.div_mod (Zpos q) 2 ltac:(lia)) as Eh.
    pose proof (Z.mod_pos_bound (Zpos q) 2 ltac:(lia)) as Hh.
    rewrite <- nearest_even_qr by nia.
    replace (Zpos q / 2 * (2 * d) + (Zpos q mod 2 * d + a mod d)) with a by nia.
    pose proof (nearest_even_bounds a (2 * d) ltac:(lia)) as Hb.
    replace (- e - 1) with (- (e + 1)) by lia.
    apply round_half_even_tail; [|lia].
    assert (2 ^ 52 <= Zpos q / 2 < 2 ^ 53).
    { split; [apply Z.div_le_lower_bound; lia|apply Z.div_lt_upper_bound; lia]. }
    split; nia.
Qed.

Lemma pow2_pred (s : Z) : 0 < s -> 2 ^ s = 2 ^ (s - 1) * 2.
Proof.
  intros H. replace s with (s - 1 + 1) at 1 by lia.
  rewrite Z.pow_add_r by lia. reflexivity.
Qed.

Lemma digits_bounds (p : positive) :
  1 <= Zdigits2 (Zpos p) /\
  2 ^ (Zdigits2 (Zpos p) - 1) <= Zpos p < 2 ^ Zdigits2 (Zpos p).
Proof.
  cbn [Zdigits2]. rewrite digits2_pos_size.
  pose proof (Pos.size_gt p) as Hgt. pose proof (Pos.size_le p) as Hle.
  assert (Hgt' : Zpos p < 2 ^ Zpos (Pos.size p)).
  { rewrite <- Pos2Z.inj_pow. apply Pos2Z.pos_lt_pos. exact Hgt. }
  assert (Hle' : 2 ^ Zpos (Pos.size p) <= 2 * Zpos p).
  { rewrite <- Pos2Z.inj_pow. change (2 * Zpos p) with (Zpos (p~0)).
    apply Pos2Z.pos_le_pos. exact Hle. }
  split; [lia|]. split; [|exact Hgt'].
  pose proof (pow2_pred (Zpos (Pos.size p)) ltac:(lia)). lia.
Qed.

(** The core of the division of two integers: the dividend is scaled by
    [2 ^ s] so that the quotient has 53 or 54 digits. *)
Lemma div_core_ints (n d : positive) :
  let s := 53 + Zdigits2 (Zpos d) - Zdigits2 (Zpos n) in
  0 < s <= 1000 ->
  SFdiv_core_binary PyFloat.prec PyFloat.emax (Zpos n) 0 (Zpos d) 0
  = (Zpos n * 2 ^ s / Zpos d, - s,
     new_location (Zpos d) (Zpos n * 2 ^ s mod Zpos d)) /\
  2 ^ 52 <= Zpos n * 2 ^ s / Zpos d < 2 ^ 54.
Proof.
  intros s Hs.
  destruct (digits_bounds n) as [Hn1 Hn]. destruct (digits_bounds d) as [Hd1 Hd].
  set (d1 := Zdigits2 (Zpos n)) in *. set (d2 := Zdigits2 (Zpos d)) in *.
  split.
  - change (SFdiv_core_binary PyFloat.prec PyFloat.emax (Zpos n) 0 (Zpos d) 0)
      with (let e' := Z.min (fexp PyFloat.prec PyFloat.emax
                               (d1 + 0 - (d2 + 0))) (0 - 0) in
            let s := 0 - 0 - e' in
            let m' := match s with
                      | Zpos _ => Z.shiftl (Zpos n) s
                      | Z0 => Zpos n
                      | Zneg _ => 0
                      end in
            let '(q, r) := Z.div_eucl m' (Zpos d) in
            (q, e', new_location (Zpos d) r)).
    cbv zeta. rewrite fexp_normal by lia.
    replace (Z.min (d1 + 0 - (d2 + 0) - 53) (0 - 0)) with (- s) by lia.
    replace (0 - 0 - - s) with s by lia.
    destruct s as [|ps|ps] eqn:Es; try lia.
    rewrite Z.shiftl_mul_pow2 by lia.
    unfold Z.div, Z.modulo.
    destruct (Z.div_eucl (Zpos n * 2 ^ Zpos ps) (Zpos d)) as [q r].
    reflexivity.
  - assert (Hp1 : 2 ^ (d1 - 1) * 2 ^ s = 2 ^ 52 * 2 ^ d2).
    { rewrite <- !Z.pow_add_r by lia. f_equal. lia. }
    assert (Hp2 : 2 ^ d1 * 2 ^ s = 2 ^ 54 * 2 ^ (d2 - 1)).
    { rewrite <- !Z.pow_add_r by lia. f_equal. lia. }
    assert (Hs0 : 0 < 2 ^ s) by (apply Z.pow_pos_nonneg; lia).
    assert (Hd0 : 0 < 2 ^ (d2 - 1)) by (apply Z.pow_pos_nonneg; lia).
    split.
    + apply Z.div_le_lower_bound; [lia|]. nia.
    + apply Z.div_lt_upper_bound; [lia|]. nia.
Qed.

(** [round(n / d)] on two positive integers: the nearest integer to the
    fraction, ties to even, as long as the quotient is at most 100 and the
    divisor is below [2 ^ 45].  The two roundings, to a float and then to an
    integer, do not add up to an error. *)
Lemma true_div_round (n d : Z) :
  0 < n -> 0 < d -> n <= 100 * d -> d < 2 ^ 45 ->
  (q <- PyFloat.int_true_div n d ;; PyFloat.round_half_even q)
  = Ok (nearest_even n d).
Proof.
  intros Hn Hd Hle Hlt.
  destruct n as [|n|n]; try lia. destruct d as [|d|d]; try lia.
  unfold PyFloat.int_true_div.
  change (Zpos d =? 0) with false. change (Zpos n =? 0) with false.
  change (Zpos n <? 0) with false. change (Zpos d <? 0) with false.
  cbv iota. cbn [Z.abs Z.to_pos].
  destruct (digits_bounds n) as [Hn1 Hnb]. destruct (digits_bounds d) as [Hd1 Hdb].
  set (s := 53 + Zdigits2 (Zpos d) - Zdigits2 (Zpos n)).
  assert (Hd2 : Zdigits2 (Zpos d) <= 45).
  { destruct (Z_le_gt_dec (Zdigits2 (Zpos d)) 45) as [H|H]; [exact H|exfalso].
    assert (2 ^ 45 <= 2 ^ (Zdigits2 (Zpos d) - 1))
      by (apply Z.pow_le_mono_r; lia).
    lia. }
  assert (Hd12 : Zdigits2 (Zpos n) <= Zdigits2 (Zpos d) + 7).
  { destruct (Z_le_gt_dec (Zdigits2 (Zpos n)) (Zdigits2 (Zpos d) + 7))
      as [H|H]; [exact H|exfalso].
    assert (2 ^ (Zdigits2 (Zpos d) + 7) <= 2 ^ (Zdigits2 (Zpos n) - 1))
      by (apply Z.pow_le_mono_r; lia).
    rewrite Z.pow_add_r in H0 by lia. change (2 ^ 7) with 128 in H0. lia. }
  assert (Hs : 46 <= s <= 97) by (subst s; lia).
  destruct (div_core_ints n d ltac:(fold s; lia)) as [Ecore Hq]. fold s in Ecore, Hq.
  unfold PyFloat.div.
  change (SFdiv PyFloat.prec PyFloat.emax (S754_finite false n 0)
            (S754_finite false d 0))
    with (let '(mz, ez, lz) :=
            SFdiv_core_binary PyFloat.prec PyFloat.emax (Zpos n) 0 (Zpos d) 0 in
          binary_round_aux PyFloat.prec PyFloat.emax false mz ez lz).
  rewrite Ecore.
  assert (Hs0 : 0 < 2 ^ s) by (apply Z.pow_pos_nonneg; lia).
  pose proof (round_half_even_quotient (Zpos n * 2 ^ s) (Zpos d) (- s)
                ltac:(lia) ltac:(lia) Hq ltac:(lia)) as Hr.
  assert (Hv : (if Zpos n * 2 ^ s / Zpos d <? 2 ^ 53
                then nearest_even (nearest_even (Zpos n * 2 ^ s) (Zpos d))
                       (2 ^ (- - s))
                else nearest_even (nearest_even (Zpos n * 2 ^ s) (2 * Zpos d))
                       (2 ^ (- - s - 1)))
               = nearest_even (Zpos n) (Zpos d)).
  { replace (- - s) with s by lia.
    assert (Hpow : 2 ^ 45 <= 2 ^ (s - 1)) by (apply Z.pow_le_mono_r; lia).
    assert (Hpow' : 2 ^ (s - 1) <= 2 ^ s) by (apply Z.pow_le_mono_r; lia).
    destruct (Zpos n * 2 ^ s / Zpos d <? 2 ^ 53).
    - apply nearest_even_twice; try lia.
      rewrite Z.even_pow by lia. reflexivity.
    - rewrite (pow2_pred s) at 1 by lia.
      rewrite Z.mul_assoc, (Z.mul_comm 2 (Zpos d)).
      rewrite nearest_even_scale by lia.
      apply nearest_even_twice; try lia.
      rewrite Z.even_pow by lia. reflexivity. }
  rewrite Hv in Hr.
  destruct (binary_round_aux PyFloat.prec PyFloat.emax false
              (Zpos n * 2 ^ s / Zpos d) (- s)
              (new_location (Zpos d) (Zpos n * 2 ^ s mod Zpos d)))
    as [sz|sz| |sz mz ez]; try discriminate Hr; exact Hr.
Qed.

(** X3.  For hit points [0 <= current <= max] with [0 < max < 2 ^ 45], the
    health percentage is exactly the integer nearest to
    [100 * current / max], a tie going to the even integer: the division
    is rounded to a float and the float to an integer, and the two roundings
    together are the rounding of the fraction.  So the percentage is off
    from the fraction by at most one half, and full health is 100. *)
Theorem hp_pct_nearest (p : Pokemon.t) (cur mx : Z) :
  Pokemon.current_hp p = Some cur -> Pokemon.max_hp p = Some mx ->
  0 <= cur <= mx -> 0 < mx < 2 ^ 45 ->
  _hp_pct p = nearest_even (100 * cur) mx /\
  2 * Z.abs (100 * cur - _hp_pct p * mx) <= mx /\
  (cur = mx -> _hp_pct p = 100).
Proof.
  intros Hc Hm Hcur Hmx.
  assert (E : _hp_pct p = nearest_even (100 * cur) mx).
  { unfold _hp_pct. rewrite Hc, Hm. replace (mx =? 0) with false by lia.
    destruct (Z.eq_dec cur 0) as [->|N].
    - unfold PyFloat.int_true_div. replace (mx =? 0) with false by lia.
      change (100 * 0) with 0. cbn [Z.eqb Py.bind PyFloat.round_half_even].
      replace (nearest_even 0 mx) with 0
        by (symmetry; apply (nearest_even_below 0 mx 0); lia).
      reflexivity.
    - pose proof (true_div_round (100 * cur) mx ltac:(lia) ltac:(lia)
                    ltac:(lia) ltac:(lia)) as H.
      pose proof (nearest_even_percent (100 * cur) mx ltac:(lia) ltac:(lia)
                    ltac:(lia)) as Hr.
      destruct (PyFloat.int_true_div (100 * cur) mx) as [q|e];
        [|discriminate H].
      cbn [Py.bind] in H |- *. rewrite H. cbn [Py.bind try_except].
      unfold PyInt.max2, PyInt.min2.
      destruct (Z.ltb_spec (nearest_even (100 * cur) mx) 100);
        destruct (Z.ltb_spec 0 (nearest_even (100 * cur) mx));
        try destruct (Z.ltb_spec 0 100); lia. }
  split; [exact E|]. split.
  - rewrite E. pose proof (nearest_even_bounds (100 * cur) mx ltac:(lia)). lia.
  - intros ->. rewrite E. apply nearest_even_exact. lia.
Qed.

(** *** Types *)

Lemma safe_types_some (l : list (option string)) :
  _safe_types (Some l)
  = flat_map (fun t => match t with Some n => [n] | None => [] end) l.
Proof. destruct l; reflexivity. Qed.

Lemma safe_types_In (ts : option (list (option string))) (n : string) :
  In n (_safe_types ts) <-> exists l, ts = Some l /\ In (Some n) l.
Proof.
  destruct ts as [l|].
  - rewrite safe_types_some, in_flat_map. split.
    + intros ([x|] & Hin & Hx); simpl in Hx; [|tauto].
      destruct Hx as [->|[]]. eauto.
    + intros (l' & E & Hin). injection E as <-.
      exists (Some n). split; [exact Hin|left; reflexivity].
  - simpl. split; [tauto|]. intros (l & E & _). discriminate.
Qed.

(** X4.  The type names of a Pokemon are exactly the names of the slots of
    its [types] that hold a type, in their order: a slot holding [None] is
    dropped (a single-typed Pokemon has one), a missing [types] gives the
    empty list, and nothing is added. *)
Theorem safe_types_names (ts : option (list (option string))) :
  (forall n, In n (_safe_types ts) <-> exists l, ts = Some l /\ In (Some n) l) /\
  (ts = None -> _safe_types ts = []) /\
  (forall l, _safe_types (Some (map Some l)) = l) /\
  (forall l1 l2, _safe_types (Some (l1 ++ l2))
                 = _safe_types (Some l1) ++ _safe_types (Some l2)) /\
  (forall l, _safe_types (Some (None :: l)) = _safe_types (Some l)).
Proof.
  split; [|split; [|split; [|split]]].
  - intros n. apply safe_types_In.
  - intros ->. reflexivity.
  - intros l. rewrite safe_types_some.
    induction l as [|x l IH]; [reflexivity|]. simpl. rewrite IH. reflexivity.
  - intros l1 l2. rewrite !safe_types_some. apply flat_map_app.
  - intros l. rewrite !safe_types_some. reflexivity.
Qed.

(** X5.  A move has the same-type attack bonus exactly when there is an
    active Pokemon, the move has a type, and that type is one of the types
    of the active Pokemon. *)
Theorem is_stab_iff (move : Move.t) (me_active : option Pokemon.t) :
  _is_stab move me_active = true <->
  exists p ty l, me_active = Some p /\ Move.type move = Some ty /\
                 Pokemon.types p = Some l /\ In (Some ty) l.
Proof.
  unfold _is_stab. destruct me_active as [p|].
  - destruct (Move.type move) as [ty|].
    + rewrite existsb_exists. split.
      * intros (x & Hin & Hx). apply String.eqb_eq in Hx. subst x.
        apply safe_types_In in Hin. destruct Hin as (l & El & Hl).
        exists p, ty, l. auto.
      * intros (p' & ty' & l & Ep & Et & El & Hl).
        injection Ep as <-. injection Et as <-.
        exists ty. split; [|apply String.eqb_refl].
        apply safe_types_In. eauto.
    + split; [discriminate|]. intros (p' & ty & l & _ & E & _). discriminate.
  - split; [discriminate|]. intros (p' & ty & l & E & _). discriminate.
Qed.

(** *** Accuracy and names *)

(** X6.  A raw accuracy the code cannot read as a number is encoded as 1.0:
    a string (the comparison with 1 raises), and an integer too large for a
    float (the conversion raises).  The exception is swallowed. *)
Theorem move_accuracy_unreadable (m : Move.t) :
  (forall s, Move.accuracy m = PStr s -> _move_accuracy m = PyFloat.one) /\
  (forall n e, Move.accuracy m = PInt n -> PyFloat.of_int n = Raise e ->
               _move_accuracy m = PyFloat.one).
Proof.
  unfold _move_accuracy. split.
  - intros s ->. reflexivity.
  - intros n e -> He. cbn [acc_is_none_or_zero acc_le_one Py.bind].
    destruct (n =? 0); [reflexivity|].
    destruct (n <=? 1); cbn [acc_div_hundred float_of Py.bind]; rewrite He;
      reflexivity.
Qed.

Lemma lower_nonempty (s : string) : s <> "" -> PyStr.lower s <> "".
Proof. destruct s; [congruence|discriminate]. Qed.

Lemma str_or_nonempty (x : option string) (d : string) :
  d <> "" -> str_or x d <> "".
Proof.
  intros H. destruct x as [[|c s]|]; simpl; [exact H|discriminate|exact H].
Qed.

(** X7.  No candidate is shown without a name: the name of a move row, the
    species of a switch row and the species of a summary of the state are
    never empty, whatever the battle client's objects hold (a missing or
    empty name falls back on a placeholder). *)
Theorem row_names_nonempty (i : Z) (m : Move.t) (me_active : option Pokemon.t)
  (p : Pokemon.t) (active : option Pokemon.t) :
  RowMove.name (_move_row i m me_active) <> "" /\
  RowSwitch.species (_switch_row i p) <> "" /\
  StateSummary.species (dump_mon active) <> "".
Proof.
  split; [|split].
  - apply lower_nonempty, str_or_nonempty. discriminate.
  - apply lower_nonempty, str_or_nonempty. discriminate.
  - destruct active as [q|]; [|discriminate].
    apply lower_nonempty, str_or_nonempty. discriminate.
Qed.

(** ** Scoring heuristic, continued *)

Lemma max2_eq (a b : Z) : PyInt.max2 a b = Z.max a b.
Proof. unfold PyInt.max2. destruct (Z.ltb_spec a b); lia. Qed.

Lemma move_base_power_nonneg (m : Move.t) : 0 <= _move_base_power m.
Proof. unfold _move_base_power. rewrite max2_eq. lia. Qed.

(** X8.  Whatever its accuracy field holds, a row of non-negative base
    power that a float can hold has a score, and the score is a number, not
    below zero: the ranking of the fallback is always defined.  A base power
    too large for a float raises [OverflowError].  An accuracy that is not a
    number counts as 1.0.  Every encoded row has a non-negative base
    power. *)
Theorem score_robust (r : RowMove.t) :
  (0 <= RowMove.base_power r -> representable (RowMove.base_power r) ->
   exists s, _score_move_row r = Ok s /\ PyFloat.is_nan s = false /\
             PyFloat.leb PyFloat.zero s = true) /\
  (~ representable (RowMove.base_power r) ->
   exists msg, _score_move_row r = Raise (OverflowError msg)) /\
  (PyFloat.is_nan (RowMove.accuracy r) = true ->
   _score_move_row r = _score_move_row (with_accuracy r PyFloat.one)) /\
  (forall i m me_active, 0 <= RowMove.base_power (_move_row i m me_active)).
Proof.
  split; [|split; [|split]].
  - intros Hbp Hrep. destruct (score_defined r Hrep) as (s & Es & Ns).
    exists s. split; [exact Es|]. split; [exact Ns|].
    pose proof (score_signed r s Es) as H.
    replace (RowMove.base_power r <? 0) with false in H by lia.
    destruct H as [->|[->|(m & e & ->)]]; reflexivity.
  - intros Hn. rewrite score_unfold. unfold PyFloat.of_int.
    destruct (PyFloat.of_Z (RowMove.base_power r)) eqn:E;
      try (exfalso; apply Hn; eexists; unfold PyFloat.of_int; rewrite E;
           reflexivity).
    simpl. eauto.
  - intros Hn. rewrite !score_unfold. cbn [with_accuracy RowMove.base_power
      RowMove.accuracy RowMove.is_stab].
    destruct (RowMove.accuracy r); try discriminate Hn. reflexivity.
  - intros i m me_active. apply move_base_power_nonneg.
Qed.

(** ** Decision validator, continued *)

Section ValidatorMore.

Variable str_of : Json.t -> string.
Variable d : Json.dict.
Variable rows : list Row.
Variable state : StateSummary.t.

Let act := Json.get d "action".
Let idx := Json.get d "index".
Let i := int_value idx.
Let n_moves := count_kind "move" rows.
Let n_switches := count_kind "switch" rows.
Let out := _validate_decision str_of (Json.JObj d) rows state.

(** X9.  The complete acceptance condition, forced-switch turns included.
    A decision passes exactly when its index is an [int] and it is [move]
    with the forced-switch flag unset and an index among the move
    candidates, or [force_switch] with an index among the move candidates
    (flag set or not), or [switch] with an index among the switch
    candidates.  So on a forced-switch turn without move candidates only
    [switch] can pass. *)
Theorem validate_accepts_iff :
  out = (true, "") <->
  Json.is_int idx = true /\
  ((act = Json.JStr "move" /\ StateSummary.force_switch state = false
    /\ 0 <= i < n_moves)
   \/ (act = Json.JStr "force_switch" /\ 0 <= i < n_moves)
   \/ (act = Json.JStr "switch" /\ 0 <= i < n_switches)).
Proof.
  subst out i n_moves n_switches. unfold _validate_decision. fold act idx.
  generalize (count_kind "move" rows) (count_kind "switch" rows).
  intros nm ns. clearbody act idx.
  destruct (Json.eq_str act "move") eqn:E1;
    [apply eq_str_true in E1; subst act|];
    [|destruct (Json.eq_str act "switch") eqn:E2;
      [apply eq_str_true in E2; subst act|];
      [|destruct (Json.eq_str act "force_switch") eqn:E3;
        [apply eq_str_true in E3; subst act|]]].
  - cbn [Json.eq_str String.eqb Ascii.eqb Bool.eqb orb negb andb].
    destruct (Json.is_int idx); cbn [negb];
      [|split; [discriminate|intros [H _]; discriminate]].
    destruct (StateSummary.force_switch state); cbn [andb].
    + split; [discriminate|].
      intros [_ [(_ & H & _)|[(H & _)|(H & _)]]]; discriminate.
    + destruct (Z.ltb_spec (int_value idx) 0);
        destruct (Z.leb_spec nm (int_value idx)); cbn [orb].
      all: split;
        [intros H';
         first [discriminate H'
               |split; [reflexivity|]; left; repeat split; lia]
        |intros [_ [(_ & _ & H')|[(H' & _)|(H' & _)]]];
         first [discriminate H'|reflexivity|lia]].
  - cbn [Json.eq_str String.eqb Ascii.eqb Bool.eqb orb negb andb].
    rewrite andb_false_r.
    destruct (Json.is_int idx); cbn [negb];
      [|split; [discriminate|intros [H _]; discriminate]].
    destruct (Z.ltb_spec (int_value idx) 0);
      destruct (Z.leb_spec ns (int_value idx)); cbn [orb].
    all: split;
      [intros H';
       first [discriminate H'
             |split; [reflexivity|]; right; right; split; [reflexivity|lia]]
      |intros [_ [(H' & _)|[(H' & _)|(_ & H')]]];
       first [discriminate H'|reflexivity|lia]].
  - cbn [Json.eq_str String.eqb Ascii.eqb Bool.eqb orb negb andb].
    rewrite andb_false_r.
    destruct (Json.is_int idx); cbn [negb];
      [|split; [discriminate|intros [H _]; discriminate]].
    destruct (Z.ltb_spec (int_value idx) 0);
      destruct (Z.leb_spec nm (int_value idx)); cbn [orb].
    all: split;
      [intros H';
       first [discriminate H'
             |split; [reflexivity|]; right; left; split; [reflexivity|lia]]
      |intros [_ [(H' & _)|[(_ & H')|(H' & _)]]];
       first [discriminate H'|reflexivity|lia]].
  - cbn [orb negb]. split; [discriminate|].
    intros [_ [(H & _)|[(H & _)|(H & _)]]]; subst act; discriminate.
Qed.

(** X10.  The reason the validator returns with a dict is empty exactly
    when the decision passes; a decision that fails carries one of the five
    reason codes. *)
Theorem validate_reason_iff_rejected :
  (fst out = true <-> snd out = "") /\
  (fst out = false ->
   In (snd out)
     [("bad_action:" ++ str_of act)%string; "index_not_int"; "must_switch";
      "index_out_of_range_move"; "index_out_of_range_switch"]).
Proof.
  subst out i n_moves n_switches. unfold _validate_decision. fold act idx.
  generalize (count_kind "move" rows) (count_kind "switch" rows).
  intros nm ns. clearbody act idx.
  destruct (negb _).
  { simpl. split; [split; discriminate|]. intros _. left. reflexivity. }
  destruct (negb _).
  { simpl. split; [split; discriminate|]. intros _. right. left. reflexivity. }
  destruct (_ && _).
  { simpl. split; [split; discriminate|]. intros _. right. right. left.
    reflexivity. }
  destruct (_ && _).
  { simpl. split; [split; discriminate|]. intros _. do 3 right. left.
    reflexivity. }
  destruct (_ && _).
  { simpl. split; [split; discriminate|]. intros _. do 4 right. left.
    reflexivity. }
  simpl. split; [split; reflexivity|discriminate].
Qed.

End ValidatorMore.

Lemma get_set_other (d : Json.dict) (k k2 : string) (v : Json.t) :
  k <> k2 -> Json.get (Json.set d k v) k2 = Json.get d k2.
Proof.
  intros N. induction d as [|[k' v'] d IH]; simpl.
  - apply String.eqb_neq in N. rewrite N. reflexivity.
  - destruct (String.eqb k' k) eqn:E; simpl.
    + apply String.eqb_eq in E. subst k'.
      apply String.eqb_neq in N. rewrite N. reflexivity.
    + rewrite IH. reflexivity.
Qed.

(** X11.  The reason of a decision is advisory: writing any value under
    [reason] changes neither what the validator answers nor the order that
    is emitted. *)
Theorem reason_is_advisory (str_of : Json.t -> string) (d : Json.dict)
  (v : Json.t) (rows : list Row) (state : StateSummary.t)
  (moves : list Move.t) (switches : list Pokemon.t)
  (move_rows : list RowMove.t) (switch_rows : list RowSwitch.t) :
  _validate_decision str_of (Json.JObj (Json.set d "reason" v)) rows state
  = _validate_decision str_of (Json.JObj d) rows state /\
  emit_order (Json.set d "reason" v) moves switches move_rows switch_rows
  = emit_order d moves switches move_rows switch_rows.
Proof.
  split.
  - unfold _validate_decision. rewrite !get_set_other by discriminate.
    reflexivity.
  - unfold emit_order. rewrite !item_set_other by discriminate. reflexivity.
Qed.

(** ** The result of a turn *)

Lemma fallback_decision_ok_wf (state : StateSummary.t)
  (move_rows : list RowMove.t) (switch_rows : list RowSwitch.t) (e : exn)
  (dec : Json.dict) :
  fallback_decision state move_rows switch_rows e = Ok dec -> wf_decision dec.
Proof.
  unfold fallback_decision.
  destruct (StateSummary.force_switch state && nonempty switch_rows).
  - intros H. injection H as <-. apply decision_wf. right. left. reflexivity.
  - destruct (nonempty move_rows).
    + destruct (best_move_index move_rows) as [i|e']; simpl; [|discriminate].
      intros H. injection H as <-. apply decision_wf. left. reflexivity.
    + intros H. injection H as <-. apply decision_wf. left. reflexivity.
Qed.


Section TurnResult.

Variable cfg : Config.t.
Variable json_loads : string -> result Json.t.
Variable str_of : Json.t -> string.

Lemma llm_decide_fst (self : LLMPlayer.t) (state : StateSummary.t)
  (rows : list Row) (w : World.t) :
  fst (_llm_decide cfg json_loads str_of self state rows w)
  = oracle_result cfg json_loads str_of self state rows.
Proof. apply (llm_decide_result cfg json_loads str_of self state rows w). Qed.

Lemma decide_fst (self : LLMPlayer.t) (state : StateSummary.t)
  (move_rows : list RowMove.t) (switch_rows : list RowSwitch.t) (w : World.t) :
  fst (decide cfg json_loads str_of self state move_rows switch_rows w)
  = match oracle_result cfg json_loads str_of self state
            (rows_for_llm move_rows switch_rows) with
    | Ok dec => Ok dec
    | Raise e => fallback_decision state move_rows switch_rows e
    end.
Proof.
  rewrite <- (llm_decide_fst self state (rows_for_llm move_rows switch_rows) w).
  unfold decide, try_catch.
  destruct (_llm_decide cfg json_loads str_of self state
              (rows_for_llm move_rows switch_rows) w) as [[dec|e] w1].
  - reflexivity.
  - apply fallback_handler_fst.
Qed.

Lemma oracle_result_validated (self : LLMPlayer.t) (state : StateSummary.t)
  (rows : list Row) (dec : Json.dict) :
  oracle_result cfg json_loads str_of self state rows = Ok dec ->
  fst (_validate_decision str_of (Json.JObj dec) rows state) = true.
Proof.
  intros H.
  pose proof (llm_decide_validated cfg json_loads str_of self state rows
                (World.mk (Battle.mk None None [] [] None None None false)
                   [] [] true)) as Hv.
  cbv beta in Hv. rewrite llm_decide_fst, H in Hv. exact Hv.
Qed.

Lemma turn_decision_wf (self : LLMPlayer.t) (b : Battle.t) (dec : Json.dict) :
  turn_decision cfg json_loads str_of self b = Ok dec -> wf_decision dec.
Proof.
  unfold turn_decision.
  destruct (oracle_result cfg json_loads str_of self (encode_state b)
              (rows_for_llm (encode_moves b) (encode_switches b)))
    as [dec'|e] eqn:E.
  - intros H. injection H as <-.
    eapply validated_wf, oracle_result_validated, E.
  - apply fallback_decision_ok_wf.
Qed.

Lemma post_bind_known {A B} (m : M A) (k : A -> M B) (r0 : result A)
  (Q : result B -> Prop) :
  post m (fun r => r = r0) ->
  match r0 with
  | Ok v => post (k v) Q
  | Raise e => Q (Raise e)
  end ->
  post (mbind m k) Q.
Proof. intros Hm Hk. apply post_mbind. intros w. rewrite (Hm w). exact Hk. Qed.

Lemma print_result (l : console_line) :
  post (print l) (fun r => r = show l).
Proof. intros w. unfold print, show. destruct (printable l); reflexivity. Qed.

(** The lines in front of the decision: only the state line can fail. *)
Lemma state_lines_result (blank : bool) (st : StateSummary.t) :
  post (when (log_enabled cfg)
          (when blank (print PrintBlank) ;;;
           _print_compact cfg (PrintTurn (StateSummary.turn st)) ;;;
           _print_compact cfg (PrintState st)))
    (fun r => r = if log_enabled cfg then show (PrintState st) else Ok tt).
Proof.
  destruct (log_enabled cfg) eqn:El; simpl.
  - apply post_seq_unit; [apply logs_when, logs_print; reflexivity|].
    apply post_seq_unit; [apply logs_print_compact; reflexivity|].
    unfold _print_compact. rewrite El. apply print_result.
  - apply post_ret. reflexivity.
Qed.

(** What [choose_move] returns is what [turn_order] computes: of all the
    printing and tracing, only the state line and the [DECIDE] line bear on
    it, by the exception they raise when they cannot be encoded. *)
Lemma choose_move_result (self : LLMPlayer.t) (w : World.t) :
  fst (choose_move cfg json_loads str_of self w)
  = turn_order cfg json_loads str_of self (World.battle w).
Proof.
  unfold choose_move. unfold mbind at 1. unfold read_battle at 1.
  cbv beta iota. remember (World.battle w) as b eqn:Eb in *. clear Eb.
  revert w.
  change (post
    (when (log_enabled cfg)
       (when ((StateSummary.turn (encode_state b) <=? 1)
              || StateSummary.force_switch (encode_state b))
          (print PrintBlank) ;;;
        _print_compact cfg (PrintTurn (StateSummary.turn (encode_state b))) ;;;
        _print_compact cfg (PrintState (encode_state b))) ;;;
     when (log_enabled cfg && Config.rich_installed cfg)
       (print (PrintTable (encode_moves b) (encode_switches b))) ;;;
     dec <~ decide cfg json_loads str_of self (encode_state b)
              (encode_moves b) (encode_switches b) ;;
     (if log_enabled cfg
      then l <~ lift (decide_line dec (encode_moves b) (encode_switches b)) ;;
           _print_compact cfg l
      else ret tt) ;;;
     lift (emit_order dec (Battle.available_moves b)
             (Battle.available_switches b) (encode_moves b)
             (encode_switches b)))
    (fun r => r = turn_order cfg json_loads str_of self b)).
  unfold turn_order.
  eapply post_bind_known; [apply state_lines_result|].
  destruct (if log_enabled cfg then show (PrintState (encode_state b))
            else Ok tt) as [[]|e]; [|reflexivity].
  cbn [Py.bind].
  apply post_seq_unit; [apply logs_when, logs_print; reflexivity|].
  eapply post_bind_known.
  { intros w. apply decide_fst. }
  fold (turn_decision cfg json_loads str_of self b).
  destruct (turn_decision cfg json_loads str_of self b) as [dec|e];
    [|reflexivity].
  cbn [Py.bind].
  eapply post_bind_known.
  { instantiate (1 := if log_enabled cfg
                      then l <- decide_line dec (encode_moves b)
                                  (encode_switches b) ;; show l
                      else Ok tt).
    destruct (log_enabled cfg) eqn:El; [|apply post_ret; reflexivity].
    eapply post_bind_known; [apply post_lift; reflexivity|].
    destruct (decide_line dec (encode_moves b) (encode_switches b)) as [l|e];
      [|reflexivity].
    cbn [Py.bind]. unfold _print_compact. rewrite El. apply print_result. }
  destruct (if log_enabled cfg
            then l <- decide_line dec (encode_moves b) (encode_switches b) ;;
                 show l
            else Ok tt) as [[]|e]; [|reflexivity].
  apply post_lift. reflexivity.
Qed.

(** A turn the console takes returns what its decision gives. *)
Lemma turn_order_shown (self : LLMPlayer.t) (b : Battle.t) (dec : Json.dict) :
  turn_decision cfg json_loads str_of self b = Ok dec ->
  console_takes cfg b dec = true ->
  turn_order cfg json_loads str_of self b
  = emit_order dec (Battle.available_moves b) (Battle.available_switches b)
      (encode_moves b) (encode_switches b).
Proof.
  intros Hd Ht. unfold turn_order. rewrite Hd.
  pose proof (turn_decision_wf self b dec Hd) as Hwf.
  destruct (decide_line_total dec (encode_moves b) (encode_switches b) Hwf)
    as [l El].
  unfold console_takes in Ht. rewrite El in Ht. unfold show.
  destruct (log_enabled cfg); [|reflexivity].
  cbn [negb orb] in Ht. apply andb_true_iff in Ht. destruct Ht as [H1 H2].
  rewrite H1. cbn [Py.bind]. rewrite El. cbn [Py.bind]. rewrite H2.
  reflexivity.
Qed.

(** A turn the console does not take raises the error of the codec. *)
Lemma turn_order_not_shown (self : LLMPlayer.t) (b : Battle.t)
  (dec : Json.dict) :
  turn_decision cfg json_loads str_of self b = Ok dec ->
  console_takes cfg b dec = false ->
  log_enabled cfg = true /\
  turn_order cfg json_loads str_of self b = Raise PyStr.encode_error.
Proof.
  intros Hd Ht. unfold turn_order. rewrite Hd.
  unfold console_takes in Ht. unfold show.
  destruct (log_enabled cfg); [|discriminate Ht].
  split; [reflexivity|]. cbn [negb orb] in Ht.
  destruct (printable (PrintState (encode_state b))); [|reflexivity].
  cbn [andb Py.bind] in Ht |- *.
  destruct (decide_line dec (encode_moves b) (encode_switches b)) as [l|e];
    [|discriminate Ht].
  cbn [Py.bind]. rewrite Ht. reflexivity.
Qed.

(** Whatever the console, an order that is returned is the order the
    decision gives. *)
Lemma turn_order_ok (self : LLMPlayer.t) (b : Battle.t) (o : order) :
  turn_order cfg json_loads str_of self b = Ok o ->
  exists dec,
    turn_decision cfg json_loads str_of self b = Ok dec /\
    emit_order dec (Battle.available_moves b) (Battle.available_switches b)
      (encode_moves b) (encode_switches b) = Ok o.
Proof.
  unfold turn_order.
  destruct (if log_enabled cfg then show (PrintState (encode_state b))
            else Ok tt) as [[]|e]; [|discriminate].
  cbn [Py.bind].
  destruct (turn_decision cfg json_loads str_of self b) as [dec|e];
    [|discriminate].
  cbn [Py.bind].
  destruct (if log_enabled cfg
            then l <- decide_line dec (encode_moves b) (encode_switches b) ;;
                 show l
            else Ok tt) as [[]|e]; [|discriminate].
  cbn [Py.bind]. intros H. exists dec. split; [reflexivity|exact H].
Qed.

(** ** Oracle stage, continued *)



End TurnResult.

(** ** The turn, end to end *)

Lemma count_switches_encoded (b : Battle.t) :
  count_kind "switch" (rows_for_llm (encode_moves b) (encode_switches b))
  = len (Battle.available_switches b).
Proof.
  unfold rows_for_llm. rewrite count_kind_app.
  rewrite count_kind_moves by apply encode_moves_kind.
  rewrite count_kind_switches by apply encode_switches_kind.
  simpl. unfold len. rewrite encode_switches_length. lia.
Qed.

Lemma nonempty_len {A} (l : list A) : 0 < len l -> nonempty l = true.
Proof. destruct l; unfold len; simpl; [lia|reflexivity]. Qed.

Lemma len_pos {A} (l : list A) : l <> [] -> 0 < len l.
Proof. destruct l; unfold len; simpl; [congruence|lia]. Qed.

Lemma encode_moves_nil (b : Battle.t) :
  Battle.available_moves b = [] -> encode_moves b = [].
Proof. intros H. unfold encode_moves. rewrite H. reflexivity. Qed.

(** A decision that passed the validator is emitted at exactly its index:
    the clamp changes nothing. *)
Lemma validated_emit (str_of : Json.t -> string) (b : Battle.t)
  (state : StateSummary.t) (d : Json.dict) :
  fst (_validate_decision str_of (Json.JObj d)
         (rows_for_llm (encode_moves b) (encode_switches b)) state) = true ->
  let moves := Battle.available_moves b in
  let switches := Battle.available_switches b in
  let i := int_value (Json.get d "index") in
  let out := emit_order d moves switches (encode_moves b) (encode_switches b) in
  (Json.get d "action" = Json.JStr "switch" ->
   0 <= i < len switches /\
   exists p, PyList.index switches i = Ok p /\ out = Ok (OrderSwitch p)) /\
  (Json.get d "action" <> Json.JStr "switch" ->
   0 <= i < len moves /\
   exists m, PyList.index moves i = Ok m /\ out = Ok (OrderMove m)).
Proof.
  intros Hv moves switches i out.
  destruct (validated_inv str_of d _ state Hv) as (Hact & Hint & Hm & Hs).
  rewrite count_moves_encoded in Hm. rewrite count_switches_encoded in Hs.
  fold moves in Hm. fold switches in Hs. fold i in Hm, Hs.
  destruct (is_int_as_int _ Hint) as [Has Hnn].
  assert (Ha : Json.item d "action" = Ok (Json.get d "action"))
    by (apply get_item; [reflexivity|apply known_action_not_null, Hact]).
  assert (Hi : Json.item d "index" = Ok (Json.get d "index"))
    by (apply get_item; [reflexivity|exact Hnn]).
  subst out. rewrite (emit_order_unfold _ _ _ _ _ _ _ _ Ha Hi Has).
  rewrite (nonempty_length _ _ (encode_moves_length b)).
  rewrite (nonempty_length _ _ (encode_switches_length b)).
  fold moves switches i.
  split.
  - intros E. specialize (Hs E). split; [exact Hs|].
    rewrite E. cbn [Json.eq_str String.eqb Ascii.eqb Bool.eqb orb andb].
    rewrite (nonempty_len switches) by lia. cbn [andb].
    rewrite (clamp_index_id _ _ Hs).
    destruct (index_in_range switches i Hs) as (p & Ep & _).
    exists p. rewrite Ep. split; reflexivity.
  - intros N.
    assert (E : Json.get d "action" = Json.JStr "move"
                \/ Json.get d "action" = Json.JStr "force_switch").
    { destruct Hact as [H|[H|H]]; [left; exact H|contradiction|right; exact H]. }
    specialize (Hm E). split; [exact Hm|].
    assert (E' : (Json.eq_str (Json.get d "action") "move"
                  || Json.eq_str (Json.get d "action") "force_switch") = true)
      by (rewrite orb_true_iff, !eq_str_true; exact E).
    rewrite E'. rewrite (nonempty_len moves) by lia. cbn [andb].
    rewrite (clamp_index_id _ _ Hm).
    destruct (index_in_range moves i Hm) as (m & Em & _).
    exists m. rewrite Em. split; reflexivity.
Qed.

(** The order the fallback ends in, case by case. *)
Lemma fallback_order_cases (b : Battle.t) (e : exn) :
  let moves := Battle.available_moves b in
  let switches := Battle.available_switches b in
  let out :=
    dec <- fallback_decision (encode_state b) (encode_moves b)
             (encode_switches b) e ;;
    emit_order dec moves switches (encode_moves b) (encode_switches b) in
  (Battle.force_switch b = true ->
   forall p ps, switches = p :: ps -> out = Ok (OrderSwitch p)) /\
  (~ (Battle.force_switch b = true /\ switches <> []) -> moves <> [] ->
   Forall (fun m => representable (_move_base_power m)) moves ->
   exists i m, first_best (encode_moves b) i /\
               PyList.index moves i = Ok m /\ out = Ok (OrderMove m)) /\
  (~ (Battle.force_switch b = true /\ switches <> []) -> moves = [] ->
   out = Ok RandomOrder).
Proof.
  intros moves switches out.
  destruct (fallback_decision_cases (encode_state b) (encode_moves b)
              (encode_switches b) e) as (H1 & H2 & H3).
  assert (Hsw : encode_switches b <> [] <-> switches <> []).
  { rewrite <- !nonempty_true.
    rewrite (nonempty_length _ _ (encode_switches_length b)). reflexivity. }
  assert (Hmv : encode_moves b <> [] <-> moves <> []).
  { rewrite <- !nonempty_true.
    rewrite (nonempty_length _ _ (encode_moves_length b)). reflexivity. }
  change (StateSummary.force_switch (encode_state b))
    with (Battle.force_switch b) in *.
  split; [|split].
  - intros Hf p ps Es.
    destruct (H1 Hf) as [reason E].
    { apply Hsw. fold switches. rewrite Es. discriminate. }
    subst out. rewrite E. cbn [Py.bind].
    rewrite (emit_order_unfold _ _ _ _ _ (Json.JStr "switch") (Json.JInt 0) 0)
      by reflexivity.
    cbn [Json.eq_str String.eqb Ascii.eqb Bool.eqb orb andb].
    rewrite (nonempty_length _ _ (encode_switches_length b)).
    fold switches. rewrite Es. cbn [nonempty].
    rewrite clamp_index_id by (unfold len; simpl List.length; lia).
    rewrite (index_nth (p :: ps) 0 p) by (try lia; reflexivity).
    reflexivity.
  - intros Hn Hne Hrep.
    destruct H2 as (i & reason & E & Hi).
    { rewrite Hsw. exact Hn. }
    { apply Hmv. exact Hne. }
    { apply encode_moves_base_power. exact Hrep. }
    pose proof Hi as [Hr _]. unfold len in Hr. rewrite encode_moves_length in Hr.
    fold moves in Hr. change (0 <= i < len moves) in Hr.
    destruct (index_in_range moves i Hr) as (m & Em & _).
    exists i, m. split; [exact Hi|]. split; [exact Em|].
    subst out. rewrite E. cbn [Py.bind].
    rewrite (emit_order_unfold _ _ _ _ _ (Json.JStr "move") (Json.JInt i) i)
      by reflexivity.
    cbn [Json.eq_str String.eqb Ascii.eqb Bool.eqb orb andb].
    rewrite (nonempty_length _ _ (encode_moves_length b)).
    fold moves. rewrite (nonempty_len moves) by lia.
    rewrite (clamp_index_id _ _ Hr), Em. reflexivity.
  - intros Hn Hm.
    destruct H3 as [reason E].
    { rewrite Hsw. exact Hn. }
    { apply encode_moves_nil. exact Hm. }
    subst out. rewrite E. cbn [Py.bind].
    rewrite (emit_order_unfold _ _ _ _ _ (Json.JStr "move") (Json.JInt 0) 0)
      by reflexivity.
    cbn [Json.eq_str String.eqb Ascii.eqb Bool.eqb orb andb].
    rewrite (encode_moves_nil b Hm). fold moves. rewrite Hm. reflexivity.
Qed.

Lemma max_loop_In {A} (key : A -> result PyFloat.float) (l : list A) :
  forall best bestv b,
    PyList.max_loop key best bestv l = Ok b -> b = best \/ In b l.
Proof.
  induction l as [|x l IH]; intros best bestv b H; simpl in H.
  - left. congruence.
  - destruct (key x) as [v|e]; [|discriminate]. simpl in H.
    destruct (PyFloat.ltb bestv v).
    + destruct (IH _ _ _ H) as [->|Hin];
        right; [left; reflexivity|right; exact Hin].
    + destruct (IH _ _ _ H) as [->|Hin];
        [left; reflexivity|right; right; exact Hin].
Qed.

Lemma max_key_In {A} (key : A -> result PyFloat.float) (l : list A) (b : A) :
  PyList.max_key key l = Ok b -> In b l.
Proof.
  destruct l as [|x l]; [discriminate|]. simpl.
  destruct (key x) as [v|e]; [|discriminate]. simpl. intros H.
  destruct (max_loop_In key l _ _ _ H) as [->|Hin];
    [left; reflexivity|right; exact Hin].
Qed.

Lemma best_move_index_range (rows : list RowMove.t) (i : Z) :
  best_move_index rows = Ok i -> 0 <= i < len rows.
Proof.
  unfold best_move_index, len. intros H. apply max_key_In in H.
  apply range_In in H. exact H.
Qed.

(** X14.  The fallback decision is not validated, and need not be valid.
    By the validator's own rules it passes exactly when the forced-switch
    flag is set and there is a legal switch, or the flag is unset and there
    is a legal move; [move] on a forced-switch turn without a switch, and
    [move 0] without any move, would be rejected. *)
Theorem fallback_decision_validity (str_of : Json.t -> string) (b : Battle.t)
  (state : StateSummary.t) (e : exn) (dec : Json.dict) :
  let move_rows := encode_moves b in
  let switch_rows := encode_switches b in
  fallback_decision state move_rows switch_rows e = Ok dec ->
  (fst (_validate_decision str_of (Json.JObj dec)
          (rows_for_llm move_rows switch_rows) state) = true <->
   (StateSummary.force_switch state = true
    /\ Battle.available_switches b <> [])
   \/ (StateSummary.force_switch state = false
       /\ Battle.available_moves b <> [])).
Proof.
  intros move_rows switch_rows. subst move_rows switch_rows.
  unfold fallback_decision.
  rewrite (nonempty_length _ _ (encode_moves_length b)).
  rewrite (nonempty_length _ _ (encode_switches_length b)).
  unfold _validate_decision.
  rewrite count_moves_encoded, count_switches_encoded.
  destruct (StateSummary.force_switch state) eqn:Ef;
    destruct (nonempty (Battle.available_switches b)) eqn:Es;
    cbn [andb].
  - (* forced, a switch exists *)
    intros H. injection H as <-.
    cbn [decision Json.get String.eqb Ascii.eqb Bool.eqb Json.eq_str
         Json.is_int int_value orb andb negb].
    apply nonempty_true in Es. pose proof (len_pos _ Es) as Hl.
    replace (len (Battle.available_switches b) <=? 0) with false by lia.
    cbn [Z.ltb Z.compare orb fst]. split; [|reflexivity].
    intros _. left. split; [reflexivity|exact Es].
  - (* forced, no switch *)
    assert (Hs : Battle.available_switches b = [])
      by (destruct (Battle.available_switches b); [reflexivity|discriminate]).
    destruct (nonempty (Battle.available_moves b)).
    + destruct (best_move_index (encode_moves b)) as [i|e']; [|discriminate].
      cbn [Py.bind]. intros H. injection H as <-.
      cbn [decision Json.get String.eqb Ascii.eqb Bool.eqb Json.eq_str
           Json.is_int int_value orb andb negb fst].
      split; [discriminate|]. intros [[_ H]|[H _]]; congruence.
    + intros H. injection H as <-.
      cbn [decision Json.get String.eqb Ascii.eqb Bool.eqb Json.eq_str
           Json.is_int int_value orb andb negb fst].
      split; [discriminate|]. intros [[_ H]|[H _]]; congruence.
  - (* not forced, a switch exists *)
    destruct (nonempty (Battle.available_moves b)) eqn:Em.
    + destruct (best_move_index (encode_moves b)) as [i|e'] eqn:Eb;
        [|discriminate].
      cbn [Py.bind]. intros H. injection H as <-.
      apply best_move_index_range in Eb.
      unfold len in Eb. rewrite encode_moves_length in Eb.
      change (0 <= i < len (Battle.available_moves b)) in Eb.
      cbn [decision Json.get String.eqb Ascii.eqb Bool.eqb Json.eq_str
           Json.is_int int_value orb andb negb].
      replace (i <? 0) with false by lia.
      replace (len (Battle.available_moves b) <=? i) with false by lia.
      cbn [orb fst]. split; [|reflexivity].
      intros _. right. split; [reflexivity|]. apply nonempty_true, Em.
    + assert (Hm : Battle.available_moves b = [])
        by (destruct (Battle.available_moves b); [reflexivity|discriminate]).
      intros H. injection H as <-.
      cbn [decision Json.get String.eqb Ascii.eqb Bool.eqb Json.eq_str
           Json.is_int int_value orb andb negb].
      rewrite Hm. cbn [len List.length Z.of_nat Z.leb Z.ltb Z.compare orb fst].
      split; [discriminate|]. intros [[H _]|[_ H]]; congruence.
  - (* not forced, no switch *)
    destruct (nonempty (Battle.available_moves b)) eqn:Em.
    + destruct (best_move_index (encode_moves b)) as [i|e'] eqn:Eb;
        [|discriminate].
      cbn [Py.bind]. intros H. injection H as <-.
      apply best_move_index_range in Eb.
      unfold len in Eb. rewrite encode_moves_length in Eb.
      change (0 <= i < len (Battle.available_moves b)) in Eb.
      cbn [decision Json.get String.eqb Ascii.eqb Bool.eqb Json.eq_str
           Json.is_int int_value orb andb negb].
      replace (i <? 0) with false by lia.
      replace (len (Battle.available_moves b) <=? i) with false by lia.
      cbn [orb fst]. split; [|reflexivity].
      intros _. right. split; [reflexivity|]. apply nonempty_true, Em.
    + assert (Hm : Battle.available_moves b = [])
        by (destruct (Battle.available_moves b); [reflexivity|discriminate]).
      intros H. injection H as <-.
      cbn [decision Json.get String.eqb Ascii.eqb Bool.eqb Json.eq_str
           Json.is_int int_value orb andb negb].
      rewrite Hm. cbn [len List.length Z.of_nat Z.leb Z.ltb Z.compare orb fst].
      split; [discriminate|]. intros [[H _]|[_ H]]; congruence.
Qed.

Lemma encode_moves_power_zero (b : Battle.t) :
  Forall (fun m => _move_base_power m = 0) (Battle.available_moves b) ->
  Forall (fun r => RowMove.base_power r = 0) (encode_moves b).
Proof.
  intros H. rewrite Forall_forall in H. apply Forall_forall. intros r Hr.
  unfold encode_moves in Hr. apply in_map_iff in Hr.
  destruct Hr as ([i m] & <- & Hin). simpl. apply H.
  eapply enumerate_from_In, Hin.
Qed.

(** With every score equal to zero, the first index is the best. *)
Lemma first_best_all_zero (rows : list RowMove.t) (i : Z) :
  Forall (fun r => RowMove.base_power r = 0) rows ->
  first_best rows i -> i = 0.
Proof.
  intros Hz (Hr & si & Ei & Hall). rewrite Forall_forall in Hz.
  assert (Hs : forall j, 0 <= j < len rows -> score_at rows j = Ok PyFloat.zero).
  { intros j Hj. unfold score_at.
    destruct (index_in_range rows j Hj) as (r & -> & En). simpl.
    apply score_status, Hz. eapply nth_error_In, En. }
  destruct (Z.eq_dec i 0) as [E|N]; [exact E|exfalso].
  assert (H0 : 0 <= 0 < len rows) by lia.
  destruct (Hall 0 PyFloat.zero H0 (Hs 0 H0)) as [_ Hlt].
  specialize (Hlt ltac:(lia)).
  rewrite (Hs i Hr) in Ei. injection Ei as <-. discriminate Hlt.
Qed.

Lemma emit_order_legal (b : Battle.t) (dec : Json.dict)
  (move_rows : list RowMove.t) (switch_rows : list RowSwitch.t) (o : order) :
  emit_order dec (Battle.available_moves b) (Battle.available_switches b)
    move_rows switch_rows = Ok o ->
  legal_order b o.
Proof.
  unfold emit_order.
  destruct (Json.item dec "action") as [act|e]; [|discriminate].
  cbn [Py.bind].
  destruct ((Json.eq_str act "move" || Json.eq_str act "force_switch")
            && nonempty move_rows).
  - destruct (Json.item dec "index") as [idx|e]; [|discriminate].
    cbn [Py.bind].
    destruct (Json.as_int idx) as [i|e]; [|discriminate].
    cbn [Py.bind].
    destruct (PyList.index _ _) as [m|e] eqn:E; [|discriminate].
    intros H. injection H as <-. simpl. eapply index_In, E.
  - destruct (Json.eq_str act "switch" && nonempty switch_rows).
    + destruct (Json.item dec "index") as [idx|e]; [|discriminate].
      cbn [Py.bind].
      destruct (Json.as_int idx) as [i|e]; [|discriminate].
      cbn [Py.bind].
      destruct (PyList.index _ _) as [p|e] eqn:E; [|discriminate].
      intros H. injection H as <-. simpl. eapply index_In, E.
    + destruct (nonempty (Battle.available_moves b)) eqn:En.
      * destruct (PyList.index _ _) as [m|e] eqn:E; [|discriminate].
        intros H. injection H as <-. simpl. eapply index_In, E.
      * intros H. injection H as <-. simpl.
        destruct (Battle.available_moves b); [reflexivity|discriminate].
Qed.


Section EndToEnd.

Variable cfg : Config.t.
Variable json_loads : string -> result Json.t.
Variable str_of : Json.t -> string.

Lemma oracle_turn_decision (self : LLMPlayer.t) (b : Battle.t) (w1 : World.t)
  (r : result Json.dict) :
  fst (_llm_decide cfg json_loads str_of self (encode_state b)
         (rows_for_llm (encode_moves b) (encode_switches b)) w1) = r ->
  turn_decision cfg json_loads str_of self b
  = match r with
    | Ok dec => Ok dec
    | Raise e =>
        fallback_decision (encode_state b) (encode_moves b)
          (encode_switches b) e
    end.
Proof.
  intros H. rewrite llm_decide_fst in H. unfold turn_decision. rewrite H.
  reflexivity.
Qed.

(** X15.  When the oracle stage returns a decision and the console takes
    the lines of the turn (logging is off, or the state line and the
    [DECIDE] line can be encoded), the turn executes the decision at
    exactly its index: [switch] gives the switch order of the team member
    at that index of the legal switches, [move] and [force_switch] the move
    order of the move at that index of the legal moves.  The index is in
    range and the defensive clamp changes nothing.  When the console does
    not take the lines, the turn raises [UnicodeEncodeError] instead. *)
Theorem choose_move_follows_oracle (self : LLMPlayer.t) (w w1 : World.t)
  (dec : Json.dict) :
  let b := World.battle w in
  let moves := Battle.available_moves b in
  let switches := Battle.available_switches b in
  let i := int_value (Json.get dec "index") in
  let out := fst (choose_move cfg json_loads str_of self w) in
  fst (_llm_decide cfg json_loads str_of self (encode_state b)
         (rows_for_llm (encode_moves b) (encode_switches b)) w1) = Ok dec ->
  (console_takes cfg b dec = true ->
   (Json.get dec "action" = Json.JStr "switch" ->
    0 <= i < len switches /\
    exists p, PyList.index switches i = Ok p /\ out = Ok (OrderSwitch p)) /\
   (Json.get dec "action" <> Json.JStr "switch" ->
    0 <= i < len moves /\
    exists m, PyList.index moves i = Ok m /\ out = Ok (OrderMove m))) /\
  (console_takes cfg b dec = false ->
   log_enabled cfg = true /\ out = Raise PyStr.encode_error).
Proof.
  intros b moves switches i out H.
  pose proof (oracle_turn_decision self b w1 _ H) as Hd. cbv beta iota in Hd.
  rewrite llm_decide_fst in H.
  subst out. rewrite choose_move_result. fold b. split.
  - intros Ht. rewrite (turn_order_shown cfg json_loads str_of self b dec Hd Ht).
    apply (validated_emit str_of b (encode_state b) dec).
    eapply oracle_result_validated, H.
  - intros Ht.
    apply (turn_order_not_shown cfg json_loads str_of self b dec Hd Ht).
Qed.

(** X16.  When the oracle stage fails and the console takes the lines of
    the turn, the order of the turn is: on a forced switch with a legal
    switch, the switch to the first legal switch; otherwise, with a legal
    move, the move at the first index of greatest score (the scores being
    computable); otherwise, without any legal move, the battle client's
    random choice, even when switches are legal. *)
Theorem choose_move_fallback_order (self : LLMPlayer.t) (w w1 : World.t)
  (e : exn) :
  let b := World.battle w in
  let moves := Battle.available_moves b in
  let switches := Battle.available_switches b in
  let out := fst (choose_move cfg json_loads str_of self w) in
  fst (_llm_decide cfg json_loads str_of self (encode_state b)
         (rows_for_llm (encode_moves b) (encode_switches b)) w1) = Raise e ->
  turn_shown cfg json_loads str_of self b ->
  (Battle.force_switch b = true ->
   forall p ps, switches = p :: ps -> out = Ok (OrderSwitch p)) /\
  (~ (Battle.force_switch b = true /\ switches <> []) -> moves <> [] ->
   Forall (fun m => representable (_move_base_power m)) moves ->
   exists i m, first_best (encode_moves b) i /\
               PyList.index moves i = Ok m /\ out = Ok (OrderMove m)) /\
  (~ (Battle.force_switch b = true /\ switches <> []) -> moves = [] ->
   out = Ok RandomOrder).
Proof.
  intros b moves switches out H Hs.
  pose proof (oracle_turn_decision self b w1 _ H) as Hd. cbv beta iota in Hd.
  assert (Hout : forall o,
            (dec <- fallback_decision (encode_state b) (encode_moves b)
                      (encode_switches b) e ;;
             emit_order dec moves switches (encode_moves b)
               (encode_switches b)) = Ok o ->
            out = Ok o).
  { intros o Ho. subst out. rewrite choose_move_result. fold b.
    destruct (fallback_decision (encode_state b) (encode_moves b)
                (encode_switches b) e) as [dec|e'] eqn:Ef; [|discriminate Ho].
    cbn [Py.bind] in Ho.
    rewrite (turn_order_shown cfg json_loads str_of self b dec Hd (Hs dec Hd)).
    exact Ho. }
  destruct (fallback_order_cases b e) as (H1 & H2 & H3).
  split; [|split].
  - intros Hf p ps Es. apply Hout, (H1 Hf p ps Es).
  - intros Hn Hm Hrep. destruct (H2 Hn Hm Hrep) as (i & m & Hi & Em & Ho).
    exists i, m. split; [exact Hi|]. split; [exact Em|]. apply Hout, Ho.
  - intros Hn Hm. apply Hout, (H3 Hn Hm).
Qed.

(** X17.  When the oracle stage fails on a turn whose legal moves all have
    base power 0 (status moves), no switch is forced and the console takes
    the lines of the turn, the first legal move is ordered: every score is
    0.0 and the tie goes to the lowest index. *)
Theorem status_moves_fallback_first (self : LLMPlayer.t) (w w1 : World.t)
  (e : exn) (m : Move.t) (ms : list Move.t) :
  let b := World.battle w in
  fst (_llm_decide cfg json_loads str_of self (encode_state b)
         (rows_for_llm (encode_moves b) (encode_switches b)) w1) = Raise e ->
  turn_shown cfg json_loads str_of self b ->
  ~ (Battle.force_switch b = true /\ Battle.available_switches b <> []) ->
  Battle.available_moves b = m :: ms ->
  Forall (fun m => _move_base_power m = 0) (m :: ms) ->
  fst (choose_move cfg json_loads str_of self w) = Ok (OrderMove m).
Proof.
  intros b H Hs Hn Hm Hz.
  pose proof (oracle_turn_decision self b w1 _ H) as Hd. cbv beta iota in Hd.
  rewrite choose_move_result. fold b.
  destruct (fallback_order_cases b e) as (_ & H2 & _).
  destruct H2 as (i & m' & Hi & Em & Ho).
  - exact Hn.
  - rewrite Hm. discriminate.
  - rewrite Hm. eapply Forall_impl; [|exact Hz].
    intros m0 E. simpl in E. rewrite E. eexists. reflexivity.
  - assert (i = 0).
    { apply (first_best_all_zero (encode_moves b)); [|exact Hi].
      apply encode_moves_power_zero. rewrite Hm. exact Hz. }
    subst i. rewrite Hm in Em.
    rewrite (index_nth (m :: ms) 0 m) in Em by (try lia; reflexivity).
    injection Em as <-.
    destruct (fallback_decision (encode_state b) (encode_moves b)
                (encode_switches b) e) as [dec|e'] eqn:Ef; [|discriminate Ho].
    cbn [Py.bind] in Ho.
    rewrite (turn_order_shown cfg json_loads str_of self b dec Hd (Hs dec Hd)).
    exact Ho.
Qed.

(** X18.  On a forced-switch turn with no legal move and at least one legal
    switch, whose lines the console takes, the player always switches,
    whatever the oracle answers: a [move] or [force_switch] answer cannot
    pass the validator, a [switch] answer that passes is executed, and
    every failure falls back on the first legal switch.  The turn neither
    raises nor leaves the choice to chance. *)
Theorem forced_turn_always_switches (self : LLMPlayer.t) (w : World.t) :
  let b := World.battle w in
  Battle.force_switch b = true -> Battle.available_moves b = [] ->
  Battle.available_switches b <> [] ->
  turn_shown cfg json_loads str_of self b ->
  exists p, In p (Battle.available_switches b) /\
            fst (choose_move cfg json_loads str_of self w) = Ok (OrderSwitch p).
Proof.
  intros b Hf Hm Hsw Hs. rewrite choose_move_result. fold b.
  pose proof Hs as Hs'. unfold turn_shown, turn_decision in Hs'.
  pose proof (turn_order_shown cfg json_loads str_of self b) as Hto.
  unfold turn_decision in Hto.
  destruct (oracle_result cfg json_loads str_of self (encode_state b)
              (rows_for_llm (encode_moves b) (encode_switches b)))
    as [dec|e] eqn:Eo.
  - rewrite (Hto dec eq_refl (Hs' dec eq_refl)).
    pose proof (oracle_result_validated _ _ _ _ _ _ _ Eo) as Hv.
    destruct (validated_inv str_of dec _ _ Hv) as (Hact & _).
    destruct (validated_emit str_of b (encode_state b) dec Hv) as [Hsw' Hmv].
    destruct Hact as [Ea|[Ea|Ea]].
    + destruct Hmv as [Hr _]; [rewrite Ea; discriminate|].
      rewrite Hm in Hr. unfold len in Hr. simpl in Hr. lia.
    + destruct (Hsw' Ea) as (_ & p & Ep & ->).
      exists p. split; [eapply index_In, Ep|reflexivity].
    + destruct Hmv as [Hr _]; [rewrite Ea; discriminate|].
      rewrite Hm in Hr. unfold len in Hr. simpl in Hr. lia.
  - destruct (fallback_order_cases b e) as (H1 & _).
    destruct (Battle.available_switches b) as [|p ps] eqn:Es; [congruence|].
    exists p. split; [left; reflexivity|].
    specialize (H1 Hf p ps eq_refl).
    destruct (fallback_decision (encode_state b) (encode_moves b)
                (encode_switches b) e) as [dec|e'] eqn:Ef; [|discriminate H1].
    cbn [Py.bind] in H1.
    rewrite (Hto dec eq_refl (Hs' dec eq_refl)). exact H1.
Qed.

(** X19.  Every order [choose_move] returns is legal on the battle it was
    given: a move order names one of the legal moves, a switch order one of
    the legal switches, and the battle client's random choice is asked for
    only when there is no legal move. *)
Theorem choose_move_order_legal (self : LLMPlayer.t) (w : World.t) (o : order) :
  fst (choose_move cfg json_loads str_of self w) = Ok o ->
  legal_order (World.battle w) o.
Proof.
  rewrite choose_move_result. intros H.
  destruct (turn_order_ok cfg json_loads str_of self _ o H) as (dec & _ & He).
  eapply emit_order_legal, He.
Qed.

(** X26.  The turns on which [choose_move] is sure to return an order: for
    every battle whose base powers are numbers a float can hold and whose
    lines the console takes (logging is off, or the state line and the
    [DECIDE] line can be encoded), and also with no legal move and no legal
    switch, [choose_move] does not raise and returns an order; when both
    lists are empty the order is the battle client's own random choice. *)
Theorem choose_move_total (self : LLMPlayer.t) (w : World.t) :
  Forall (fun m => representable (_move_base_power m))
    (Battle.available_moves (World.battle w)) ->
  turn_shown cfg json_loads str_of self (World.battle w) ->
  exists o w',
    choose_move cfg json_loads str_of self w = (Ok o, w') /\
    (Battle.available_moves (World.battle w) = [] ->
     Battle.available_switches (World.battle w) = [] ->
     o = RandomOrder).
Proof.
  intros Hrep Hs.
  enough (H : exists o, fst (choose_move cfg json_loads str_of self w) = Ok o /\
            (Battle.available_moves (World.battle w) = [] ->
             Battle.available_switches (World.battle w) = [] ->
             o = RandomOrder)).
  { destruct H as (o & E & Ho). exists o.
    exists (snd (choose_move cfg json_loads str_of self w)).
    split; [|exact Ho]. rewrite <- E. apply surjective_pairing. }
  rewrite choose_move_result. set (b := World.battle w) in *.
  assert (Hd : exists dec, turn_decision cfg json_loads str_of self b = Ok dec).
  { unfold turn_decision.
    destruct (oracle_result cfg json_loads str_of self (encode_state b)
                (rows_for_llm (encode_moves b) (encode_switches b)))
      as [dec|e]; [eauto|].
    destruct (fallback_decision_wf (encode_state b) (encode_moves b)
                (encode_switches b) e) as (dec & -> & _); [|eauto].
    apply encode_moves_base_power, Hrep. }
  destruct Hd as [dec Hd].
  rewrite (turn_order_shown cfg json_loads str_of self b dec Hd (Hs dec Hd)).
  apply emit_order_total. eapply turn_decision_wf, Hd.
Qed.

End EndToEnd.


(** ** Console and trace file *)

Lemma logs_only_refl (cfg : Config.t) (w : World.t) : logs_only cfg w w.
Proof.
  split; [reflexivity|]. split; [reflexivity|].
  split; exists []; rewrite app_nil_r; split; auto.
Qed.

Lemma logs_only_trans (cfg : Config.t) (w1 w2 w3 : World.t) :
  logs_only cfg w1 w2 -> logs_only cfg w2 w3 -> logs_only cfg w1 w3.
Proof.
  intros (B1 & D1 & (c1 & C1 & Q1) & (t1 & T1 & S1))
         (B2 & D2 & (c2 & C2 & Q2) & (t2 & T2 & S2)).
  split; [congruence|]. split; [congruence|]. split.
  - exists (c1 ++ c2). split; [rewrite C2, C1, app_assoc; reflexivity|].
    intros H. rewrite (Q1 H), (Q2 H). reflexivity.
  - exists (t1 ++ t2). split; [rewrite T2, T1, app_assoc; reflexivity|].
    intros H. rewrite (S1 H). rewrite S2; [reflexivity|].
    rewrite D1. exact H.
Qed.

Section Keeps.

Variable cfg : Config.t.

Lemma keeps_ret {A} (v : A) : keeps (logs_only cfg) (ret v).
Proof. intros w. apply logs_only_refl. Qed.

Lemma keeps_raise {A} (e : exn) : keeps (logs_only cfg) (@raise A e).
Proof. intros w. apply logs_only_refl. Qed.

Lemma keeps_lift {A} (r : result A) : keeps (logs_only cfg) (lift r).
Proof. intros w. apply logs_only_refl. Qed.

Lemma keeps_read : keeps (logs_only cfg) read_battle.
Proof. intros w. apply logs_only_refl. Qed.

Lemma keeps_mbind {A B} (m : M A) (k : A -> M B) :
  keeps (logs_only cfg) m -> (forall v, keeps (logs_only cfg) (k v)) ->
  keeps (logs_only cfg) (mbind m k).
Proof.
  intros Hm Hk w. unfold mbind. specialize (Hm w).
  destruct (m w) as [[v|e] w']; simpl in *.
  - eapply logs_only_trans; [exact Hm|apply Hk].
  - exact Hm.
Qed.

Lemma keeps_try_catch {A} (m : M A) (h : exn -> M A) :
  keeps (logs_only cfg) m -> (forall e, keeps (logs_only cfg) (h e)) ->
  keeps (logs_only cfg) (try_catch m h).
Proof.
  intros Hm Hh w. unfold try_catch. specialize (Hm w).
  destruct (m w) as [[v|e] w']; simpl in *.
  - exact Hm.
  - eapply logs_only_trans; [exact Hm|apply Hh].
Qed.

Lemma keeps_when (b : bool) (m : M unit) :
  (b = true -> keeps (logs_only cfg) m) -> keeps (logs_only cfg) (when b m).
Proof. intros H. destruct b; [apply H; reflexivity|apply keeps_ret]. Qed.

Lemma keeps_print (l : console_line) :
  log_enabled cfg = true -> keeps (logs_only cfg) (print l).
Proof.
  intros H w. unfold print.
  destruct (printable l); [|apply logs_only_refl].
  unfold logs_only. simpl.
  split; [reflexivity|]. split; [reflexivity|]. split.
  - exists [l]. split; [reflexivity|]. congruence.
  - exists []. rewrite app_nil_r. split; [reflexivity|auto].
Qed.

Lemma keeps_trace (rec : Trace.t) : keeps (logs_only cfg) (_trace cfg rec).
Proof.
  intros w. unfold _trace.
  destruct (Config.TRACE_FILE cfg) as [[|c s]|] eqn:Et;
    try apply logs_only_refl.
  destruct (World.disk_ok w) eqn:E; [|apply logs_only_refl].
  destruct (Trace.encodable rec); [|apply logs_only_refl].
  unfold logs_only. simpl.
  split; [reflexivity|]. split; [symmetry; exact E|]. split.
  - exists []. rewrite app_nil_r. split; [reflexivity|auto].
  - exists [rec]. split; [reflexivity|].
    unfold trace_enabled. rewrite Et. intros [H|H]; congruence.
Qed.

Lemma log_full_enabled : log_full cfg = true -> log_enabled cfg = true.
Proof. unfold log_full, log_enabled. intros ->. apply orb_true_r. Qed.

Lemma keeps_print_compact (l : console_line) :
  keeps (logs_only cfg) (_print_compact cfg l).
Proof. apply keeps_when. apply keeps_print. Qed.

Lemma keeps_debug_print (debug : bool) (l : console_line) :
  keeps (logs_only cfg) (when (debug && log_full cfg) (print l)).
Proof.
  apply keeps_when. intros H. apply andb_true_iff in H.
  apply keeps_print, log_full_enabled, H.
Qed.

Variable json_loads : string -> result Json.t.
Variable str_of : Json.t -> string.

Lemma keeps_llm_decide (self : LLMPlayer.t) (state : StateSummary.t)
  (rows : list Row) :
  keeps (logs_only cfg) (_llm_decide cfg json_loads str_of self state rows).
Proof.
  unfold _llm_decide.
  destruct (forced_bad_output cfg).
  - apply keeps_mbind; [apply keeps_debug_print|intros _].
    apply keeps_mbind; [apply keeps_trace|intros _]. apply keeps_raise.
  - destruct (LLMPlayer._client self) as [ask|]; [|apply keeps_raise].
    apply keeps_mbind; [apply keeps_debug_print|intros _].
    apply keeps_mbind; [apply keeps_lift|intros content].
    apply keeps_mbind; [apply keeps_debug_print|intros _].
    apply keeps_mbind.
    + apply keeps_try_catch; [apply keeps_lift|intros e].
      apply keeps_mbind; [apply keeps_trace|intros _]. apply keeps_raise.
    + intros dec.
      destruct (_validate_decision str_of _ rows state) as [ok err].
      destruct (negb ok).
      * apply keeps_mbind; [apply keeps_trace|intros _]. apply keeps_raise.
      * apply keeps_mbind; [apply keeps_trace|intros _]. apply keeps_ret.
Qed.

Lemma keeps_decide (self : LLMPlayer.t) (state : StateSummary.t)
  (move_rows : list RowMove.t) (switch_rows : list RowSwitch.t) :
  keeps (logs_only cfg)
    (decide cfg json_loads str_of self state move_rows switch_rows).
Proof.
  unfold decide. apply keeps_try_catch; [apply keeps_llm_decide|intros e].
  apply keeps_mbind; [apply keeps_lift|intros dec].
  apply keeps_mbind; [apply keeps_trace|intros _]. apply keeps_ret.
Qed.

Lemma keeps_choose_move (self : LLMPlayer.t) :
  keeps (logs_only cfg) (choose_move cfg json_loads str_of self).
Proof.
  unfold choose_move.
  apply keeps_mbind; [apply keeps_read|intros battle].
  apply keeps_mbind.
  { apply keeps_when. intros Hlog.
    apply keeps_mbind; [apply keeps_when; intros _; apply keeps_print, Hlog|].
    intros _.
    apply keeps_mbind; [apply keeps_print_compact|intros _].
    apply keeps_print_compact. }
  intros _. apply keeps_mbind.
  { apply keeps_when. intros H. apply andb_true_iff in H.
    apply keeps_print, H. }
  intros _. apply keeps_mbind; [apply keeps_decide|intros dec].
  apply keeps_mbind; [|intros _; apply keeps_lift].
  destruct (log_enabled cfg); [|apply keeps_ret].
  apply keeps_mbind; [apply keeps_lift|intros l]. apply keeps_print_compact.
Qed.

(** X21.  A turn only adds to the console and to the trace file: what was
    printed and what was recorded before the turn is still there, in front
    of the turn's own lines and records.  The battle and the state of the
    disk are left as they were. *)
Theorem choose_move_append_only (self : LLMPlayer.t) (w : World.t) :
  let w' := snd (choose_move cfg json_loads str_of self w) in
  World.battle w' = World.battle w /\
  (exists printed, World.console w' = World.console w ++ printed) /\
  (exists traced, World.trace_file w' = World.trace_file w ++ traced) /\
  World.disk_ok w' = World.disk_ok w.
Proof.
  destruct (keeps_choose_move self w) as (B & D & (cl & C & _) & (tl & T & _)).
  cbv zeta. split; [exact B|]. split; [exists cl; exact C|].
  split; [exists tl; exact T|exact D].
Qed.

(** X22.  With a log mode other than [compact] and [full] the turn prints
    nothing; without a trace file (unset or the empty string), or when the
    file cannot be written, the turn records nothing. *)
Theorem choose_move_silent (self : LLMPlayer.t) (w : World.t) :
  let w' := snd (choose_move cfg json_loads str_of self w) in
  (Config.LOG_MODE cfg <> "compact" -> Config.LOG_MODE cfg <> "full" ->
   World.console w' = World.console w) /\
  (Config.TRACE_FILE cfg = None \/ Config.TRACE_FILE cfg = Some ""
   \/ World.disk_ok w = false ->
   World.trace_file w' = World.trace_file w).
Proof.
  destruct (keeps_choose_move self w) as (_ & _ & (cl & C & Q) & (tl & T & S)).
  cbv zeta. split.
  - intros H1 H2. rewrite C, Q, app_nil_r; [reflexivity|].
    unfold log_enabled. apply String.eqb_neq in H1, H2. rewrite H1, H2.
    reflexivity.
  - intros H. rewrite T, S, app_nil_r; [reflexivity|].
    unfold trace_enabled. destruct H as [->|[->|H]]; auto.
Qed.

End Keeps.

Lemma trace_on (cfg : Config.t) (rec : Trace.t) (w : World.t) :
  trace_enabled cfg = true -> World.disk_ok w = true ->
  exists w1,
    _trace cfg rec w = (Ok tt, w1) /\
    World.trace_file w1 = World.trace_file w ++ written rec /\
    World.disk_ok w1 = true.
Proof.
  unfold trace_enabled, _trace, written. intros Ht Hd.
  destruct (Config.TRACE_FILE cfg) as [[|c s]|]; try discriminate.
  rewrite Hd. destruct (Trace.encodable rec); eexists; cbn [andb].
  - split; [reflexivity|]. split; reflexivity.
  - split; [reflexivity|]. split; [symmetry; apply app_nil_r|exact Hd].
Qed.

Lemma mbind_run {A B} (m : M A) (k : A -> M B) (w : World.t) :
  mbind m k w = match m w with
                | (Ok v, w') => k v w'
                | (Raise e, w') => (Raise e, w')
                end.
Proof. reflexivity. Qed.

Lemma lift_run {A} (r : result A) (w : World.t) : lift r w = (r, w).
Proof. reflexivity. Qed.

Lemma when_print_run (b : bool) (l : console_line) (w : World.t) :
  printable l = true ->
  exists w1, when b (print l) w = (Ok tt, w1) /\
             World.trace_file w1 = World.trace_file w /\
             World.disk_ok w1 = World.disk_ok w.
Proof.
  intros Hp. destruct b; simpl; [unfold print; rewrite Hp|];
    eexists; repeat split.
Qed.

Lemma written_length (rec : Trace.t) : (List.length (written rec) <= 1)%nat.
Proof. unfold written. destruct (Trace.encodable rec); simpl; lia. Qed.

Lemma written_Forall (P : Trace.t -> Prop) (rec : Trace.t) :
  P rec -> Forall P (written rec).
Proof.
  intros H. unfold written. destruct (Trace.encodable rec); repeat constructor.
  exact H.
Qed.

Section TraceRecords.

Variable cfg : Config.t.
Variable json_loads : string -> result Json.t.
Variable str_of : Json.t -> string.

Lemma llm_decide_trace (self : LLMPlayer.t) (state : StateSummary.t)
  (rows : list Row) (w : World.t) :
  trace_enabled cfg = true -> World.disk_ok w = true ->
  let out := _llm_decide cfg json_loads str_of self state rows w in
  World.disk_ok (snd out) = true /\
  match fst out with
  | Ok dec =>
      exists ask content,
        LLMPlayer._client self = Some ask /\
        ask (LLMPlayer.model self) state rows = Ok content /\
        World.trace_file (snd out)
        = World.trace_file w
          ++ written (Trace.mk "llm_ok" (StateSummary.turn state) None
                        (Some (str_or content "")) (Some dec) None
                        (Some state) (Some rows))
  | Raise e =>
      exists before,
        World.trace_file (snd out) = World.trace_file w ++ before /\
        (List.length before <= 1)%nat /\
        Forall (oracle_failure_record (StateSummary.turn state)) before
  end.
Proof.
  intros Ht Hd out. subst out. unfold _llm_decide.
  assert (Hrec : forall ev a b c d e f,
            In ev ["llm_forced_bad"; "llm_bad_json"; "llm_bad_decision"] ->
            Forall (oracle_failure_record (StateSummary.turn state))
              (written (Trace.mk ev (StateSummary.turn state) a b c d e f))).
  { intros ev a b c d e f Hev. apply written_Forall.
    split; [reflexivity|exact Hev]. }
  destruct (forced_bad_output cfg).
  { rewrite mbind_run.
    destruct (when_print_run (LLMPlayer.debug self && log_full cfg)
                PrintForcedRaw w eq_refl) as (w1 & -> & E2 & E3).
    rewrite mbind_run.
    destruct (trace_on cfg
                (Trace.mk "llm_forced_bad" (StateSummary.turn state) None
                   None None None None None) w1 Ht)
      as (w2 & -> & F2 & F3); [congruence|].
    unfold raise. cbn [fst snd].
    split; [exact F3|]. eexists. rewrite F2, E2.
    split; [reflexivity|]. split; [apply written_length|].
    apply Hrec. simpl. auto. }
  destruct (LLMPlayer._client self) as [ask|].
  2:{ unfold raise. cbn [fst snd]. split; [exact Hd|].
      exists []. rewrite app_nil_r. split; [reflexivity|].
      split; [simpl; lia|constructor]. }
  rewrite mbind_run.
  destruct (when_print_run (LLMPlayer.debug self && log_full cfg)
              (PrintPrompt state rows) w eq_refl) as (w1 & -> & E2 & E3).
  rewrite mbind_run, lift_run.
  destruct (ask (LLMPlayer.model self) state rows) as [content|e0] eqn:Ea.
  2:{ cbv beta iota. cbn [fst snd]. split; [congruence|].
      exists []. rewrite app_nil_r. split; [exact E2|].
      split; [simpl; lia|constructor]. }
  rewrite mbind_run.
  destruct (when_print_run (LLMPlayer.debug self && log_full cfg)
              (PrintRawOutput (str_or content "")) w1 eq_refl)
    as (w2 & -> & F2 & F3).
  rewrite mbind_run. unfold try_catch. rewrite lift_run.
  assert (Hd2 : World.disk_ok w2 = true) by congruence.
  destruct (_extract_json json_loads (str_or content "")) as [d|e1].
  2:{ rewrite mbind_run.
      destruct (trace_on cfg
                  (Trace.mk "llm_bad_json" (StateSummary.turn state)
                     (Some (exn_str e1)) (Some (str_or content "")) None
                     None (Some state) None) w2 Ht Hd2)
        as (w3 & -> & G2 & G3).
      unfold raise. cbn [fst snd].
      split; [exact G3|]. eexists. rewrite G2, F2, E2.
      split; [reflexivity|]. split; [apply written_length|].
      apply Hrec. simpl. auto. }
  destruct (_validate_decision str_of (Json.JObj d) rows state) as [ok err].
  destruct ok; cbn [negb].
  - rewrite mbind_run.
    destruct (trace_on cfg
                (Trace.mk "llm_ok" (StateSummary.turn state) None
                   (Some (str_or content "")) (Some d) None (Some state)
                   (Some rows)) w2 Ht Hd2)
      as (w3 & -> & G2 & G3).
    unfold ret. cbn [fst snd].
    split; [exact G3|]. exists ask, content.
    split; [reflexivity|]. split; [exact Ea|].
    rewrite G2, F2, E2. reflexivity.
  - rewrite mbind_run.
    destruct (trace_on cfg
                (Trace.mk "llm_bad_decision" (StateSummary.turn state)
                   (Some err) (Some (str_or content "")) (Some d) None
                   (Some state) (Some rows)) w2 Ht Hd2)
      as (w3 & -> & G2 & G3).
    unfold raise. cbn [fst snd].
    split; [exact G3|]. eexists. rewrite G2, F2, E2.
    split; [reflexivity|]. split; [apply written_length|].
    apply Hrec. simpl. auto.
Qed.

(** X23.  With a trace file that can be opened, the decision of a turn
    leaves its record, unless the line of the record cannot be encoded: such
    a record is dropped whole.  A decision of the oracle: one record,
    [llm_ok], with the answer of the service as it came, the decision, the
    state and the rows, and nothing else.  A fallback: at most one record of
    the oracle's own failure ([llm_forced_bad], [llm_bad_json] or
    [llm_bad_decision]), then the [fallback_exception] record with the text
    of the exception and the decision taken. *)
Theorem decide_trace_records (self : LLMPlayer.t) (state : StateSummary.t)
  (move_rows : list RowMove.t) (switch_rows : list RowSwitch.t)
  (w : World.t) :
  trace_enabled cfg = true -> World.disk_ok w = true ->
  let rows := rows_for_llm move_rows switch_rows in
  let turn := StateSummary.turn state in
  let oracle := fst (_llm_decide cfg json_loads str_of self state rows w) in
  let res := decide cfg json_loads str_of self state move_rows switch_rows w in
  (forall dec, oracle = Ok dec ->
     fst res = Ok dec /\
     exists ask content,
       LLMPlayer._client self = Some ask /\
       ask (LLMPlayer.model self) state rows = Ok content /\
       World.trace_file (snd res)
       = World.trace_file w
         ++ written (Trace.mk "llm_ok" turn None (Some (str_or content ""))
                       (Some dec) None (Some state) (Some rows))) /\
  (forall e dec, oracle = Raise e ->
     fallback_decision state move_rows switch_rows e = Ok dec ->
     fst res = Ok dec /\
     exists before,
       World.trace_file (snd res)
       = World.trace_file w ++ before
         ++ written (Trace.mk "fallback_exception" turn (Some (exn_str e))
                       None None (Some dec) (Some state) None) /\
       (List.length before <= 1)%nat /\
       Forall (oracle_failure_record turn) before).
Proof.
  intros Ht Hd rows turn oracle res. subst oracle res.
  unfold decide, try_catch.
  destruct (llm_decide_trace self state rows w Ht Hd) as [Hok Htr].
  fold rows in Hok, Htr |- *.
  destruct (_llm_decide cfg json_loads str_of self state rows w)
    as [[d|e0] w1]; cbn [fst snd] in *.
  - split; [|discriminate].
    intros dec H. injection H as <-. split; [reflexivity|exact Htr].
  - split; [discriminate|].
    intros e dec H Hfb. injection H as <-.
    destruct Htr as (before & Eb & Hlen & Hall).
    rewrite mbind_run, lift_run. rewrite Hfb.
    rewrite mbind_run.
    destruct (trace_on cfg
                (Trace.mk "fallback_exception" (StateSummary.turn state)
                   (Some (exn_str e0)) None None (Some dec) (Some state)
                   None) w1 Ht Hok)
      as (w2 & -> & G2 & G3).
    unfold ret. cbn [fst snd].
    split; [reflexivity|]. exists before. rewrite G2, Eb, <- app_assoc.
    split; [reflexivity|]. split; assumption.
Qed.

End TraceRecords.

(** ** The constructor *)

(** X24.  The player is built without a client exactly when the API key
    is empty, the client class could not be imported, or building the
    client raised; otherwise it holds the client built from the key.  The
    model is the one passed, the configured one when none or the empty
    string is passed.  A player without a client fails every oracle stage
    with [no_openai_client], touching nothing. *)
Theorem init_client (env : Env.t) (model : option string) (debug : bool) :
  let self := __init__ env model debug in
  (LLMPlayer._client self = None <->
   Env.OPENAI_KEY env = "" \/ Env.OpenAI env = None
   \/ exists new_client e, Env.OpenAI env = Some new_client /\
                           new_client (Env.OPENAI_KEY env) = Raise e) /\
  (forall new_client c,
     Env.OPENAI_KEY env <> "" -> Env.OpenAI env = Some new_client ->
     new_client (Env.OPENAI_KEY env) = Ok c ->
     LLMPlayer._client self = Some c) /\
  (LLMPlayer.model self
   = match model with
     | Some (String a s) => String a s
     | _ => Env.OPENAI_MODEL env
     end) /\
  (forall cfg json_loads str_of state rows w,
     LLMPlayer._client self = None -> forced_bad_output cfg = false ->
     _llm_decide cfg json_loads str_of self state rows w
     = (Raise (RuntimeError "no_openai_client"), w)).
Proof.
  cbv zeta. unfold __init__. cbn [LLMPlayer._client LLMPlayer.model].
  split; [|split; [|split]].
  - destruct (Env.OPENAI_KEY env) as [|a s] eqn:Ek.
    { split; [auto|reflexivity]. }
    destruct (Env.OpenAI env) as [new_client|] eqn:Eo.
    2:{ split; [auto|reflexivity]. }
    destruct (new_client (String a s)) as [c|e] eqn:Ec; simpl.
    + split; [discriminate|].
      intros [H|[H|(nc & e & H & H')]]; try discriminate.
      injection H as <-. congruence.
    + split; [|reflexivity]. intros _. right. right. eauto.
  - intros new_client c Hk Ho Hc. rewrite Ho.
    destruct (Env.OPENAI_KEY env) as [|a s]; [congruence|].
    rewrite Hc. reflexivity.
  - destruct model as [[|a s]|]; reflexivity.
  - intros cfg json_loads str_of state rows w Hc Hf.
    unfold _llm_decide. rewrite Hf. cbn [LLMPlayer._client]. rewrite Hc.
    reflexivity.
Qed.

(** ** The spectator link *)

Lemma battle_dict_filled (me : Spectate.player) :
  Spectate._battle_dict me = None \/
  exists roomid rest, Spectate._battle_dict me = Some (roomid :: rest).
Proof.
  unfold Spectate._battle_dict, Spectate.filled.
  destruct (Spectate.current_battles me) as [| |[|r rs]]; eauto;
    destruct (Spectate._battles me) as [| |[|r' rs']]; eauto;
    destruct (Spectate.battles me) as [| |[|r'' rs'']]; eauto.
Qed.

Lemma poll_none (rounds k : nat) (view : nat -> Spectate.player)
  (base : string) (ob : bool) :
  (forall j, (k <= j < k + rounds)%nat -> Spectate._battle_dict (view j) = None) ->
  Spectate.poll rounds k view base ob = repeat Spectate.Sleep rounds.
Proof.
  revert k. induction rounds as [|n IH]; intros k H; [reflexivity|].
  simpl. rewrite (H k) by lia. f_equal. apply IH.
  intros j Hj. apply H. lia.
Qed.

Lemma poll_first (rounds k n : nat) (view : nat -> Spectate.player)
  (base : string) (ob : bool) (roomid : string) (rest : list string) :
  (n < rounds)%nat ->
  (forall j, (k <= j < k + n)%nat -> Spectate._battle_dict (view j) = None) ->
  Spectate._battle_dict (view (k + n)%nat) = Some (roomid :: rest) ->
  Spectate.poll rounds k view base ob
  = repeat Spectate.Sleep n
    ++ Spectate.PrintWatch (base ++ "/" ++ roomid)
    :: (if ob then [Spectate.OpenBrowser (base ++ "/" ++ roomid)] else []).
Proof.
  revert rounds k. induction n as [|n IH]; intros rounds k Hn Hnone Hk.
  - destruct rounds as [|r]; [lia|]. simpl. rewrite Nat.add_0_r in Hk.
    rewrite Hk. reflexivity.
  - destruct rounds as [|r]; [lia|]. simpl. rewrite (Hnone k) by lia.
    f_equal. apply IH; [lia| |].
    + intros j Hj. apply Hnone. lia.
    + replace (S k + n)%nat with (k + S n)%nat by lia. exact Hk.
Qed.

Lemma poll_prints_once (rounds k : nat) (view : nat -> Spectate.player)
  (base : string) (ob : bool) :
  (List.length (filter is_watch (Spectate.poll rounds k view base ob)) <= 1)%nat.
Proof.
  revert k. induction rounds as [|r IH]; intros k; [simpl; lia|].
  simpl. destruct (battle_dict_filled (view k)) as [->|(roomid & rest & ->)].
  - simpl. apply IH.
  - destruct ob; simpl; lia.
Qed.

(** X25.  The spectator coroutine looks at the player at most 200 times,
    sleeping between looks.  If no battle shows, it sleeps 200 times and
    prints nothing.  At the first look that shows a battle it prints the
    link of the first room, under the base address of the host, opens the
    browser on it if asked to, and stops: the link is printed at most
    once. *)
Theorem announce_room_first_battle (view : nat -> Spectate.player)
  (host : string) (port : Z) (open_browser : bool) :
  let out := Spectate._announce_room view host port open_browser in
  let base := Spectate.base_url host port in
  ((forall k, (k < 200)%nat -> Spectate._battle_dict (view k) = None) ->
   out = repeat Spectate.Sleep 200) /\
  (forall n roomid rest,
     (n < 200)%nat ->
     (forall j, (j < n)%nat -> Spectate._battle_dict (view j) = None) ->
     Spectate._battle_dict (view n) = Some (roomid :: rest) ->
     out = repeat Spectate.Sleep n
           ++ Spectate.PrintWatch (base ++ "/" ++ roomid)
           :: (if open_browser
               then [Spectate.OpenBrowser (base ++ "/" ++ roomid)]
               else [])) /\
  (List.length (filter is_watch out) <= 1)%nat.
Proof.
  intros out base. subst out. unfold Spectate._announce_room. fold base.
  assert (H1 : (forall k, (k < 200)%nat -> Spectate._battle_dict (view k) = None) ->
               Spectate.poll 200 0 view base open_browser
               = repeat Spectate.Sleep 200).
  { intros H. apply poll_none. intros j Hj. apply H. lia. }
  assert (H2 : forall n roomid rest,
     (n < 200)%nat ->
     (forall j, (j < n)%nat -> Spectate._battle_dict (view j) = None) ->
     Spectate._battle_dict (view n) = Some (roomid :: rest) ->
     Spectate.poll 200 0 view base open_browser
     = repeat Spectate.Sleep n
       ++ Spectate.PrintWatch (base ++ "/" ++ roomid)
       :: (if open_browser
           then [Spectate.OpenBrowser (base ++ "/" ++ roomid)]
           else [])).
  { intros n roomid rest Hn Hnone Hk.
    apply (poll_first 200 0 n view base open_browser roomid rest Hn).
    - intros j Hj. apply Hnone. lia.
    - exact Hk. }
  split; [exact H1|]. split; [exact H2|].
  apply poll_prints_once.
Qed.

(** ** The example turn, run *)

(** Without an oracle the best-scoring move is ordered: [thunderbolt], 90
    of base power, certain, with STAB. *)
Example choose_move_offline :
  fst (choose_move Example.cfg JsonDecoder.loads Example.str_of
         Example.offline Example.world)
  = Ok (OrderMove Example.thunderbolt).
Proof. vm_compute. reflexivity. Qed.

(** With the forced-switch flag set and two switch candidates, the fallback
    switches to the first one. *)
Example choose_move_forced_switch :
  fst (choose_move Example.cfg JsonDecoder.loads Example.str_of
         Example.offline (World.mk Example.forced_battle [] [] true))
  = Ok (OrderSwitch Example.eevee).
Proof. vm_compute. reflexivity. Qed.

(** The oracle's answer, commentary around it, is followed. *)
Example choose_move_scripted :
  fst (choose_move Example.cfg JsonDecoder.loads Example.str_of
         (Example.scripted Example.sure) Example.world)
  = Ok (OrderMove Example.thunder).
Proof. vm_compute. reflexivity. Qed.

(** An index that is a float does not validate: the fallback decides. *)
Example choose_move_index_not_int :
  fst (choose_move Example.cfg JsonDecoder.loads Example.str_of
         (Example.scripted (JsonDecoder.dq "{'action':'switch','index':1.0}"))
         Example.world)
  = Ok (OrderMove Example.thunderbolt).
Proof. vm_compute. reflexivity. Qed.

(** The turn leaves its marks on the console and in the trace file. *)
Example choose_move_logs :
  List.length
    (World.console
       (snd (choose_move Example.cfg JsonDecoder.loads Example.str_of
               Example.offline Example.world))) = 3%nat /\
  List.length
    (World.trace_file
       (snd (choose_move Example.cfg JsonDecoder.loads Example.str_of
               Example.offline Example.world))) = 1%nat.
Proof. vm_compute. split; reflexivity. Qed.

(** ** The theorems at work on the example turn *)

Lemma fallback_priority_witness :
  exists dec i,
    fst (decide Example.cfg JsonDecoder.loads Example.str_of Example.offline
           (encode_state Example.battle) (encode_moves Example.battle)
           (encode_switches Example.battle) Example.world) = Ok dec /\
    Json.get dec "action" = Json.JStr "move" /\
    Json.get dec "index" = Json.JInt i /\
    first_best (encode_moves Example.battle) i.
Proof.
  destruct (fallback_priority Example.cfg JsonDecoder.loads Example.str_of
              Example.offline (encode_state Example.battle)
              (encode_moves Example.battle) (encode_switches Example.battle)
              Example.world) as (_ & Hclient & _ & _ & Hprio).
  destruct (Hprio (RuntimeError "no_openai_client")) as (_ & Hmove & _).
  - apply Hclient; reflexivity.
  - apply Hmove.
    + intros [Hf _]. discriminate Hf.
    + discriminate.
    + repeat constructor; eexists; reflexivity.
Defined.

Lemma extract_json_first_decodable_witness :
  first_decodable JsonDecoder.loads
    (list_ascii_of_string (Strip.strip Example.sure))
    [("action", Json.JStr "move"); ("index", Json.JInt 1);
     ("reason", Json.JStr "ok")].
Proof.
  destruct (extract_json_first_decodable JsonDecoder.loads Example.sure)
    as (_ & Hscan & _).
  destruct Hscan as (Hiff & _).
  - intros o. vm_compute. discriminate.
  - apply Hiff. vm_compute. reflexivity.
Defined.

Lemma validate_index_range_witness :
  _validate_decision Example.str_of
    (Json.JObj (decision "move" 5 "too far")) Example.rows
    (encode_state Example.battle)
  = (false, "index_out_of_range_move").
Proof.
  destruct (validate_index_range Example.str_of
              (decision "move" 5 "too far") Example.rows
              (encode_state Example.battle)) as (Hrange & _ & _).
  destruct Hrange as (Hmove & _ & _).
  - left. reflexivity.
  - reflexivity.
  - reflexivity.
  - apply Hmove. split; [left; reflexivity|]. vm_compute.
    intros [_ H]. discriminate H.
Defined.

Lemma validate_must_switch_witness :
  _validate_decision Example.str_of
    (Json.JObj (decision "move" 0 "attack")) []
    (encode_state Example.forced_battle)
  = (false, "must_switch").
Proof.
  destruct (validate_must_switch Example.str_of (decision "move" 0 "attack")
              [] (encode_state Example.forced_battle)) as (Hint & _).
  - reflexivity.
  - reflexivity.
  - apply Hint. reflexivity.
Defined.

Lemma score_move_row_spec_witness :
  same_score (_score_move_row (_move_row 1 Example.thunder (Some Example.pikachu)))
    (spec_score (_move_row 1 Example.thunder (Some Example.pikachu))) /\
  exists i, best_move_index (encode_moves Example.battle) = Ok i /\
            first_best (encode_moves Example.battle) i.
Proof.
  destruct score_move_row_spec as (Hspec & _ & _ & _ & Hbest).
  split.
  - apply Hspec. reflexivity.
  - apply Hbest.
    + discriminate.
    + repeat constructor; eexists; reflexivity.
Defined.

Lemma move_accuracy_normalized_witness :
  in_unit (_move_accuracy Example.thunder) /\
  in_unit (_move_accuracy (move_with_accuracy (PFloat (PyFloat.of_Z 55)))).
Proof.
  split.
  - destruct (move_accuracy_normalized Example.thunder)
      as (_ & _ & Hint & _).
    apply (Hint 70); [reflexivity|lia].
  - destruct (move_accuracy_normalized
                (move_with_accuracy (PFloat (PyFloat.of_Z 55))))
      as (_ & _ & _ & Hfloat & _).
    apply (Hfloat (PyFloat.of_Z 55)); reflexivity.
Defined.

Lemma emit_order_clamped_witness :
  0 <= clamp_index 7 (Battle.available_moves Example.battle)
    < len (Battle.available_moves Example.battle) /\
  clamp_index 7 (Battle.available_moves Example.battle)
  = Z.max 0 (Z.min 7 (len (Battle.available_moves Example.battle) - 1)) /\
  exists m,
    nth_error (Battle.available_moves Example.battle)
      (Z.to_nat (clamp_index 7 (Battle.available_moves Example.battle)))
    = Some m /\
    emit_order (decision "move" 7 "too far")
      (Battle.available_moves Example.battle)
      (Battle.available_switches Example.battle)
      (encode_moves Example.battle) (encode_switches Example.battle)
    = Ok (OrderMove m).
Proof.
  destruct (emit_order_clamped Example.battle (decision "move" 7 "too far")
              (Json.JStr "move") (Json.JInt 7) 7) as (Hmove & _ & _).
  - reflexivity.
  - reflexivity.
  - reflexivity.
  - apply Hmove; [left; reflexivity|discriminate].
Defined.

Lemma force_switch_emits_move_witness :
  exists m,
    nth_error (Battle.available_moves Example.battle)
      (Z.to_nat (int_value (Json.get (decision "force_switch" 1 "go") "index")))
    = Some m /\
    emit_order (decision "force_switch" 1 "go")
      (Battle.available_moves Example.battle)
      (Battle.available_switches Example.battle)
      (encode_moves Example.battle) (encode_switches Example.battle)
    = Ok (OrderMove m) /\
    emit_order (Json.set (decision "force_switch" 1 "go") "action"
                  (Json.JStr "move"))
      (Battle.available_moves Example.battle)
      (Battle.available_switches Example.battle)
      (encode_moves Example.battle) (encode_switches Example.battle)
    = Ok (OrderMove m).
Proof.
  apply (force_switch_emits_move Example.str_of Example.battle
           (encode_state Example.battle) (decision "force_switch" 1 "go"));
    reflexivity.
Defined.

(** ** The further properties at work *)

Lemma encoded_rows_positional_witness :
  PyList.index (encode_moves Example.battle) 1
  = Ok (_move_row 1 Example.thunder (Some Example.pikachu)) /\
  PyList.index (encode_switches Example.battle) 1
  = Ok (_switch_row 1 Example.mew).
Proof.
  destruct (encoded_rows_positional Example.battle 1) as (_ & _ & Hm & Hs).
  destruct Hm as (m & r & Em & Er & Hr & _); [unfold len; simpl; lia|].
  destruct Hs as (p & r' & Ep & Er' & Hr' & _); [unfold len; simpl; lia|].
  vm_compute in Em. injection Em as <-.
  vm_compute in Ep. injection Ep as <-.
  subst r r'. split; [exact Er|exact Er'].
Defined.

Lemma hp_pct_range_witness :
  _hp_pct Sample.unknown_hp = 100 /\ _hp_pct Sample.fainted = 0.
Proof.
  split.
  - apply (hp_pct_range Sample.unknown_hp). left. reflexivity.
  - apply (proj2 (proj2 (hp_pct_range Sample.fainted)) 48);
      [reflexivity|reflexivity|lia].
Defined.

(** One hit point out of eight is 12.5 percent: the tie goes to 12. *)
Lemma hp_pct_nearest_witness :
  _hp_pct Sample.scratched = nearest_even (100 * 1) 8 /\
  2 * Z.abs (100 * 1 - _hp_pct Sample.scratched * 8) <= 8 /\
  (1 = 8 -> _hp_pct Sample.scratched = 100).
Proof.
  apply (hp_pct_nearest Sample.scratched 1 8);
    [reflexivity|reflexivity|lia|lia].
Defined.

Lemma move_accuracy_unreadable_witness :
  _move_accuracy Sample.swift = PyFloat.one.
Proof.
  apply (proj1 (move_accuracy_unreadable Sample.swift) "always").
  reflexivity.
Defined.

Lemma score_robust_witness :
  exists s,
    _score_move_row (_move_row 0 Example.tackle (Some Example.pikachu)) = Ok s /\
    PyFloat.is_nan s = false /\ PyFloat.leb PyFloat.zero s = true.
Proof.
  apply (proj1 (score_robust
                  (_move_row 0 Example.tackle (Some Example.pikachu)))).
  - vm_compute. discriminate.
  - eexists. reflexivity.
Defined.

(** An index beyond the three moves is refused, with its reason. *)
Lemma validate_reason_iff_rejected_witness :
  In (snd (_validate_decision Example.str_of
             (Json.JObj [("action", Json.JStr "move"); ("index", Json.JInt 9)])
             Example.rows (encode_state Example.battle)))
    [("bad_action:" ++ "move")%string; "index_not_int"; "must_switch";
     "index_out_of_range_move"; "index_out_of_range_switch"].
Proof.
  apply (proj2 (validate_reason_iff_rejected Example.str_of
                  [("action", Json.JStr "move"); ("index", Json.JInt 9)]
                  Example.rows (encode_state Example.battle))).
  reflexivity.
Defined.



Lemma fallback_decision_validity_witness :
  fst (_validate_decision Example.str_of (Json.JObj Sample.fallback_dec)
         (rows_for_llm (encode_moves Example.battle)
            (encode_switches Example.battle))
         (encode_state Example.battle)) = true.
Proof.
  apply (fallback_decision_validity Example.str_of Example.battle
           (encode_state Example.battle) (RuntimeError "no_openai_client")
           Sample.fallback_dec).
  - vm_compute. reflexivity.
  - right. split; [reflexivity|discriminate].
Defined.

(** The answer of the example is executed; the answer whose reason cannot
    be encoded makes the turn raise. *)
Lemma choose_move_follows_oracle_witness :
  (exists m,
     PyList.index (Battle.available_moves Example.battle) 1 = Ok m /\
     fst (choose_move Example.cfg JsonDecoder.loads Example.str_of
            (Example.scripted Example.sure) Example.world) = Ok (OrderMove m)) /\
  fst (choose_move Example.cfg JsonDecoder.loads Example.str_of
         (Example.scripted Sample.lone_surrogate) Example.world)
  = Raise PyStr.encode_error.
Proof.
  split.
  - destruct (choose_move_follows_oracle Example.cfg JsonDecoder.loads
                Example.str_of (Example.scripted Example.sure) Example.world
                Example.world
                [("action", Json.JStr "move"); ("index", Json.JInt 1);
                 ("reason", Json.JStr "ok")]) as [Hyes _].
    + vm_compute. reflexivity.
    + apply Hyes; [reflexivity|discriminate].
  - destruct (choose_move_follows_oracle Example.cfg JsonDecoder.loads
                Example.str_of (Example.scripted Sample.lone_surrogate)
                Example.world Example.world Sample.surrogate_dec)
      as [_ Hno].
    + vm_compute. reflexivity.
    + apply Hno. reflexivity.
Defined.

Lemma choose_move_fallback_order_witness :
  exists i m,
    first_best (encode_moves Example.battle) i /\
    PyList.index (Battle.available_moves Example.battle) i = Ok m /\
    fst (choose_move Example.cfg JsonDecoder.loads Example.str_of
           Example.offline Example.world) = Ok (OrderMove m).
Proof.
  apply (choose_move_fallback_order Example.cfg JsonDecoder.loads
           Example.str_of Example.offline Example.world Example.world
           (RuntimeError "no_openai_client")).
  - reflexivity.
  - intros dec Hd. vm_compute in Hd. injection Hd as <-. reflexivity.
  - intros [Hf _]. discriminate Hf.
  - discriminate.
  - repeat constructor; eexists; reflexivity.
Defined.

(** Two status moves: the first one is ordered. *)
Lemma status_moves_fallback_first_witness :
  fst (choose_move Example.cfg JsonDecoder.loads Example.str_of
         Example.offline (World.mk Sample.status_battle [] [] true))
  = Ok (OrderMove Sample.growl).
Proof.
  apply (status_moves_fallback_first Example.cfg JsonDecoder.loads
           Example.str_of Example.offline
           (World.mk Sample.status_battle [] [] true)
           Example.world (RuntimeError "no_openai_client")
           Sample.growl [Sample.tailwhip]).
  - reflexivity.
  - intros dec Hd. vm_compute in Hd. injection Hd as <-. reflexivity.
  - intros [Hf _]. discriminate Hf.
  - reflexivity.
  - repeat constructor.
Defined.

(** The oracle asks for a move on a forced switch: the player switches. *)
Lemma forced_turn_always_switches_witness :
  exists p,
    In p (Battle.available_switches Example.forced_battle) /\
    fst (choose_move Example.cfg JsonDecoder.loads Example.str_of
           (Example.scripted Example.sure)
           (World.mk Example.forced_battle [] [] true))
    = Ok (OrderSwitch p).
Proof.
  apply (forced_turn_always_switches Example.cfg JsonDecoder.loads
           Example.str_of (Example.scripted Example.sure)
           (World.mk Example.forced_battle [] [] true)).
  - reflexivity.
  - reflexivity.
  - discriminate.
  - intros dec Hd. vm_compute in Hd. injection Hd as <-. reflexivity.
Defined.

Lemma choose_move_order_legal_witness :
  legal_order Example.battle (OrderMove Example.thunderbolt).
Proof.
  apply (choose_move_order_legal Example.cfg JsonDecoder.loads Example.str_of
           Example.offline Example.world).
  vm_compute. reflexivity.
Defined.


Lemma choose_move_silent_witness :
  World.console
    (snd (choose_move Sample.quiet JsonDecoder.loads Example.str_of
            Example.offline Sample.readonly_world))
  = World.console Sample.readonly_world /\
  World.trace_file
    (snd (choose_move Sample.quiet JsonDecoder.loads Example.str_of
            Example.offline Sample.readonly_world))
  = World.trace_file Sample.readonly_world.
Proof.
  destruct (choose_move_silent Sample.quiet JsonDecoder.loads Example.str_of
              Example.offline Sample.readonly_world) as [Hc Ht].
  split.
  - apply Hc; discriminate.
  - apply Ht. left. reflexivity.
Defined.

Lemma decide_trace_records_witness :
  fst (decide Example.cfg JsonDecoder.loads Example.str_of Example.offline
         (encode_state Example.battle) (encode_moves Example.battle)
         (encode_switches Example.battle) Example.world)
  = Ok Sample.fallback_dec /\
  exists before,
    World.trace_file
      (snd (decide Example.cfg JsonDecoder.loads Example.str_of
              Example.offline (encode_state Example.battle)
              (encode_moves Example.battle) (encode_switches Example.battle)
              Example.world))
    = World.trace_file Example.world ++ before
      ++ written
           (Trace.mk "fallback_exception" 3
              (Some (exn_str (RuntimeError "no_openai_client"))) None None
              (Some Sample.fallback_dec) (Some (encode_state Example.battle))
              None) /\
    (List.length before <= 1)%nat /\
    Forall (oracle_failure_record 3) before.
Proof.
  apply (proj2 (decide_trace_records Example.cfg JsonDecoder.loads
                  Example.str_of Example.offline
                  (encode_state Example.battle) (encode_moves Example.battle)
                  (encode_switches Example.battle) Example.world
                  eq_refl eq_refl)
           (RuntimeError "no_openai_client") Sample.fallback_dec).
  - reflexivity.
  - vm_compute. reflexivity.
Defined.

(** The example turn returns an order. *)
Lemma choose_move_total_witness :
  exists o w',
    choose_move Example.cfg JsonDecoder.loads Example.str_of Example.offline
      Example.world = (Ok o, w') /\
    (Battle.available_moves (World.battle Example.world) = [] ->
     Battle.available_switches (World.battle Example.world) = [] ->
     o = RandomOrder).
Proof.
  apply (choose_move_total Example.cfg JsonDecoder.loads Example.str_of
           Example.offline Example.world).
  - repeat constructor; eexists; reflexivity.
  - intros dec Hd. vm_compute in Hd. injection Hd as <-. reflexivity.
Defined.

Lemma init_client_witness :
  LLMPlayer._client (__init__ Sample.no_key None false) = None.
Proof.
  apply (proj1 (init_client Sample.no_key None false)).
  left. reflexivity.
Defined.

(** The battle shows at the fourth look: three sleeps, then the link. *)
Lemma announce_room_first_battle_witness :
  Spectate._announce_room Sample.view "localhost" 8000 true
  = [Spectate.Sleep; Spectate.Sleep; Spectate.Sleep;
     Spectate.PrintWatch "http://localhost:8000/battle-gen9randombattle-1";
     Spectate.OpenBrowser "http://localhost:8000/battle-gen9randombattle-1"].
Proof.
  apply (proj1 (proj2 (announce_room_first_battle Sample.view "localhost"
                         8000 true))
           3%nat "battle-gen9randombattle-1" []).
  - lia.
  - intros j Hj. destruct j as [|[|[|j]]]; [reflexivity..|lia].
  - reflexivity.
Defined.
